(** * Tradernet MCP server: a shallow embedding of [src/index.ts]

    The server is a flat registration of twelve tools.  Every tool maps its
    validated parameters to one call of [callApi], which signs the request
    with HMAC-SHA256 and posts it, and wraps the outcome in a response
    envelope.  This file embeds

    - the Node primitives the code relies on ([crypto.createHmac], the JSON
      serializer and reader with their doubles and strings, [parseInt],
      integer [toString]),
    - the effects of a handler (the clock, the outbound requests, exceptions)
      as a state-and-exception monad over an explicit [world],
    - the zod schemas and the handlers of the twelve tools,

    and proves the properties the specification states about them. *)

From Stdlib Require Import ZArith List String Ascii Bool Lia.
From stdpp Require Import base option gmap strings.

Import ListNotations.
Set Warnings "-register-all".
Local Open Scope string_scope.
Local Open Scope list_scope.
Local Open Scope Z_scope.

(** ** Bytes and text

    A JavaScript string is a sequence of UTF-16 code units.  It is held here
    as a [string] of bytes, those of its UTF-8 encoding; a surrogate without
    a partner, which UTF-8 does not encode, is held as the three bytes the
    same scheme gives its code unit (237, a byte from 160 to 191, a
    continuation byte).  [items] reads the bytes back into what the string
    holds; [utf8] is the encoding proper, which is what [Hmac.update] hashes
    and what axios puts on the wire: there a surrogate without a partner
    leaves as U+FFFD. *)

Definition bytes := list Z.

Definition dquote : string := String (ascii_of_nat 34) EmptyString.

Module Text.

Definition code (c : ascii) : Z := Z.of_N (N_of_ascii c).

Definition byte_char (n : Z) : ascii := ascii_of_N (Z.to_N n).

Definition utf8_encode (cp : Z) : list ascii :=
  if cp <? 128 then [byte_char cp]
  else if cp <? 2048 then
    [byte_char (192 + cp / 64); byte_char (128 + cp mod 64)]
  else if cp <? 65536 then
    [byte_char (224 + cp / 4096); byte_char (128 + (cp / 64) mod 64);
     byte_char (128 + cp mod 64)]
  else
    [byte_char (240 + cp / 262144); byte_char (128 + (cp / 4096) mod 64);
     byte_char (128 + (cp / 64) mod 64); byte_char (128 + cp mod 64)].

Definition is_high_surrogate (u : Z) : bool := (55296 <=? u) && (u <=? 56319).
Definition is_low_surrogate (u : Z) : bool := (56320 <=? u) && (u <=? 57343).

(** The surrogate code unit three bytes hold, if they hold one. *)
Definition surrogate (c c2 c3 : ascii) : option Z :=
  if (code c =? 237) && (160 <=? code c2) && (code c2 <=? 191)
     && (128 <=? code c3) && (code c3 <=? 191)
  then Some (55296 + (code c2 - 160) * 64 + (code c3 - 128))
  else None.

(** What a string holds at a place: a high surrogate directly followed by a
    low one, each held on its three bytes (together they are the code point
    that UTF-8 writes on four bytes), a surrogate without a partner, or any
    other byte. *)
Inductive item :=
| Byte (c : ascii)
| Lone (u : Z)
| Pair (hi lo : Z).

(** The item at the head of a string, and the string after it. *)
Definition head_item (s : string) : option (item * string) :=
  match s with
  | EmptyString => None
  | String c ((String c2 (String c3 r3)) as r) =>
      match surrogate c c2 c3 with
      | Some u =>
          match r3 with
          | String d (String d2 (String d3 r6)) =>
              match surrogate d d2 d3 with
              | Some l =>
                  if is_high_surrogate u && is_low_surrogate l
                  then Some (Pair u l, r6)
                  else Some (Lone u, r3)
              | None => Some (Lone u, r3)
              end
          | _ => Some (Lone u, r3)
          end
      | None => Some (Byte c, r)
      end
  | String c r => Some (Byte c, r)
  end.

(** The items of a string; an item takes at least one byte, so the length of
    the string is fuel enough. *)
Fixpoint items_from (fuel : nat) (s : string) : list item :=
  match fuel with
  | O => []
  | S k =>
      match head_item s with
      | Some (i, r) => i :: items_from k r
      | None => []
      end
  end.

Definition items (s : string) : list item := items_from (String.length s) s.

(** The UTF-8 encoding of a string. *)
Definition utf8_item (i : item) : list ascii :=
  match i with
  | Byte c => [c]
  | Lone _ => utf8_encode 65533
  | Pair hi lo => utf8_encode (65536 + (hi - 55296) * 1024 + (lo - 56320))
  end.

Definition utf8 (s : string) : list ascii := flat_map utf8_item (items s).

End Text.

Definition bytes_of_string (s : string) : bytes := map Text.code (Text.utf8 s).

(** ** crypto: SHA-256 and HMAC (FIPS 180-4, RFC 2104) *)

Module Crypto.

Definition w32 (x : Z) : Z := x mod 4294967296.
Definition add32 (x y : Z) : Z := w32 (x + y).
Definition rotr (n x : Z) : Z :=
  Z.lor (Z.shiftr x n) (w32 (Z.shiftl x (32 - n))).
Definition not32 (x : Z) : Z := Z.lxor x 4294967295.

Definition Ch (x y z : Z) : Z := Z.lxor (Z.land x y) (Z.land (not32 x) z).
Definition Maj (x y z : Z) : Z :=
  Z.lxor (Z.lxor (Z.land x y) (Z.land x z)) (Z.land y z).
Definition bsig0 (x : Z) : Z := Z.lxor (Z.lxor (rotr 2 x) (rotr 13 x)) (rotr 22 x).
Definition bsig1 (x : Z) : Z := Z.lxor (Z.lxor (rotr 6 x) (rotr 11 x)) (rotr 25 x).
Definition ssig0 (x : Z) : Z := Z.lxor (Z.lxor (rotr 7 x) (rotr 18 x)) (Z.shiftr x 3).
Definition ssig1 (x : Z) : Z := Z.lxor (Z.lxor (rotr 17 x) (rotr 19 x)) (Z.shiftr x 10).

Definition K256 : list Z :=
  [ 1116352408; 1899447441; 3049323471; 3921009573; 961987163; 1508970993;
    2453635748; 2870763221; 3624381080; 310598401; 607225278; 1426881987;
    1925078388; 2162078206; 2614888103; 3248222580; 3835390401; 4022224774;
    264347078; 604807628; 770255983; 1249150122; 1555081692; 1996064986;
    2554220882; 2821834349; 2952996808; 3210313671; 3336571891; 3584528711;
    113926993; 338241895; 666307205; 773529912; 1294757372; 1396182291;
    1695183700; 1986661051; 2177026350; 2456956037; 2730485921; 2820302411;
    3259730800; 3345764771; 3516065817; 3600352804; 4094571909; 275423344;
    430227734; 506948616; 659060556; 883997877; 958139571; 1322822218;
    1537002063; 1747873779; 1955562222; 2024104815; 2227730452; 2361852424;
    2428436474; 2756734187; 3204031479; 3329325298 ].

Definition H256 : list Z :=
  [ 1779033703; 3144134277; 1013904242; 2773480762;
    1359893119; 2600822924; 528734635; 1541459225 ].

(** Padding: a 1 bit, zeros up to 56 mod 64, the bit length on 8 bytes. *)
Fixpoint be_bytes (n : nat) (x : Z) : bytes :=
  match n with
  | O => []
  | S k => (Z.shiftr x (8 * Z.of_nat k) mod 256) :: be_bytes k x
  end.

Definition pad (msg : bytes) : bytes :=
  let len := Z.of_nat (List.length msg) in
  let zeros := Z.to_nat ((55 - len) mod 64) in
  msg ++ 128 :: repeat 0 zeros ++ be_bytes 8 (8 * len).

Fixpoint words (fuel : nat) (bs : bytes) : list Z :=
  match fuel, bs with
  | S k, b3 :: b2 :: b1 :: b0 :: rest =>
      (b3 * 16777216 + b2 * 65536 + b1 * 256 + b0) :: words k rest
  | _, _ => []
  end.

(** The 64 rounds of one block.  [ws] is the sliding window of the message
    schedule: its head is W[t], and W[t+16] is appended as it is consumed. *)
Fixpoint rounds (ks ws : list Z) (st : list Z) : list Z :=
  match ks, ws, st with
  | k :: ks', w :: ws', [a; b; c; d; e; f; g; h] =>
      let t1 := add32 (add32 (add32 (add32 h (bsig1 e)) (Ch e f g)) k) w in
      let t2 := add32 (bsig0 a) (Maj a b c) in
      let w16 :=
        add32 (add32 (add32 (ssig1 (nth 13 ws' 0)) (nth 8 ws' 0))
                     (ssig0 (nth 0 ws' 0))) w in
      rounds ks' (ws' ++ [w16]) [add32 t1 t2; a; b; c; add32 d t1; e; f; g]
  | _, _, _ => st
  end.

Fixpoint zip_add (xs ys : list Z) : list Z :=
  match xs, ys with
  | x :: xs', y :: ys' => add32 x y :: zip_add xs' ys'
  | _, _ => []
  end.

Fixpoint blocks (fuel : nat) (ws : list Z) (st : list Z) : list Z :=
  match fuel with
  | O => st
  | S k =>
      match ws with
      | [] => st
      | _ => blocks k (skipn 16 ws) (zip_add st (rounds K256 (firstn 16 ws) st))
      end
  end.

Definition sha256 (msg : bytes) : bytes :=
  let p := pad msg in
  let ws := words (List.length p) p in
  flat_map (be_bytes 4) (blocks (List.length ws) ws H256).

(** HMAC with a 64-byte block: longer keys are hashed first, shorter ones
    are padded with zeros. *)
Definition hmac_sha256 (key msg : bytes) : bytes :=
  let k0 := if Z.of_nat (List.length key) >? 64 then sha256 key else key in
  let k := k0 ++ repeat 0 (64 - List.length k0)%nat in
  let ipad := map (Z.lxor 54) k in
  let opad := map (Z.lxor 92) k in
  sha256 (opad ++ sha256 (ipad ++ msg)).

Definition hex_digit (d : Z) : ascii :=
  ascii_of_N (Z.to_N (if d <? 10 then 48 + d else 87 + d)).

Fixpoint hex (bs : bytes) : string :=
  match bs with
  | [] => EmptyString
  | b :: rest => String (hex_digit (b / 16)) (String (hex_digit (b mod 16)) (hex rest))
  end.

End Crypto.


(** ** The JavaScript values and built-ins the server uses *)

Module JS.
Export Text.

(** A JavaScript number.  The server never computes with numbers: it passes
    them through, parses an integer with [parseInt] and prints the clock.
    [Int z] is the integer [z]; among the doubles these are the safe
    integers, of magnitude at most 2^53 - 1, and [JSON.parse] answers [Int]
    for those only.  Any other finite double, integral or not, is carried by
    the text [Number.prototype.toString] gives it (2^53 is
    [Dec "9007199254740992"], 10^21 is [Dec "1e+21"], 3/2 is [Dec "1.5"]).
    [NaN] is what [parseInt] answers when it finds no digit, and [Infinity]
    is what a literal beyond the largest double reads as. *)
Inductive number :=
| Int (z : Z)
| Dec (text : string)
| NaN
| Infinity (negative : bool).

Inductive json :=
| JNull
| JBool (b : bool)
| JNum (n : number)
| JStr (s : string)
| JArr (items : list json)
| JObj (fields : list (string * json)).

(** Exceptions: every one the server can meet is an [Error] object, and the
    handlers only read its [message]. *)
Inductive exn :=
| Error (msg : string)
| SyntaxError (msg : string)
| AxiosError (msg : string).

Definition message (e : exn) : string :=
  match e with
  | Error m | SyntaxError m | AxiosError m => m
  end.

(** Truthiness of a string, [!s] being its negation: only [""] is falsy. *)
Definition truthy (s : string) : bool :=
  match s with
  | EmptyString => false
  | String _ _ => true
  end.

(** [a ?? b]: the left operand unless it is [undefined] (or [null]). *)
Definition nullish {A : Type} (a : option A) (b : A) : A :=
  match a with
  | Some x => x
  | None => b
  end.

(** *** Integers as decimal text *)

Definition digit_char (d : Z) : ascii := ascii_of_N (Z.to_N (48 + d)).

Fixpoint decimal (fuel : nat) (n : Z) (acc : string) : string :=
  match fuel with
  | O => acc
  | S k =>
      let acc' := String (digit_char (n mod 10)) acc in
      if n <? 10 then acc' else decimal k (n / 10) acc'
  end.

Definition Z_toString (z : Z) : string :=
  let n := Z.abs z in
  let ds := decimal (S (Z.to_nat (Z.log2 n))) n EmptyString in
  if z <? 0 then String "-" ds else ds.

Definition Number_toString (n : number) : string :=
  match n with
  | Int z => Z_toString z
  | Dec text => text
  | NaN => "NaN"
  | Infinity false => "Infinity"
  | Infinity true => "-Infinity"
  end.

(** [Number.isFinite(n)] *)
Definition is_finite (n : number) : bool :=
  match n with
  | Int _ | Dec _ => true
  | NaN | Infinity _ => false
  end.

(** [Math.floor(t / 1000)] on an integral [t]: division rounding down. *)
Definition floor_div (t d : Z) : Z := t / d.

(** *** parseInt(string), radix absent *)

Definition is_space (c : ascii) : bool :=
  let n := code c in
  (n =? 32) || ((9 <=? n) && (n <=? 13)).

Fixpoint skip_spaces (s : string) : string :=
  match s with
  | String c r => if is_space c then skip_spaces r else s
  | EmptyString => s
  end.

Definition digit_value (radix : Z) (c : ascii) : option Z :=
  let n := code c in
  let v := if (48 <=? n) && (n <=? 57) then n - 48
           else if (97 <=? n) && (n <=? 122) then n - 87
           else if (65 <=? n) && (n <=? 90) then n - 55
           else 36 in
  if v <? radix then Some v else None.

(** The longest prefix of digits, most significant first. *)
Fixpoint digits_prefix (radix : Z) (s : string) (acc : option Z) : option Z :=
  match s with
  | String c r =>
      match digit_value radix c with
      | Some v => digits_prefix radix r (Some (nullish acc 0 * radix + v))
      | None => acc
      end
  | EmptyString => acc
  end.

Definition parseInt (s : string) : number :=
  let s1 := skip_spaces s in
  let '(sign, s2) :=
    match s1 with
    | String "-" r => (-1, r)
    | String "+" r => (1, r)
    | _ => (1, s1)
    end in
  let '(radix, s3) :=
    match s2 with
    | String "0" (String "x" r) | String "0" (String "X" r) => (16, r)
    | _ => (10, s2)
    end in
  match digits_prefix radix s3 None with
  | Some v => Int (sign * v)
  | None => NaN
  end.

(** *** JSON.stringify *)

(** The four lower-case hexadecimal digits of a code unit. *)
Definition hex4 (n : Z) : string :=
  String (Crypto.hex_digit (n / 4096))
    (String (Crypto.hex_digit ((n / 256) mod 16))
       (String (Crypto.hex_digit ((n / 16) mod 16))
          (String (Crypto.hex_digit (n mod 16)) EmptyString))).

Definition escape_char (c : ascii) : string :=
  let n := code c in
  if n =? 34 then String "\" dquote
  else if n =? 92 then "\\"
  else if n =? 8 then "\b"
  else if n =? 9 then "\t"
  else if n =? 10 then "\n"
  else if n =? 12 then "\f"
  else if n =? 13 then "\r"
  else if n <? 32 then "\u" +:+ hex4 n
  else String c EmptyString.

(** A surrogate pair is written as it is, a surrogate without a partner as
    its [\uXXXX] escape. *)
Definition escape_item (i : item) : string :=
  match i with
  | Byte c => escape_char c
  | Lone u => "\u" +:+ hex4 u
  | Pair hi lo => string_of_list_ascii (utf8_encode hi ++ utf8_encode lo)
  end.

Fixpoint escape_items (l : list item) : string :=
  match l with
  | [] => EmptyString
  | i :: r => escape_item i +:+ escape_items r
  end.

Definition escape (s : string) : string := escape_items (items s).

Definition quote (s : string) : string := dquote +:+ escape s +:+ dquote.

(** A number that is not finite is written [null]. *)
Definition number_json (n : number) : string :=
  if is_finite n then Number_toString n else "null".

(** [JSON.stringify(value)]: no white space, the properties in the order of
    the object. *)
Fixpoint JSON_stringify (v : json) : string :=
  match v with
  | JNull => "null"
  | JBool true => "true"
  | JBool false => "false"
  | JNum n => number_json n
  | JStr s => quote s
  | JArr items => "[" +:+ String.concat "," (map JSON_stringify items) +:+ "]"
  | JObj fields =>
      "{" +:+ String.concat ","
                (map (fun kv => quote (fst kv) +:+ ":" +:+ JSON_stringify (snd kv)) fields)
          +:+ "}"
  end.

Definition newline : string := String (ascii_of_nat 10) EmptyString.

(** [JSON.stringify(value, null, 2)]: one element or property per line, each
    level indented by two more spaces; empty arrays and objects stay closed. *)
Fixpoint JSON_stringify_gap (indent : string) (v : json) : string :=
  let inner := indent +:+ "  " in
  let sep := "," +:+ newline +:+ inner in
  match v with
  | JArr [] => "[]"
  | JArr items =>
      "[" +:+ newline +:+ inner
          +:+ String.concat sep (map (JSON_stringify_gap inner) items)
          +:+ newline +:+ indent +:+ "]"
  | JObj [] => "{}"
  | JObj fields =>
      "{" +:+ newline +:+ inner
          +:+ String.concat sep
                (map (fun kv => quote (fst kv) +:+ ": " +:+ JSON_stringify_gap inner (snd kv))
                     fields)
          +:+ newline +:+ indent +:+ "}"
  | _ => JSON_stringify v
  end.

(** An object literal [{ k1: v1, ... }] whose values may be [undefined]
    ([None]): such a property is in the object but is left out of every
    serialization, which is all the server does with the object. *)
Definition object_literal (props : list (string * option json)) : json :=
  JObj (omap (fun kv => match snd kv with
                        | Some v => Some (fst kv, v)
                        | None => None
                        end) props).

(** *** JSON.parse

    A recursive-descent reader of the JSON grammar (ECMA-404) over the bytes
    of the text.  A failure carries the input left at the offending place, from
    which the position in the message is computed.  The wording of the
    message is the engine's (V8 as shipped with Node 18 here); the server
    only copies it into the envelope.  The limits of an engine's resources
    (how deep a text may nest, how long a string may be) are not part of the
    reader. *)

Definition parsed (A : Type) : Type := (A * list ascii) + list ascii.

Definition is_ws (c : ascii) : bool :=
  let n := code c in
  (n =? 32) || (n =? 9) || (n =? 10) || (n =? 13).

Fixpoint skip_ws (s : list ascii) : list ascii :=
  match s with
  | c :: r => if is_ws c then skip_ws r else s
  | [] => s
  end.

Definition is_digit (c : ascii) : bool := (48 <=? code c) && (code c <=? 57).

Fixpoint take_digits (s : list ascii) : list ascii * list ascii :=
  match s with
  | c :: r =>
      if is_digit c then let '(ds, rest) := take_digits r in (c :: ds, rest)
      else ([], s)
  | [] => ([], [])
  end.

Definition digits_value (ds : list ascii) : Z :=
  fold_left (fun acc c => acc * 10 + (code c - 48)) ds 0.

(** *** The double a decimal literal denotes, and the text of a double

    [JSON.parse] rounds a literal to the nearest double, ties to the even
    mantissa (IEEE 754 binary64); [JSON.stringify] writes a double with the
    fewest digits that read back as it (Number::toString).  Both are computed
    exactly, on integers. *)

(** [a / b] rounded to the nearest integer, a tie to the even one. *)
Definition round_half_even (a b : Z) : Z :=
  let q := a / b in
  let r := a mod b in
  if (b <? 2 * r) || ((2 * r =? b) && Z.odd q) then q + 1 else q.

(** [num / den] divided by [2^e], as a fraction. *)
Definition scale2 (num den e : Z) : Z * Z :=
  if 0 <=? e then (num, den * 2 ^ e) else (num * 2 ^ (- e), den).

(** [num / den] divided by [10^p], as a fraction. *)
Definition scale10 (num den p : Z) : Z * Z :=
  if 0 <=? p then (num, den * 10 ^ p) else (num * 10 ^ (- p), den).

(** The double nearest to the positive [num / den]: [Some (m, e)] is
    [m * 2^e] with [2^52 <= m < 2^53], or with [m < 2^52] and [e = -1074]
    (a subnormal, or zero); [None] is Infinity. *)
Definition nearest_double (num den : Z) : option (Z * Z) :=
  let l := Z.log2 num - Z.log2 den in
  let '(a, b) := scale2 num den l in
  let exponent := if b <=? a then l else l - 1 in
  let e := Z.max (exponent - 52) (-1074) in
  let '(qa, qb) := scale2 num den e in
  let q := round_half_even qa qb in
  let '(m, e') := if q =? 2 ^ 53 then (2 ^ 52, e + 1) else (q, e) in
  if 971 <? e' then None else Some (m, e').

(** The double nearest to [m * 10^e10], where [m] has at most [digits]
    decimal digits.  Beyond 10^400 it is Infinity, below 10^-400 zero. *)
Definition literal_double (digits m e10 : Z) : option (Z * Z) :=
  if m =? 0 then Some (0, -1074)
  else if 400 <? e10 then None
  else if e10 + digits <? -400 then Some (0, -1074)
  else if 0 <=? e10 then nearest_double (m * 10 ^ e10) 1
  else nearest_double m (10 ^ (- e10)).

(** The least [n], from [n] on, with [num / den < 10^n]. *)
Fixpoint decimal_exponent (fuel : nat) (num den n : Z) : Z :=
  match fuel with
  | O => n
  | S k =>
      let '(a, b) := scale10 num den n in
      if a <? b then n else decimal_exponent k num den (n + 1)
  end.

(** The fewest digits [s] ([k] of them) and the exponent [n] for which
    [s * 10^(n-k)] reads as the double [target], which is [num / den]; of
    two such [s] the one nearer to the double, of two as near the even one.
    Seventeen digits always do. *)
Fixpoint shortest_digits (fuel : nat) (k : Z) (num den n0 : Z) (target : Z * Z)
    : Z * Z * Z :=
  let '(tn, td) := scale10 num den (n0 - k) in
  let lo := tn / td in
  let hi := lo + 1 in
  let reads (s n : Z) : bool :=
    match literal_double k s (n - k) with
    | Some d => (fst d =? fst target) && (snd d =? snd target)
    | None => false
    end in
  let '(hs, hn) := if hi =? 10 ^ k then (10 ^ (k - 1), n0 + 1) else (hi, n0) in
  let lo_ok := (10 ^ (k - 1) <=? lo) && reads lo n0 in
  let hi_ok := reads hs hn in
  let twice := 2 * (tn - lo * td) in
  let nearer_lo := (twice <? td) || ((twice =? td) && Z.even lo) in
  match fuel with
  | O => (lo, n0, k)
  | S f =>
      if lo_ok && hi_ok then (if nearer_lo then (lo, n0, k) else (hs, hn, k))
      else if lo_ok then (lo, n0, k)
      else if hi_ok then (hs, hn, k)
      else shortest_digits f (k + 1) num den n0 target
  end.

Fixpoint zeros (n : nat) : string :=
  match n with
  | O => EmptyString
  | S k => String "0" (zeros k)
  end.

(** [Number::toString] of the positive double [m * 2^e]: plain digits up to
    10^21, a decimal point down to 10^-6, the exponent form elsewhere. *)
Definition double_text (m e : Z) : string :=
  let '(num, den) := scale2 m 1 (- e) in
  let estimate := (Z.log2 num - Z.log2 den) * 1233 / 4096 in
  let n0 := decimal_exponent 8 num den (estimate - 3) in
  let '(s, n, k) := shortest_digits 17 1 num den n0 (m, e) in
  let ds := Z_toString s in
  if (k <=? n) && (n <=? 21) then ds +:+ zeros (Z.to_nat (n - k))
  else if (0 <? n) && (n <=? 21) then
    String.substring 0 (Z.to_nat n) ds +:+ "."
      +:+ String.substring (Z.to_nat n) (Z.to_nat (k - n)) ds
  else if (-6 <? n) && (n <=? 0) then "0." +:+ zeros (Z.to_nat (- n)) +:+ ds
  else
    let x := n - 1 in
    let exponent := (if x <? 0 then "e-" else "e+") +:+ Z_toString (Z.abs x) in
    if k =? 1 then ds +:+ exponent
    else String.substring 0 1 ds +:+ "."
           +:+ String.substring 1 (Z.to_nat (k - 1)) ds +:+ exponent.

(** The number a double is: a safe integer is [Int] (zero of either sign is
    [Int 0], both are written [0]), any other double is its text. *)
Definition number_of_double (neg : bool) (d : option (Z * Z)) : number :=
  match d with
  | None => Infinity neg
  | Some (m, e) =>
      if m =? 0 then Int 0
      else
        let '(num, den) := scale2 m 1 (- e) in
        if (num mod den =? 0) && (num / den <=? 9007199254740991)
        then Int (if neg then - (num / den) else num / den)
        else Dec ((if neg then "-" else "") +:+ double_text m e)
  end.

(** The number a JSON literal denotes, from its sign, the digits of its
    integer part, the digits of its fraction and its exponent.  An integer
    literal within the safe range denotes itself. *)
Definition number_of_literal (neg : bool) (int_part frac : list ascii)
    (exponent : option Z) : number :=
  let m := digits_value (int_part ++ frac) in
  match frac, exponent with
  | [], None =>
      if m <=? 9007199254740991 then Int (if neg then - m else m)
      else number_of_double neg (literal_double (Z.of_nat (List.length int_part)) m 0)
  | _, _ =>
      number_of_double neg
        (literal_double (Z.of_nat (List.length (int_part ++ frac))) m
           (nullish exponent 0 - Z.of_nat (List.length frac)))
  end.

(** Fraction and exponent of a number whose integer part has been read. *)
Definition parse_number_tail (neg : bool) (int_part : list ascii) (s : list ascii)
    : parsed json :=
  let frac :=
    match s with
    | "."%char :: r =>
        let '(fs, r') := take_digits r in
        match fs with
        | [] => inr r
        | _ => inl (fs, r')
        end
    | _ => inl ([], s)
    end in
  match frac with
  | inr e => inr e
  | inl (fs, s1) =>
      let exp :=
        match s1 with
        | c :: r =>
            if (code c =? 101) || (code c =? 69) then
              let '(negative, r1) :=
                match r with
                | "+"%char :: r' => (false, r')
                | "-"%char :: r' => (true, r')
                | _ => (false, r)
                end in
              let '(es, r2) := take_digits r1 in
              match es with
              | [] => inr r1
              | _ =>
                  let x := digits_value es in
                  inl (Some (if negative then - x else x), r2)
              end
            else inl (None, s1)
        | [] => inl (None, s1)
        end in
      match exp with
      | inr e => inr e
      | inl (exponent, s2) => inl (JNum (number_of_literal neg int_part fs exponent), s2)
      end
  end.

Definition parse_number (s : list ascii) : parsed json :=
  let '(neg, s1) :=
    match s with
    | "-"%char :: r => (true, r)
    | _ => (false, s)
    end in
  match s1 with
  | "0"%char :: r => parse_number_tail neg ["0"%char] r
  | c :: _ =>
      if is_digit c then
        let '(ds, rest) := take_digits s1 in parse_number_tail neg ds rest
      else inr s1
  | [] => inr []
  end.

Definition hex_value (c : ascii) : option Z := digit_value 16 c.

(** A string is read into units: a byte of the text as it stands, or the
    UTF-16 code unit of a [\uXXXX] escape. *)
Fixpoint parse_string (s : list ascii) (acc : list (ascii + Z)) : parsed (list (ascii + Z)) :=
  match s with
  | [] => inr []
  | c :: r =>
      if code c =? 34 then inl (rev acc, r)
      else if code c =? 92 then
        match r with
        | [] => inr []
        | e :: r' =>
            let n := code e in
            if (n =? 34) || (n =? 92) || (n =? 47) then parse_string r' (inl e :: acc)
            else if n =? 98 then parse_string r' (inl (ascii_of_nat 8) :: acc)
            else if n =? 102 then parse_string r' (inl (ascii_of_nat 12) :: acc)
            else if n =? 110 then parse_string r' (inl (ascii_of_nat 10) :: acc)
            else if n =? 114 then parse_string r' (inl (ascii_of_nat 13) :: acc)
            else if n =? 116 then parse_string r' (inl (ascii_of_nat 9) :: acc)
            else if n =? 117 then
              match r' with
              | h1 :: h2 :: h3 :: h4 :: r'' =>
                  match hex_value h1, hex_value h2, hex_value h3, hex_value h4 with
                  | Some a, Some b, Some c', Some d =>
                      parse_string r'' (inr (((a * 16 + b) * 16 + c') * 16 + d) :: acc)
                  | _, _, _, _ => inr r'
                  end
              | _ => inr r'
              end
            else inr r
        end
      else if code c <? 32 then inr s
      else parse_string r (inl c :: acc)
  end.

(** The units as a string: a surrogate pair is one code point, on four
    bytes; any other unit, a surrogate without a partner too, takes the bytes
    of its own code. *)
Fixpoint encode_units (us : list (ascii + Z)) : list ascii :=
  match us with
  | [] => []
  | inl c :: r => c :: encode_units r
  | inr hi :: r =>
      if is_high_surrogate hi then
        match r with
        | inr lo :: r' =>
            if is_low_surrogate lo then
              utf8_encode (65536 + (hi - 55296) * 1024 + (lo - 56320)) ++ encode_units r'
            else utf8_encode hi ++ encode_units r
        | _ => utf8_encode hi ++ encode_units r
        end
      else utf8_encode hi ++ encode_units r
  end.

Definition parse_string_value (s : list ascii) : parsed string :=
  match parse_string s [] with
  | inl (us, r) => inl (string_of_list_ascii (encode_units us), r)
  | inr e => inr e
  end.

(** Property order of an ordinary object: array indices first, ascending,
    then the other keys in the order they were first set. *)
Definition array_index (k : string) : option Z :=
  match digits_prefix 10 k None with
  | Some n => if String.eqb (Z_toString n) k && (n <? 4294967295) then Some n else None
  | None => None
  end.

Fixpoint set_property (k : string) (v : json) (fields : list (string * json))
    : list (string * json) :=
  match fields with
  | [] => [(k, v)]
  | (k', v') :: rest =>
      if String.eqb k k' then (k, v) :: rest
      else
        match array_index k, array_index k' with
        | Some n, Some n' =>
            if n <? n' then (k, v) :: fields else (k', v') :: set_property k v rest
        | Some _, None => (k, v) :: fields
        | None, _ => (k', v') :: set_property k v rest
        end
  end.

(** A literal name; a failure points at the first byte that differs. *)
Fixpoint starts_with (lit s : list ascii) : parsed unit :=
  match lit, s with
  | [], _ => inl (tt, s)
  | c :: lit', d :: s' => if Ascii.eqb c d then starts_with lit' s' else inr s
  | _ :: _, [] => inr []
  end.

Definition literal (lit : string) (v : json) (s : list ascii) : parsed json :=
  match starts_with (list_ascii_of_string lit) s with
  | inl (_, r) => inl (v, r)
  | inr e => inr e
  end.

Fixpoint parse_value (fuel : nat) (s : list ascii) : parsed json :=
  match fuel with
  | O => inr s
  | S k =>
      match skip_ws s with
      | [] => inr []
      | (c :: r) as s0 =>
          let n := code c in
          if n =? 123 then
            match skip_ws r with
            | "}"%char :: r' => inl (JObj [], r')
            | r' => parse_members k r' []
            end
          else if n =? 91 then
            match skip_ws r with
            | "]"%char :: r' => inl (JArr [], r')
            | r' => parse_elements k r' []
            end
          else if n =? 34 then
            match parse_string_value r with
            | inl (str, r') => inl (JStr str, r')
            | inr e => inr e
            end
          else if n =? 116 then literal "true" (JBool true) s0
          else if n =? 102 then literal "false" (JBool false) s0
          else if n =? 110 then literal "null" JNull s0
          else parse_number s0
      end
  end
with parse_elements (fuel : nat) (s : list ascii) (acc : list json) : parsed json :=
  match fuel with
  | O => inr s
  | S k =>
      match parse_value k s with
      | inr e => inr e
      | inl (v, r) =>
          match skip_ws r with
          | ","%char :: r' => parse_elements k r' (v :: acc)
          | "]"%char :: r' => inl (JArr (rev (v :: acc)), r')
          | r' => inr r'
          end
      end
  end
with parse_members (fuel : nat) (s : list ascii) (acc : list (string * json)) : parsed json :=
  match fuel with
  | O => inr s
  | S k =>
      match skip_ws s with
      | c :: r =>
          if code c =? 34 then
            match parse_string_value r with
            | inr e => inr e
            | inl (key, r1) =>
                match skip_ws r1 with
                | ":"%char :: r2 =>
                    match parse_value k r2 with
                    | inr e => inr e
                    | inl (v, r3) =>
                        let acc' := set_property key v acc in
                        match skip_ws r3 with
                        | ","%char :: r4 => parse_members k r4 acc'
                        | "}"%char :: r4 => inl (JObj acc', r4)
                        | r4 => inr r4
                        end
                    end
                | r2 => inr r2
                end
            end
          else inr (c :: r)
      | [] => inr []
      end
  end.

Definition syntax_error (s : string) (rest : list ascii) : exn :=
  match rest with
  | [] => SyntaxError "Unexpected end of JSON input"
  | c :: _ =>
      SyntaxError ("Unexpected token " +:+ String c " in JSON at position "
                   +:+ Z_toString (Z.of_nat (String.length s - List.length rest)))
  end.

(** [JSON.parse(text)]: the value, or the [SyntaxError] it throws.  Every
    recursive call of the reader follows at least one consumed byte, so twice
    the length of the text is fuel enough. *)
Definition JSON_parse (s : string) : json + exn :=
  let cs := list_ascii_of_string s in
  match parse_value (2 * List.length cs + 2) cs with
  | inr rest => inr (syntax_error s rest)
  | inl (v, rest) =>
      match skip_ws rest with
      | [] => inl v
      | rest' => inr (syntax_error s rest')
      end
  end.

End JS.

(** ** Effects

    A handler reads the clock, posts requests and may throw.  The [world]
    is what one invocation of a handler runs in: the clock at that
    invocation, what the remote service answers to a request during it, and
    the requests sent so far, oldest first.  A handler reads the clock at most
    once and posts at most once, so within an invocation the clock stands
    still and the service is a function of the request; what the clock and
    the service do between two invocations is not described. *)

Module Effect.
Import JS.

Record request := {
  method : string;
  url : string;
  data : string;
  headers : list (string * string)
}.

(** [remote] is the answer axios resolves with ([inl]: the decoded body of a
    2xx response) or the message of the [AxiosError] it rejects with ([inr]:
    no response, or a status outside 2xx). *)
Record world := {
  now : Z;
  remote : request -> json + string;
  posted : list request
}.

Inductive outcome (A : Type) :=
| Returned (a : A)
| Thrown (e : exn).
Arguments Returned {A} a.
Arguments Thrown {A} e.

Definition Eff (A : Type) : Type := world -> outcome A * world.

Definition ret {A : Type} (a : A) : Eff A := fun w => (Returned a, w).

Definition throw {A : Type} (e : exn) : Eff A := fun w => (Thrown e, w).

Definition bind {A B : Type} (m : Eff A) (k : A -> Eff B) : Eff B :=
  fun w =>
    match m w with
    | (Returned a, w') => k a w'
    | (Thrown e, w') => (Thrown e, w')
    end.

(** [try { body } catch (e) { handler }] *)
Definition try_catch {A : Type} (body : Eff A) (handler : exn -> Eff A) : Eff A :=
  fun w =>
    match body w with
    | (Returned a, w') => (Returned a, w')
    | (Thrown e, w') => handler e w'
    end.

Definition of_result {A : Type} (r : A + exn) : Eff A :=
  match r with
  | inl a => ret a
  | inr e => throw e
  end.

(** [Date.now()] *)
Definition Date_now : Eff Z := fun w => (Returned (now w), w).

Definition send (r : request) (w : world) : world :=
  {| now := now w; remote := remote w; posted := posted w ++ [r] |}.

(** [(await axios.post(url, data, { headers })).data] *)
Definition axios_post (url : string) (data : string) (headers : list (string * string))
    : Eff json :=
  fun w =>
    let r := {| method := "POST"; url := url; data := data; headers := headers |} in
    match remote w r with
    | inl body => (Returned body, send r w)
    | inr msg => (Thrown (AxiosError msg), send r w)
    end.

End Effect.

Notation "'let*' x ':=' m 'in' k" := (Effect.bind m (fun x => k))
  (at level 10, x name, m at level 100, k at level 200, only parsing).

(** ** zod: the parameter schemas (zod 4)

    A schema reads the value found under a key, [None] when the key is
    absent ([undefined]), and answers the validated value or fails. *)

Module Zod.
Import JS.

Definition schema (A : Type) : Type := option json -> option A.

Definition z_string : schema string :=
  fun v => match v with
           | Some (JStr s) => Some s
           | _ => None
           end.

(** [z.number()] takes the finite numbers: neither NaN nor an infinity. *)
Definition z_number : schema number :=
  fun v => match v with
           | Some (JNum n) => if is_finite n then Some n else None
           | _ => None
           end.

Definition z_boolean : schema bool :=
  fun v => match v with
           | Some (JBool b) => Some b
           | _ => None
           end.

Definition z_enum (values : list string) : schema string :=
  fun v => match v with
           | Some (JStr s) => if existsb (String.eqb s) values then Some s else None
           | _ => None
           end.

Definition check {A : Type} (p : A -> bool) (s : schema A) : schema A :=
  fun v => match s v with
           | Some a => if p a then Some a else None
           | None => None
           end.

(** [.int()] takes the safe integers, [Number.isSafeInteger]. *)
Definition is_integer (n : number) : bool :=
  match n with
  | Int z => Z.abs z <=? 9007199254740991
  | _ => false
  end.

Definition is_positive (n : number) : bool :=
  match n with
  | Int z => 0 <? z
  | Dec text => negb (String.prefix "-" text)
  | NaN => false
  | Infinity negative => negb negative
  end.

Definition z_int : schema number -> schema number := check is_integer.
Definition z_positive : schema number -> schema number := check is_positive.

Definition z_optional {A : Type} (s : schema A) : schema (option A) :=
  fun v => match v with
           | None => Some None
           | Some _ => option_map Some (s v)
           end.

Definition z_nullable {A : Type} (s : schema A) : schema (option A) :=
  fun v => match v with
           | Some JNull => Some None
           | _ => option_map Some (s v)
           end.

Definition z_default {A : Type} (d : A) (s : schema A) : schema A :=
  fun v => match v with
           | None => Some d
           | Some _ => s v
           end.

(** The value under a key of the arguments object. *)
Fixpoint property (k : string) (fields : list (string * json)) : option json :=
  match fields with
  | [] => None
  | (k', v) :: rest => if String.eqb k k' then Some v else property k rest
  end.

Definition field {A : Type} (fields : list (string * json)) (k : string) (s : schema A)
    : option A :=
  s (property k fields).

End Zod.

(** ** The server: configuration and API client *)

Module Server.
Import JS Effect.

Record config := {
  PUBLIC_KEY : string;
  PRIVATE_KEY : string;
  API_BASE : string
}.

(** The three constants read from [process.env] when the module loads. *)
Definition configure (env : gmap string string) : config :=
  {| PUBLIC_KEY := nullish (env !! "TRADERNET_PUBLIC_KEY") "";
     PRIVATE_KEY := nullish (env !! "TRADERNET_PRIVATE_KEY") "";
     API_BASE := nullish (env !! "TRADERNET_API_URL") "https://tradernet.com/api" |}.

Definition generateSignature (cfg : config) (data : string) : string :=
  Crypto.hex (Crypto.hmac_sha256 (bytes_of_string (PRIVATE_KEY cfg)) (bytes_of_string data)).

(** Every caller passes [params], so its default [{}] is never taken. *)
Definition callApi (cfg : config) (command : string) (params : json) : Eff json :=
  if negb (truthy (PUBLIC_KEY cfg)) || negb (truthy (PRIVATE_KEY cfg)) then
    throw (Error
      "TRADERNET_PUBLIC_KEY and TRADERNET_PRIVATE_KEY environment variables are required")
  else
    let* t := Date_now in
    let timeStamp := Number_toString (Int (floor_div t 1000)) in
    let payload := JSON_stringify params in
    let headers :=
      [ ("Content-Type", "application/json");
        ("X-NtApi-PublicKey", PUBLIC_KEY cfg);
        ("X-NtApi-Timestamp", timeStamp);
        ("X-NtApi-Sig", generateSignature cfg (payload +:+ timeStamp)) ] in
    let* response := axios_post (API_BASE cfg +:+ "/" +:+ command) payload headers in
    ret response.

Definition formatResult (data : json) : string := JSON_stringify_gap "" data.

(** The response envelope; [isError] is absent ([None]) on success. *)
Record content_item := {
  type : string;
  text : string
}.

Record envelope := {
  content : list content_item;
  isError : option bool
}.

(** A registered tool: [server.tool(name, description, shape, callback)]. *)
Record tool := {
  name : string;
  description : string;
  Args : Type;
  inputSchema : json -> option Args;
  callback : Args -> Eff envelope
}.

End Server.

(** ** The tools

    One module per [server.tool(...)] call of [registerTools]: the validated
    arguments the callback destructures, the zod shape, and the callback. *)

Module get_user_data.
Import JS Effect Zod Server.

Definition schema (input : json) : option unit :=
  match input with
  | JObj _ => Some tt
  | _ => None
  end.

Definition handler (cfg : config) (_ : unit) : Eff envelope :=
  try_catch
    (let* data := callApi cfg "getOPQ" (JObj []) in
     ret {| content := [{| type := "text"; text := formatResult data |}];
            isError := None |})
    (fun e =>
     ret {| content := [{| type := "text"; text := "Error: " +:+ message e |}];
            isError := Some true |}).

End get_user_data.

Module get_portfolio.
Import JS Effect Zod Server.

Definition schema (input : json) : option unit :=
  match input with
  | JObj _ => Some tt
  | _ => None
  end.

Definition handler (cfg : config) (_ : unit) : Eff envelope :=
  try_catch
    (let* data := callApi cfg "getPositionJson" (JObj []) in
     ret {| content := [{| type := "text"; text := formatResult data |}];
            isError := None |})
    (fun e =>
     ret {| content := [{| type := "text"; text := "Error: " +:+ message e |}];
            isError := Some true |}).

End get_portfolio.

Module place_order.
Import JS Effect Zod Server.

Record args := {
  instrument : string;
  action : string;
  order_type : string;
  quantity : number;
  limit_price : option number;
  stop_price : option number;
  expiration : string
}.

Definition schema (input : json) : option args :=
  match input with
  | JObj o =>
      instrument ← field o "instrument" z_string;
      action ← field o "action" (z_enum ["buy"; "buy_margin"; "sell"; "sell_short"]);
      order_type ← field o "order_type" (z_enum ["market"; "limit"; "stop"; "stop_limit"]);
      quantity ← field o "quantity" (z_positive (z_int z_number));
      limit_price ← field o "limit_price" (z_optional z_number);
      stop_price ← field o "stop_price" (z_optional z_number);
      expiration ← field o "expiration" (z_default "day" (z_enum ["day"; "day_ext"; "gtc"]));
      Some {| instrument := instrument; action := action; order_type := order_type;
              quantity := quantity; limit_price := limit_price;
              stop_price := stop_price; expiration := expiration |}
  | _ => None
  end.

Definition actionMap : gmap string Z :=
  list_to_map [("buy", 1); ("buy_margin", 2); ("sell", 3); ("sell_short", 4)].
Definition typeMap : gmap string Z :=
  list_to_map [("market", 1); ("limit", 2); ("stop", 3); ("stop_limit", 4)].
Definition expMap : gmap string Z :=
  list_to_map [("day", 1); ("day_ext", 2); ("gtc", 3)].

(** [map[key]] as a property value: [undefined] when the key is not there. *)
Definition code_of (m : gmap string Z) (key : string) : option json :=
  option_map (fun z => JNum (Int z)) (m !! key).

Definition handler (cfg : config) (a : args) : Eff envelope :=
  try_catch
    (let* data := callApi cfg "putTradeOrder"
       (object_literal
          [ ("instr_name", Some (JStr (instrument a)));
            ("action_id", code_of actionMap (action a));
            ("order_type_id", code_of typeMap (order_type a));
            ("qty", Some (JNum (quantity a)));
            ("limit_price", Some (JNum (nullish (limit_price a) (Int 0))));
            ("stop_price", Some (JNum (nullish (stop_price a) (Int 0))));
            ("expiration_id", code_of expMap (expiration a)) ]) in
     ret {| content := [{| type := "text"; text := formatResult data |}];
            isError := None |})
    (fun e =>
     ret {| content := [{| type := "text"; text := "Error: " +:+ message e |}];
            isError := Some true |}).

End place_order.

Module cancel_order.
Import JS Effect Zod Server.

Record args := { order_id : number }.

Definition schema (input : json) : option args :=
  match input with
  | JObj o =>
      order_id ← field o "order_id" z_number;
      Some {| order_id := order_id |}
  | _ => None
  end.

Definition handler (cfg : config) (a : args) : Eff envelope :=
  try_catch
    (let* data := callApi cfg "delTradeOrder" (JObj [("order_id", JNum (order_id a))]) in
     ret {| content := [{| type := "text"; text := formatResult data |}];
            isError := None |})
    (fun e =>
     ret {| content := [{| type := "text"; text := "Error: " +:+ message e |}];
            isError := Some true |}).

End cancel_order.

Module set_stop_loss_take_profit.
Import JS Effect Zod Server.

(** A nullable number is [None] for [null]; the optional one is [None] when
    absent. *)
Record args := {
  instrument : string;
  stop_loss : option number;
  take_profit : option number;
  trailing_stop_percent : option (option number)
}.

Definition schema (input : json) : option args :=
  match input with
  | JObj o =>
      instrument ← field o "instrument" z_string;
      stop_loss ← field o "stop_loss" (z_nullable z_number);
      take_profit ← field o "take_profit" (z_nullable z_number);
      trailing_stop_percent ←
        field o "trailing_stop_percent" (z_optional (z_nullable z_number));
      Some {| instrument := instrument; stop_loss := stop_loss;
              take_profit := take_profit;
              trailing_stop_percent := trailing_stop_percent |}
  | _ => None
  end.

Definition number_or_null (n : option number) : json :=
  match n with
  | Some x => JNum x
  | None => JNull
  end.

Definition handler (cfg : config) (a : args) : Eff envelope :=
  try_catch
    (let* data := callApi cfg "putStopLoss"
       (JObj [ ("instr_name", JStr (instrument a));
               ("stop_loss", number_or_null (stop_loss a));
               ("take_profit", number_or_null (take_profit a));
               ("stoploss_trailing_percent",
                number_or_null (nullish (trailing_stop_percent a) None)) ]) in
     ret {| content := [{| type := "text"; text := formatResult data |}];
            isError := None |})
    (fun e =>
     ret {| content := [{| type := "text"; text := "Error: " +:+ message e |}];
            isError := Some true |}).

End set_stop_loss_take_profit.

Module get_security_info.
Import JS Effect Zod Server.

Record args := { ticker : string }.

Definition schema (input : json) : option args :=
  match input with
  | JObj o =>
      ticker ← field o "ticker" z_string;
      Some {| ticker := ticker |}
  | _ => None
  end.

Definition handler (cfg : config) (a : args) : Eff envelope :=
  try_catch
    (let* data := callApi cfg "getSecurityInfo"
       (JObj [("ticker", JStr (ticker a)); ("sup", JBool true)]) in
     ret {| content := [{| type := "text"; text := formatResult data |}];
            isError := None |})
    (fun e =>
     ret {| content := [{| type := "text"; text := "Error: " +:+ message e |}];
            isError := Some true |}).

End get_security_info.

Module get_quotes_history.
Import JS Effect Zod Server.

Record args := {
  ticker : string;
  timeframe : string;
  date_from : string;
  date_to : string;
  count : number
}.

Definition schema (input : json) : option args :=
  match input with
  | JObj o =>
      ticker ← field o "ticker" z_string;
      timeframe ← field o "timeframe" (z_enum ["1"; "5"; "15"; "60"; "1440"]);
      date_from ← field o "date_from" z_string;
      date_to ← field o "date_to" z_string;
      count ← field o "count" (z_default (Int 0) (z_int z_number));
      Some {| ticker := ticker; timeframe := timeframe; date_from := date_from;
              date_to := date_to; count := count |}
  | _ => None
  end.

Definition handler (cfg : config) (a : args) : Eff envelope :=
  try_catch
    (let* data := callApi cfg "getHloc"
       (JObj [ ("id", JStr (ticker a));
               ("timeframe", JNum (parseInt (timeframe a)));
               ("date_from", JStr (date_from a));
               ("date_to", JStr (date_to a));
               ("count", JNum (count a));
               ("intervalMode", JStr "ClosedRay") ]) in
     ret {| content := [{| type := "text"; text := formatResult data |}];
            isError := None |})
    (fun e =>
     ret {| content := [{| type := "text"; text := "Error: " +:+ message e |}];
            isError := Some true |}).

End get_quotes_history.

Module search_tickers.
Import JS Effect Zod Server.

Record args := { query : string }.

Definition schema (input : json) : option args :=
  match input with
  | JObj o =>
      query ← field o "query" z_string;
      Some {| query := query |}
  | _ => None
  end.

Definition handler (cfg : config) (a : args) : Eff envelope :=
  try_catch
    (let* data := callApi cfg "tickerFinder" (JObj [("text", JStr (query a))]) in
     ret {| content := [{| type := "text"; text := formatResult data |}];
            isError := None |})
    (fun e =>
     ret {| content := [{| type := "text"; text := "Error: " +:+ message e |}];
            isError := Some true |}).

End search_tickers.

Module add_price_alert.
Import JS Effect Zod Server.

Record args := {
  ticker : string;
  price : string;
  trigger_type : string;
  quote_type : string;
  notification_type : string;
  alert_period : string
}.

Definition schema (input : json) : option args :=
  match input with
  | JObj o =>
      ticker ← field o "ticker" z_string;
      price ← field o "price" z_string;
      trigger_type ← field o "trigger_type"
        (z_enum [ "crossing"; "crossing_down"; "crossing_up"; "less_then";
                  "greater_then"; "channel_in"; "channel_out";
                  "moving_down_from_current"; "moving_up_from_current";
                  "moving_down_from_maximum"; "moving_up_from_minimum" ]);
      quote_type ← field o "quote_type"
        (z_default "ltp" (z_enum ["ltp"; "bap"; "bbp"; "op"; "pp"]));
      notification_type ← field o "notification_type"
        (z_default "push" (z_enum ["email"; "sms"; "push"; "all"]));
      alert_period ← field o "alert_period"
        (z_default "0" (z_enum ["0"; "60"; "300"; "900"; "3600"; "86400"]));
      Some {| ticker := ticker; price := price; trigger_type := trigger_type;
              quote_type := quote_type; notification_type := notification_type;
              alert_period := alert_period |}
  | _ => None
  end.

Definition handler (cfg : config) (a : args) : Eff envelope :=
  try_catch
    (let* data := callApi cfg "togglePriceAlert"
       (JObj [ ("ticker", JStr (ticker a));
               ("price", JObj [("price", JStr (price a))]);
               ("trigger_type", JStr (trigger_type a));
               ("quote_type", JStr (quote_type a));
               ("notification_type", JStr (notification_type a));
               ("alert_period", JStr (alert_period a));
               ("expire", JNum (Int 0)) ]) in
     ret {| content := [{| type := "text"; text := formatResult data |}];
            isError := None |})
    (fun e =>
     ret {| content := [{| type := "text"; text := "Error: " +:+ message e |}];
            isError := Some true |}).

End add_price_alert.

Module delete_price_alert.
Import JS Effect Zod Server.

Record args := { alert_id : number }.

Definition schema (input : json) : option args :=
  match input with
  | JObj o =>
      alert_id ← field o "alert_id" z_number;
      Some {| alert_id := alert_id |}
  | _ => None
  end.

Definition handler (cfg : config) (a : args) : Eff envelope :=
  try_catch
    (let* data := callApi cfg "togglePriceAlert"
       (JObj [ ("id", JNum (alert_id a));
               ("del", JBool true);
               ("quote_type", JStr "ltp");
               ("notification_type", JStr "email") ]) in
     ret {| content := [{| type := "text"; text := formatResult data |}];
            isError := None |})
    (fun e =>
     ret {| content := [{| type := "text"; text := "Error: " +:+ message e |}];
            isError := Some true |}).

End delete_price_alert.

Module get_security_sessions.
Import JS Effect Zod Server.

Definition schema (input : json) : option unit :=
  match input with
  | JObj _ => Some tt
  | _ => None
  end.

Definition handler (cfg : config) (_ : unit) : Eff envelope :=
  try_catch
    (let* data := callApi cfg "getSecuritySessions" (JObj []) in
     ret {| content := [{| type := "text"; text := formatResult data |}];
            isError := None |})
    (fun e =>
     ret {| content := [{| type := "text"; text := "Error: " +:+ message e |}];
            isError := Some true |}).

End get_security_sessions.

Module raw_api_call.
Import JS Effect Zod Server.

Record args := {
  command : string;
  params : string;
  use_v2 : bool
}.

Definition schema (input : json) : option args :=
  match input with
  | JObj o =>
      command ← field o "command" z_string;
      params ← field o "params" (z_default "{}" z_string);
      use_v2 ← field o "use_v2" (z_default false z_boolean);
      Some {| command := command; params := params; use_v2 := use_v2 |}
  | _ => None
  end.

Definition handler (cfg : config) (a : args) : Eff envelope :=
  try_catch
    (let* parsed := of_result (JSON_parse (params a)) in
     let* data :=
       (if use_v2 a
        then callApi cfg (command a) parsed
        else callApi cfg (command a) parsed) in
     ret {| content := [{| type := "text"; text := formatResult data |}];
            isError := None |})
    (fun e =>
     ret {| content := [{| type := "text"; text := "Error: " +:+ message e |}];
            isError := Some true |}).

End raw_api_call.

(** ** The registry *)

Module Registry.
Import JS Effect Server.

Record McpServer := {
  server_name : string;
  version : string;
  tools : list tool
}.

(** [server.tool(...)]: the tool joins the ones registered before it. *)
Definition server_tool (server : McpServer) (t : tool) : McpServer :=
  {| server_name := server_name server;
     version := version server;
     tools := tools server ++ [t] |}.

Definition registerTools (cfg : config) (server : McpServer) : McpServer :=
  let server := server_tool server
    {| name := "get_user_data";
       description := "Get initial user data (account info, portfolio summary, open positions). This is the primary command to check your account status.";
       inputSchema := get_user_data.schema;
       callback := get_user_data.handler cfg |} in
  let server := server_tool server
    {| name := "get_portfolio";
       description := "Get current portfolio positions and account balances. Returns account funds, open positions with P&L, market values, and settlement info.";
       inputSchema := get_portfolio.schema;
       callback := get_portfolio.handler cfg |} in
  let server := server_tool server
    {| name := "place_order";
       description := "Place a new trading order (buy, sell, short, margin). Returns order_id on success.";
       inputSchema := place_order.schema;
       callback := place_order.handler cfg |} in
  let server := server_tool server
    {| name := "cancel_order";
       description := "Cancel an active order by its ID";
       inputSchema := cancel_order.schema;
       callback := cancel_order.handler cfg |} in
  let server := server_tool server
    {| name := "set_stop_loss_take_profit";
       description := "Set stop-loss and/or take-profit for a position. Pass null to leave unchanged.";
       inputSchema := set_stop_loss_take_profit.schema;
       callback := set_stop_loss_take_profit.handler cfg |} in
  let server := server_tool server
    {| name := "get_security_info";
       description := "Get detailed information about a security/ticker (name, currency, exchange, min step, etc.)";
       inputSchema := get_security_info.schema;
       callback := get_security_info.handler cfg |} in
  let server := server_tool server
    {| name := "get_quotes_history";
       description := "Get historical candlestick (OHLCV) data for a ticker. Returns arrays of high/low/open/close prices with timestamps.";
       inputSchema := get_quotes_history.schema;
       callback := get_quotes_history.handler cfg |} in
  let server := server_tool server
    {| name := "search_tickers";
       description := "Search for securities/tickers by name or symbol. Supports market filter with @ syntax, e.g. "
                      +:+ dquote +:+ "AAPL@FIX" +:+ dquote +:+ " for NYSE/NASDAQ.";
       inputSchema := search_tickers.schema;
       callback := search_tickers.handler cfg |} in
  let server := server_tool server
    {| name := "add_price_alert";
       description := "Set a price alert for a ticker. You'll be notified when the price condition is met.";
       inputSchema := add_price_alert.schema;
       callback := add_price_alert.handler cfg |} in
  let server := server_tool server
    {| name := "delete_price_alert";
       description := "Delete an existing price alert by its ID";
       inputSchema := delete_price_alert.schema;
       callback := delete_price_alert.handler cfg |} in
  let server := server_tool server
    {| name := "get_security_sessions";
       description := "Get list of currently open security sessions (for two-factor authentication operations)";
       inputSchema := get_security_sessions.schema;
       callback := get_security_sessions.handler cfg |} in
  let server := server_tool server
    {| name := "raw_api_call";
       description := "Make a raw API call to any Tradernet command. Use this for commands not covered by other tools.";
       inputSchema := raw_api_call.schema;
       callback := raw_api_call.handler cfg |} in
  server.

Definition createServer (cfg : config) : McpServer :=
  let server := {| server_name := "tradernet"; version := "1.0.0"; tools := [] |} in
  registerTools cfg server.

End Registry.

(** ** Vocabulary of the specification

    The two envelope shapes of the specification, the request it describes,
    and the uniform handler contract, written from the specification's words
    to be compared with the code above. *)

Module Contract.
Import JS Effect Server.

Definition success (data : json) : envelope :=
  {| content := [{| type := "text"; text := formatResult data |}]; isError := None |}.

Definition failure (msg : string) : envelope :=
  {| content := [{| type := "text"; text := "Error: " +:+ msg |}]; isError := Some true |}.

Definition config_message : string :=
  "TRADERNET_PUBLIC_KEY and TRADERNET_PRIVATE_KEY environment variables are required".

(** The POST the specification describes for a command and its parameters,
    at clock [t] (milliseconds). *)
Definition signed_request (cfg : config) (t : Z) (command : string) (params : json)
    : request :=
  let timestamp := Z_toString (t / 1000) in
  let body := JSON_stringify params in
  {| method := "POST";
     url := API_BASE cfg +:+ "/" +:+ command;
     data := body;
     headers :=
       [ ("Content-Type", "application/json");
         ("X-NtApi-PublicKey", PUBLIC_KEY cfg);
         ("X-NtApi-Timestamp", timestamp);
         ("X-NtApi-Sig",
          Crypto.hex (Crypto.hmac_sha256 (bytes_of_string (PRIVATE_KEY cfg))
                        (bytes_of_string (body +:+ timestamp)))) ] |}.

(** "Invoke the API client; on success wrap the formatted result; on any
    raised failure wrap the failure's message." *)
Definition respond (cfg : config) (command : string) (params : json) : Eff envelope :=
  try_catch
    (let* data := callApi cfg command params in ret (success data))
    (fun e => ret (failure (message e))).

(** [text.includes(word)] *)
Fixpoint includes (word text : string) : bool :=
  String.prefix word text ||
  match text with
  | EmptyString => false
  | String _ rest => includes word rest
  end.

(** A text made of decimal digits only. *)
Fixpoint digits_only (s : string) : Prop :=
  match s with
  | EmptyString => True
  | String c r => (exists d, 0 <= d < 10 /\ c = digit_char d) /\ digits_only r
  end.

(** A text written with ['] where the JSON has a double quote. *)
Definition json_text (s : string) : string :=
  string_of_list_ascii
    (map (fun c => if Ascii.eqb c "'" then ascii_of_nat 34 else c) (list_ascii_of_string s)).

End Contract.

(** ** A concrete deployment, for examples

    Both credentials set, the default base URL, a clock in November 2024 and
    a remote service that answers every request with [{ "ok": true }]. *)

Module Scenario.
Import JS Effect Server.

Definition env : gmap string string :=
  list_to_map [("TRADERNET_PUBLIC_KEY", "pub-1"); ("TRADERNET_PRIVATE_KEY", "secret-1")].

Definition cfg : config := configure env.

Definition world0 : world :=
  {| now := 1730000000123;
     remote := fun _ => inl (JObj [("ok", JBool true)]);
     posted := [] |}.

(** The same service when it refuses every request. *)
Definition world_down : world :=
  {| now := 1730000000123;
     remote := fun _ => inr "Request failed with status code 503";
     posted := [] |}.

End Scenario.

(** ** Vocabulary of the further properties

    Predicates on texts and values used to state what the reader of JSON texts
    gives back and what a signature looks like. *)

Module Reading.
Import JS.

(** A lower-case hexadecimal digit. *)
Definition is_lower_hex (c : ascii) : bool :=
  let n := code c in
  ((48 <=? n) && (n <=? 57)) || ((97 <=? n) && (n <=? 102)).

(** The unit the reader makes of a byte that [escape] wrote. *)
Definition unit_of (c : ascii) : ascii + Z :=
  let n := code c in
  if (n <? 32) && negb ((n =? 8) || (n =? 9) || (n =? 10) || (n =? 12) || (n =? 13))
  then inr n else inl c.

(** The units the reader makes of an item that [escape] wrote, and the
    bytes the item takes in the string. *)
Definition item_units (i : item) : list (ascii + Z) :=
  match i with
  | Byte c => [unit_of c]
  | Lone u => [inr u]
  | Pair hi lo => map inl (utf8_encode hi ++ utf8_encode lo)
  end.

Definition item_bytes (i : item) : list ascii :=
  match i with
  | Byte c => [c]
  | Lone u => utf8_encode u
  | Pair hi lo => utf8_encode hi ++ utf8_encode lo
  end.

(** A code unit that three bytes hold as a surrogate, and an item as
    [head_item] makes them. *)
Definition held (u : Z) : Prop := exists c c2 c3, surrogate c c2 c3 = Some u.

Definition item_ok (i : item) : Prop :=
  match i with
  | Byte _ => True
  | Lone u => held u
  | Pair hi lo => held hi /\ held lo
  end.

(** What may follow a value inside a text: nothing, or one of [,], []] and
    [}]. *)
Definition delimited (rest : list ascii) : bool :=
  match rest with
  | [] => true
  | c :: _ => (code c =? 44) || (code c =? 93) || (code c =? 125)
  end.

(** A text that starts a value: not white space, not a closing bracket. *)
Definition value_start (s : list ascii) : bool :=
  match s with
  | c :: _ =>
      negb (is_ws c) && negb (code c =? 93) && negb (code c =? 125)
  | [] => false
  end.

(** A key can be set after [keys] and land at the end. *)
Definition can_append (k : string) (keys : list string) : bool :=
  forallb (fun k' =>
             negb (String.eqb k k') &&
             match array_index k, array_index k' with
             | Some n, Some n' => negb (n <? n')
             | Some _, None => false
             | None, _ => true
             end) keys.

Fixpoint ordered_from (seen keys : list string) : bool :=
  match keys with
  | [] => true
  | k :: rest => can_append k seen && ordered_from (seen ++ [k]) rest
  end.

(** Values whose compact text reads back as the value: the numbers are safe
    integers, and in every object the keys are distinct and in the order of
    an object's properties. *)
Fixpoint canonical (v : json) : bool :=
  match v with
  | JNum (Int z) => Z.abs z <=? 9007199254740991
  | JNum _ => false
  | JArr items => forallb canonical items
  | JObj fields =>
      ordered_from [] (map fst fields) && forallb (fun kv => canonical (snd kv)) fields
  | _ => true
  end.

(** The text of one property of an object. *)
Definition member (kv : string * json) : string :=
  quote (fst kv) +:+ ":" +:+ JSON_stringify (snd kv).

(** The statement proved by induction on the value. *)
Definition reads_back (v : json) : Prop :=
  canonical v = true ->
  forall (fuel : nat) (rest : list ascii),
    (2 * String.length (JSON_stringify v) <= fuel)%nat ->
    delimited rest = true ->
    parse_value fuel (list_ascii_of_string (JSON_stringify v) ++ rest) = inl (v, rest).

End Reading.

(** ** Further example values *)

Module Examples.
Import JS Effect Server.

Definition cancel_order_tool : tool :=
  {| name := "cancel_order";
     description := "Cancel an active order by its ID";
     inputSchema := cancel_order.schema;
     callback := cancel_order.handler Scenario.cfg |}.

(** The example world 876 milliseconds later, within the same second. *)
Definition world_later : world :=
  {| now := 1730000000999;
     remote := remote Scenario.world0;
     posted := [] |}.

(** The example environment with the base URL set to the empty string. *)
Definition env_empty_url : gmap string string :=
  <[ "TRADERNET_API_URL" := "" ]> Scenario.env.

(** A query with a double quote and a backslash in it. *)
Definition awkward_query : string :=
  "AAPL" +:+ dquote +:+ "@FIX\".

(** A value with an index key, nesting, a negative integer and text that
    needs escaping. *)
Definition sample_value : json :=
  JObj [ ("2", JArr [JNum (Int (-7)); JNull; JArr []]);
         ("a b", JStr awkward_query);
         ("z", JObj [("ok", JBool true)]) ].

End Examples.

(** * Properties *)

Import JS Effect Zod Server Registry Contract.

(** ** The built-ins against reference values *)

Example sha256_abc :
  Crypto.hex (Crypto.sha256 (bytes_of_string "abc"))
  = "ba7816bf8f01cfea414140de5dae2223b00361a396177a9cb410ff61f20015ad".
Proof. vm_compute. reflexivity. Qed.

Example sha256_empty :
  Crypto.hex (Crypto.sha256 [])
  = "e3b0c44298fc1c149afbf4c8996fb92427ae41e4649b934ca495991b7852b855".
Proof. vm_compute. reflexivity. Qed.

(** RFC 4231, test case 2. *)
Example hmac_rfc4231_case2 :
  Crypto.hex (Crypto.hmac_sha256 (bytes_of_string "Jefe")
                (bytes_of_string "what do ya want for nothing?"))
  = "5bdcc146bf60754e6a042426089575c75a003f089d2739839dec58b964ec3843".
Proof. vm_compute. reflexivity. Qed.

(** A key longer than the block is hashed first. *)
Example hmac_long_key :
  Crypto.hex (Crypto.hmac_sha256 (repeat 107 100) (repeat 109 70))
  = "1afaa5920290e5463088d0769a699000d14311cf16773ae58504364b37cc45c0".
Proof. vm_compute. reflexivity. Qed.

Example stringify_nested :
  JSON_stringify (JObj [("a", JNum (Int 1)); ("b", JArr [JStr "x"; JNull; JBool true])])
  = json_text "{'a':1,'b':['x',null,true]}".
Proof. vm_compute. reflexivity. Qed.

Example stringify_gap_nested :
  JSON_stringify_gap "" (JObj [("a", JNum (Int 1)); ("b", JArr [JNull]); ("c", JObj [])])
  = json_text "{" +:+ newline +:+ json_text "  'a': 1," +:+ newline
    +:+ json_text "  'b': [" +:+ newline +:+ "    null" +:+ newline
    +:+ "  ]," +:+ newline +:+ json_text "  'c': {}" +:+ newline +:+ "}".
Proof. vm_compute. reflexivity. Qed.

Example parse_object :
  JSON_parse (json_text "{'b': [true, -12, 'x'], '2': {}, '1': null}")
  = inl (JObj [ ("1", JNull); ("2", JObj []);
                ("b", JArr [JBool true; JNum (Int (-12)); JStr "x"]) ]).
Proof. vm_compute. reflexivity. Qed.

Example parse_bad_json :
  JSON_parse "{bad json" = inr (SyntaxError "Unexpected token b in JSON at position 1").
Proof. vm_compute. reflexivity. Qed.

(** Nesting and long arrays stay within the reader's fuel. *)
Example parse_nested :
  JSON_parse (json_text "[[[[[[{'a':[1,[2,[3,[4,{'b':{'c':[]}}]]]]}]]]]],0,0,0,0,0,0,0,0]")
  = inl (JArr
           (JArr [JArr [JArr [JArr [JArr [JObj
              [("a", JArr [JNum (Int 1); JArr [JNum (Int 2); JArr [JNum (Int 3);
                 JArr [JNum (Int 4); JObj [("b", JObj [("c", JArr [])])]]]]])]]]]]]
            :: repeat (JNum (Int 0)) 8)).
Proof. vm_compute. reflexivity. Qed.

Example parse_escapes :
  JSON_parse (json_text "'a\u0041\n\u00e9'")
  = inl (JStr ("aA" +:+ newline +:+ String (ascii_of_nat 195) (String (ascii_of_nat 169) ""))).
Proof. vm_compute. reflexivity. Qed.

(** Number literals are read as doubles and written back as
    [Number::toString] writes a double. *)
Example parse_numbers :
  JSON_parse "[1e2, 150.0, 1.50, 9007199254740993, 1e21, 0.1, -2.5E-7, 123456789012345678901, -0, 5e-324, 0.000001, 1e400]"
  = inl (JArr [ JNum (Int 100); JNum (Int 150); JNum (Dec "1.5");
                JNum (Dec "9007199254740992"); JNum (Dec "1e+21"); JNum (Dec "0.1");
                JNum (Dec "-2.5e-7"); JNum (Dec "123456789012345680000");
                JNum (Int 0); JNum (Dec "5e-324"); JNum (Dec "0.000001");
                JNum (Infinity false) ]).
Proof. vm_compute. reflexivity. Qed.

Example stringify_numbers :
  JSON_stringify
    (JArr [ JNum (Int 100); JNum (Dec "1.5"); JNum (Dec "1e+21"); JNum (Int (-7));
            JNum NaN; JNum (Infinity true) ])
  = "[100,1.5,1e+21,-7,null,null]".
Proof. vm_compute. reflexivity. Qed.

(** A surrogate pair becomes one code point on four bytes; a surrogate
    without a partner is kept, written back as its escape, and leaves as
    U+FFFD in the UTF-8 encoding. *)
Example parse_surrogates :
  JSON_parse (json_text "'\ud83d\ude00 \ud83d'")
  = inl (JStr (string_of_list_ascii
                 (map byte_char [240; 159; 152; 128; 32; 237; 160; 189]))).
Proof. vm_compute. reflexivity. Qed.

Example stringify_surrogates :
  JSON_stringify
    (JStr (string_of_list_ascii (map byte_char [240; 159; 152; 128; 32; 237; 160; 189])))
  = dquote +:+ string_of_list_ascii (map byte_char [240; 159; 152; 128; 32])
      +:+ "\ud83d" +:+ dquote.
Proof. vm_compute. reflexivity. Qed.

Example utf8_surrogates :
  bytes_of_string (string_of_list_ascii (map byte_char [65; 237; 160; 189]))
  = [65; 239; 191; 189]
  /\ bytes_of_string
       (string_of_list_ascii (map byte_char [237; 160; 189; 237; 184; 128]))
     = [240; 159; 152; 128].
Proof. vm_compute. split; reflexivity. Qed.

Example parseInt_samples :
  map parseInt ["60"; " -12px"; "0x1F"; "px"] = [Int 60; Int (-12); Int 31; NaN].
Proof. vm_compute. reflexivity. Qed.

(** ** Integers and their decimal text *)

Lemma digit_cases (d : Z) :
  0 <= d < 10 ->
  d = 0 \/ d = 1 \/ d = 2 \/ d = 3 \/ d = 4 \/ d = 5 \/ d = 6 \/ d = 7 \/ d = 8 \/ d = 9.
Proof. lia. Qed.

Ltac each_digit H :=
  destruct (digit_cases _ H) as [-> | [-> | [-> | [-> | [-> | [-> | [-> | [-> | [-> | ->]]]]]]]]].

Lemma digit_value_digit_char (d : Z) :
  0 <= d < 10 -> digit_value 10 (digit_char d) = Some d.
Proof. intros H. each_digit H; reflexivity. Qed.

Lemma decimal_S (fuel : nat) (n : Z) (acc : string) :
  decimal (S fuel) n acc =
    if n <? 10 then String (digit_char (n mod 10)) acc
    else decimal fuel (n / 10) (String (digit_char (n mod 10)) acc).
Proof. reflexivity. Qed.

(** Reading back the digits [decimal] writes in front of [acc]. *)
Lemma digits_prefix_decimal (fuel : nat) :
  forall (n : Z) (acc : string) (start : option Z),
    0 <= n /\ n < 2 ^ Z.of_nat (S fuel) ->
    exists k,
      (digits_prefix 10 (decimal (S fuel) n acc) start
      = digits_prefix 10 acc (Some (nullish start 0 * 10 ^ k + n))) /\ 0 <= k.
Proof.
  induction fuel as [| fuel IH]; intros n acc start Hn.
  - exists 1. change (2 ^ Z.of_nat 1) with 2 in Hn.
    assert (Hlt : (n <? 10) = true) by (apply Z.ltb_lt; lia).
    rewrite decimal_S, Hlt. cbn [digits_prefix].
    rewrite Z.mod_small by lia. rewrite digit_value_digit_char by lia.
    split; [reflexivity | lia].
  - rewrite decimal_S. destruct (n <? 10) eqn:Hlt.
    + exists 1. apply Z.ltb_lt in Hlt. cbn [digits_prefix].
      rewrite Z.mod_small by lia. rewrite digit_value_digit_char by lia.
      split; [reflexivity | lia].
    + apply Z.ltb_ge in Hlt.
      destruct (IH (n / 10) (String (digit_char (n mod 10)) acc) start) as (k & Hk & Hk0).
      { split; [apply Z.div_pos; lia |].
        apply Z.div_lt_upper_bound; [lia |].
        rewrite (Nat2Z.inj_succ (S fuel)), Z.pow_succ_r in Hn by lia. lia. }
      exists (k + 1). rewrite Hk. cbn [digits_prefix].
      rewrite digit_value_digit_char by (apply Z.mod_pos_bound; lia).
      cbn [nullish]. split; [| lia]. do 2 f_equal.
      rewrite Z.pow_add_r by lia. pose proof (Z.div_mod n 10). lia.
Qed.

Lemma decimal_digits_only (fuel : nat) :
  forall (n : Z) (acc : string),
    0 <= n -> digits_only acc -> digits_only (decimal fuel n acc).
Proof.
  induction fuel as [| fuel IH]; intros n acc Hn Hacc; [exact Hacc |].
  assert (Hdigit : digits_only (String (digit_char (n mod 10)) acc)).
  { split; [| exact Hacc]. exists (n mod 10). split; [| reflexivity].
    apply Z.mod_pos_bound. lia. }
  rewrite decimal_S. destruct (n <? 10); [exact Hdigit |].
  apply IH; [apply Z.div_pos; lia | exact Hdigit].
Qed.

Lemma decimal_not_empty (fuel : nat) :
  forall (n : Z) (acc : string), acc <> "" -> decimal fuel n acc <> "".
Proof.
  induction fuel as [| fuel IH]; intros n acc Hacc; [exact Hacc |].
  rewrite decimal_S. destruct (n <? 10); [discriminate |].
  apply IH. discriminate.
Qed.

Lemma decimal_S_not_empty (fuel : nat) (n : Z) (acc : string) :
  decimal (S fuel) n acc <> "".
Proof.
  rewrite decimal_S. destruct (n <? 10); [discriminate |].
  apply decimal_not_empty. discriminate.
Qed.

(** On a text of decimal digits, with or without a minus sign, [parseInt]
    skips nothing, takes radix 10 and reads the digits. *)
Lemma parseInt_digits (s : string) :
  digits_only s -> s <> "" ->
  parseInt s = match digits_prefix 10 s None with
               | Some v => Int (1 * v)
               | None => NaN
               end
  /\ parseInt (String "-" s) = match digits_prefix 10 s None with
                               | Some v => Int (-1 * v)
                               | None => NaN
                               end.
Proof.
  destruct s as [| c r]; [congruence |]. intros [(d & Hd & ->) Hr] _.
  each_digit Hd; try (split; reflexivity).
  destruct r as [| c2 r2]; [split; reflexivity |].
  destruct Hr as [(d2 & Hd2 & ->) _].
  each_digit Hd2; split; reflexivity.
Qed.

(** [toString] writes an integer in decimal: [parseInt] reads it back. *)
Lemma parseInt_Z_toString (z : Z) : parseInt (Z_toString z) = Int z.
Proof.
  unfold Z_toString.
  set (n := Z.abs z). set (fuel := Z.to_nat (Z.log2 n)).
  assert (Hn : 0 <= n /\ n < 2 ^ Z.of_nat (S fuel)).
  { subst fuel. rewrite Nat2Z.inj_succ, Z2Nat.id by apply Z.log2_nonneg.
    split; [apply Z.abs_nonneg |].
    destruct (Z.eq_dec n 0) as [-> | Hnz]; [reflexivity |].
    apply Z.log2_spec. pose proof (Z.abs_nonneg z). lia. }
  destruct (digits_prefix_decimal fuel n "" None Hn) as (k & Hk & _).
  cbn [digits_prefix nullish] in Hk. rewrite Z.mul_0_l, Z.add_0_l in Hk.
  destruct (parseInt_digits (decimal (S fuel) n ""))
    as [Hplus Hminus].
  { apply decimal_digits_only; [lia | exact I]. }
  { apply decimal_S_not_empty. }
  rewrite Hk in Hplus, Hminus.
  destruct (z <? 0) eqn:Hz.
  - rewrite Hminus. apply Z.ltb_lt in Hz. f_equal. lia.
  - rewrite Hplus. apply Z.ltb_ge in Hz. f_equal. lia.
Qed.

(** ** The API client *)

Lemma truthy_true (s : string) : s <> "" -> truthy s = true.
Proof. destruct s; [congruence | reflexivity]. Qed.

Lemma truthy_false (s : string) : truthy s = false <-> s = "".
Proof. destruct s; split; intros H; try reflexivity; discriminate H. Qed.

Lemma callApi_unconfigured (cfg : config) (command : string) (params : json) (w : world) :
  PUBLIC_KEY cfg = "" \/ PRIVATE_KEY cfg = "" ->
  callApi cfg command params w = (Thrown (Error config_message), w).
Proof.
  intros H. unfold callApi.
  assert (Hguard : negb (truthy (PUBLIC_KEY cfg)) || negb (truthy (PRIVATE_KEY cfg)) = true).
  { destruct H as [-> | ->]; [reflexivity | apply orb_true_r]. }
  rewrite Hguard. reflexivity.
Qed.

Lemma callApi_configured (cfg : config) (command : string) (params : json) (w : world) :
  PUBLIC_KEY cfg <> "" -> PRIVATE_KEY cfg <> "" ->
  callApi cfg command params w =
    let req := signed_request cfg (now w) command params in
    (match remote w req with
     | inl body => Returned body
     | inr msg => Thrown (AxiosError msg)
     end, send req w).
Proof.
  intros Hpub Hpriv. unfold callApi.
  rewrite (truthy_true _ Hpub), (truthy_true _ Hpriv).
  cbv beta iota zeta delta [negb orb bind Date_now axios_post ret signed_request
                            generateSignature Number_toString floor_div].
  destruct (remote w _); reflexivity.
Qed.

(** ** Handlers follow the uniform contract *)

Lemma respond_unconfigured (cfg : config) (command : string) (params : json) (w : world) :
  PUBLIC_KEY cfg = "" \/ PRIVATE_KEY cfg = "" ->
  respond cfg command params w = (Returned (failure config_message), w).
Proof.
  intros H. unfold respond, try_catch, bind.
  rewrite (callApi_unconfigured _ _ _ _ H). reflexivity.
Qed.

Lemma respond_configured (cfg : config) (command : string) (params : json) (w : world) :
  PUBLIC_KEY cfg <> "" -> PRIVATE_KEY cfg <> "" ->
  respond cfg command params w =
    (Returned (match remote w (signed_request cfg (now w) command params) with
               | inl body => success body
               | inr msg => failure msg
               end),
     send (signed_request cfg (now w) command params) w).
Proof.
  intros Hpub Hpriv. unfold respond, try_catch, bind.
  rewrite (callApi_configured _ _ _ _ Hpub Hpriv). cbv zeta.
  destruct (remote w _); reflexivity.
Qed.

(** Whatever the credentials and the remote answer, the contract returns an
    envelope and posts at most one request. *)
Lemma respond_returns (cfg : config) (command : string) (params : json) (w : world) :
  exists e w',
    respond cfg command params w = (Returned e, w')
    /\ ((exists data, e = success data) \/ (exists msg, e = failure msg))
    /\ (w' = w \/ exists r, w' = send r w).
Proof.
  destruct (string_dec (PUBLIC_KEY cfg) "") as [Hpub | Hpub].
  { eexists _, _. rewrite respond_unconfigured by (left; exact Hpub). eauto 6. }
  destruct (string_dec (PRIVATE_KEY cfg) "") as [Hpriv | Hpriv].
  { eexists _, _. rewrite respond_unconfigured by (right; exact Hpriv). eauto 6. }
  eexists _, _. rewrite (respond_configured _ _ _ _ Hpub Hpriv).
  split; [reflexivity |]. split; [| eauto].
  destruct (remote w _); eauto.
Qed.

Lemma raw_api_call_parsed (cfg : config) (a : raw_api_call.args) (parsed : json) :
  JSON_parse (raw_api_call.params a) = inl parsed ->
  raw_api_call.handler cfg a = respond cfg (raw_api_call.command a) parsed.
Proof.
  intros H. unfold raw_api_call.handler, respond. rewrite H.
  destruct (raw_api_call.use_v2 a); reflexivity.
Qed.

Lemma raw_api_call_rejected (cfg : config) (a : raw_api_call.args) (e : exn) (w : world) :
  JSON_parse (raw_api_call.params a) = inr e ->
  raw_api_call.handler cfg a w = (Returned (failure (message e)), w).
Proof.
  intros H. unfold raw_api_call.handler, try_catch, bind. rewrite H. reflexivity.
Qed.

(** [JSON.parse] only ever throws a [SyntaxError]. *)
Lemma JSON_parse_throws_SyntaxError (s : string) (e : exn) :
  JSON_parse s = inr e -> exists msg, e = SyntaxError msg.
Proof.
  unfold JSON_parse, syntax_error. intros H.
  destruct (parse_value _ _) as [[v rest] | rest].
  - destruct (skip_ws rest) as [| c r]; [discriminate H |].
    injection H as <-. eauto.
  - injection H as <-. destruct rest; eauto.
Qed.

(** The tools of the registry, by name. *)
Lemma registered_tools (cfg : config) (t : tool) :
  In t (tools (createServer cfg)) ->
  (exists command params, forall a, callback t a = respond cfg command (params a))
  \/ (name t = "raw_api_call"
      /\ forall a, exists a', callback t a = raw_api_call.handler cfg a').
Proof.
  intros H. cbn in H.
  repeat (destruct H as [<- | H];
          [first [ right; split; [reflexivity | intros a; exists a; reflexivity]
                 | left; eexists _, (fun a => _); intros a; cbn; reflexivity ] |]).
  destruct H.
Qed.

(** The twelve tools, in the order of registration. *)
Example registered_names :
  map name (tools (createServer Scenario.cfg))
  = [ "get_user_data"; "get_portfolio"; "place_order"; "cancel_order";
      "set_stop_loss_take_profit"; "get_security_info"; "get_quotes_history";
      "search_tickers"; "add_price_alert"; "delete_price_alert";
      "get_security_sessions"; "raw_api_call" ].
Proof. reflexivity. Qed.

(** ** Claims about the API client *)

(** C1.  With both credentials non-empty, [callApi] issues exactly one
    request: a POST to [<base>/<command>] whose body is the JSON
    serialization of the parameters as they are, with the four headers
    Content-Type, X-NtApi-PublicKey (the public credential),
    X-NtApi-Timestamp (the clock in whole seconds, in decimal: the text reads
    back as that integer) and X-NtApi-Sig (the hex HMAC-SHA256, keyed by the
    private credential, of the body followed by the timestamp).  What the
    remote answers to that request is what the call returns or throws. *)
Theorem callApi_posts_one_signed_request
    (cfg : config) (command : string) (params : json) (w : world) :
  PUBLIC_KEY cfg <> "" ->
  PRIVATE_KEY cfg <> "" ->
  exists req,
    posted (snd (callApi cfg command params w)) = posted w ++ [req]
    /\ method req = "POST"
    /\ url req = API_BASE cfg +:+ "/" +:+ command
    /\ data req = JSON_stringify params
    /\ headers req =
         [ ("Content-Type", "application/json");
           ("X-NtApi-PublicKey", PUBLIC_KEY cfg);
           ("X-NtApi-Timestamp", Z_toString (now w / 1000));
           ("X-NtApi-Sig",
            Crypto.hex
              (Crypto.hmac_sha256 (bytes_of_string (PRIVATE_KEY cfg))
                 (bytes_of_string (JSON_stringify params +:+ Z_toString (now w / 1000))))) ]
    /\ parseInt (Z_toString (now w / 1000)) = Int (now w / 1000)
    /\ fst (callApi cfg command params w) =
         match remote w req with
         | inl body => Returned body
         | inr msg => Thrown (AxiosError msg)
         end.
Proof.
  intros Hpub Hpriv.
  exists (signed_request cfg (now w) command params).
  rewrite (callApi_configured _ _ _ _ Hpub Hpriv). cbv zeta.
  repeat (split; [reflexivity |]).
  split; [apply parseInt_Z_toString | reflexivity].
Qed.

Lemma callApi_posts_one_signed_request_witness :
  exists req,
    posted (snd (callApi Scenario.cfg "getOPQ" (JObj []) Scenario.world0)) = [req]
    /\ url req = "https://tradernet.com/api/getOPQ"
    /\ data req = "{}".
Proof.
  destruct (callApi_posts_one_signed_request Scenario.cfg "getOPQ" (JObj [])
              Scenario.world0) as (req & Hposted & _ & Hurl & Hdata & _).
  - vm_compute. discriminate.
  - vm_compute. discriminate.
  - exists req. split; [exact Hposted |]. split; [exact Hurl | exact Hdata].
Defined.

(** ** Claims about single tools *)

(** C8.  When the [params] string of [raw_api_call] is not valid JSON, the
    handler returns the error envelope carrying the message of the
    [SyntaxError] that [JSON.parse] threw, and the world is left as it was:
    no request is posted. *)
Theorem raw_api_call_invalid_json
    (cfg : config) (a : raw_api_call.args) (w : world) (e : exn) :
  JSON_parse (raw_api_call.params a) = inr e ->
  exists msg,
    e = SyntaxError msg
    /\ raw_api_call.handler cfg a w =
         (Returned {| content := [{| type := "text"; text := "Error: " +:+ msg |}];
                      isError := Some true |}, w).
Proof.
  intros H. destruct (JSON_parse_throws_SyntaxError _ _ H) as [msg ->].
  exists msg. split; [reflexivity |].
  rewrite (raw_api_call_rejected _ _ _ _ H). reflexivity.
Qed.

Lemma raw_api_call_invalid_json_witness :
  exists msg,
    SyntaxError "Unexpected token b in JSON at position 1" = SyntaxError msg
    /\ raw_api_call.handler Scenario.cfg
         {| raw_api_call.command := "getOPQ"; raw_api_call.params := "{bad json";
            raw_api_call.use_v2 := false |} Scenario.world0 =
         (Returned {| content := [{| type := "text"; text := "Error: " +:+ msg |}];
                      isError := Some true |}, Scenario.world0).
Proof.
  apply (raw_api_call_invalid_json Scenario.cfg
           {| raw_api_call.command := "getOPQ"; raw_api_call.params := "{bad json";
              raw_api_call.use_v2 := false |} Scenario.world0).
  vm_compute. reflexivity.
Defined.

(** C9.  [raw_api_call] with [use_v2 = true] is [raw_api_call] with
    [use_v2 = false]: for every configuration, command, params string and
    world, the two calls give the same envelope and leave the same world
    (the same request, if any, to the same endpoint). *)
Theorem raw_api_call_use_v2_ignored
    (cfg : config) (command params : string) (w : world) :
  raw_api_call.handler cfg
    {| raw_api_call.command := command; raw_api_call.params := params;
       raw_api_call.use_v2 := true |} w
  = raw_api_call.handler cfg
      {| raw_api_call.command := command; raw_api_call.params := params;
         raw_api_call.use_v2 := false |} w.
Proof.
  unfold raw_api_call.handler. cbn [raw_api_call.use_v2]. reflexivity.
Qed.

(** ** Claims about every tool of the registry *)

(** C3.  Every handler of the registry is total and never lets an exception
    out: for all arguments and every world (whatever the remote service
    answers, whatever the credentials), it returns one envelope, which is
    either the success shape (one text item, [isError] absent) or the error
    shape (one text item, [isError] true); and it posts at most one
    request on the way. *)
Theorem handlers_return_one_envelope (cfg : config) (t : tool) :
  In t (tools (createServer cfg)) ->
  forall (a : Args t) (w : world),
  exists e w',
    callback t a w = (Returned e, w')
    /\ (exists txt,
          e = {| content := [{| type := "text"; text := txt |}]; isError := None |}
          \/ e = {| content := [{| type := "text"; text := txt |}]; isError := Some true |})
    /\ (w' = w \/ exists r, w' = send r w).
Proof.
  intros Hin a w.
  assert (Hshape : forall command params w0,
    exists e w',
      respond cfg command params w0 = (Returned e, w')
      /\ (exists txt,
            e = {| content := [{| type := "text"; text := txt |}]; isError := None |}
            \/ e = {| content := [{| type := "text"; text := txt |}];
                      isError := Some true |})
      /\ (w' = w0 \/ exists r, w' = send r w0)).
  { intros command params w0.
    destruct (respond_returns cfg command params w0)
      as (e & w' & Heq & [[d ->] | [m ->]] & Hw);
      eexists _, w'; (split; [exact Heq |]); (split; [| exact Hw]);
      eexists; [left | right]; reflexivity. }
  destruct (registered_tools cfg t Hin) as [(command & params & Heq) | [_ Hraw]].
  - rewrite Heq. apply Hshape.
  - destruct (Hraw a) as [a' ->].
    destruct (JSON_parse (raw_api_call.params a')) as [parsed | e] eqn:Hparse.
    + rewrite (raw_api_call_parsed _ _ _ Hparse). apply Hshape.
    + rewrite (raw_api_call_rejected _ _ _ _ Hparse).
      eexists _, w. split; [reflexivity |]. split; [| left; reflexivity].
      eexists. right. reflexivity.
Qed.

Lemma handlers_return_one_envelope_witness :
  exists e w',
    raw_api_call.handler Scenario.cfg
      {| raw_api_call.command := "getOPQ"; raw_api_call.params := "{}";
         raw_api_call.use_v2 := true |} Scenario.world_down = (Returned e, w')
    /\ (exists txt,
          e = {| content := [{| type := "text"; text := txt |}]; isError := None |}
          \/ e = {| content := [{| type := "text"; text := txt |}]; isError := Some true |})
    /\ (w' = Scenario.world_down \/ exists r, w' = send r Scenario.world_down).
Proof.
  apply (handlers_return_one_envelope Scenario.cfg
           {| name := "raw_api_call";
              description := "Make a raw API call to any Tradernet command. Use this for commands not covered by other tools.";
              inputSchema := raw_api_call.schema;
              callback := raw_api_call.handler Scenario.cfg |}).
  cbn. do 11 right. left. reflexivity.
Defined.

(** C2, as the specification states it, fails: with no credential set,
    [raw_api_call] on a [params] string that is not JSON answers with the
    parser's message, which names neither environment variable. *)
Lemma unset_credentials_message_counterexample :
  raw_api_call.schema
    (JObj [("command", JStr "getOPQ"); ("params", JStr "{bad json")])
  = Some {| raw_api_call.command := "getOPQ"; raw_api_call.params := "{bad json";
            raw_api_call.use_v2 := false |}
  /\ map name (tools (createServer (configure ∅))) !! 11%nat = Some "raw_api_call"
  /\ PUBLIC_KEY (configure ∅) = ""
  /\ PRIVATE_KEY (configure ∅) = ""
  /\ raw_api_call.handler (configure ∅)
       {| raw_api_call.command := "getOPQ"; raw_api_call.params := "{bad json";
          raw_api_call.use_v2 := false |} Scenario.world0
     = (Returned
          {| content := [{| type := "text";
                            text := "Error: Unexpected token b in JSON at position 1" |}];
             isError := Some true |}, Scenario.world0)
  /\ includes "TRADERNET_PUBLIC_KEY"
       "Error: Unexpected token b in JSON at position 1" = false
  /\ includes "TRADERNET_PRIVATE_KEY"
       "Error: Unexpected token b in JSON at position 1" = false.
Proof. repeat split; vm_compute; reflexivity. Qed.

(** C2, amended.  When either credential is unset, every tool call returns
    the error envelope and leaves the world as it was (no request is posted).
    For every tool but [raw_api_call] the message is the configuration
    message, which names both environment variables; for [raw_api_call] it
    is that message when the [params] string parses, and the parser's message
    when it does not. *)
Theorem unset_credentials_error_envelope (env : gmap string string) :
  env !! "TRADERNET_PUBLIC_KEY" = None \/ env !! "TRADERNET_PRIVATE_KEY" = None ->
  (forall t, In t (tools (createServer (configure env))) ->
     name t <> "raw_api_call" ->
     forall (a : Args t) (w : world),
       callback t a w =
         (Returned {| content := [{| type := "text";
                                     text := "Error: " +:+ config_message |}];
                      isError := Some true |}, w))
  /\ (forall (a : raw_api_call.args) (w : world),
        raw_api_call.handler (configure env) a w =
          (Returned {| content :=
                         [{| type := "text";
                             text := "Error: " +:+
                               match JSON_parse (raw_api_call.params a) with
                               | inl _ => config_message
                               | inr e => message e
                               end |}];
                       isError := Some true |}, w))
  /\ includes "TRADERNET_PUBLIC_KEY" config_message = true
  /\ includes "TRADERNET_PRIVATE_KEY" config_message = true.
Proof.
  intros Hunset.
  assert (Hcfg : PUBLIC_KEY (configure env) = "" \/ PRIVATE_KEY (configure env) = "").
  { unfold configure. cbn [PUBLIC_KEY PRIVATE_KEY].
    destruct Hunset as [-> | ->]; [left | right]; reflexivity. }
  split; [| split; [| split; vm_compute; reflexivity]].
  - intros t Hin Hname a w.
    destruct (registered_tools _ t Hin) as [(command & params & Heq) | [Hraw _]].
    + rewrite Heq. apply (respond_unconfigured _ _ _ _ Hcfg).
    + contradiction.
  - intros a w.
    destruct (JSON_parse (raw_api_call.params a)) as [parsed | e] eqn:Hparse.
    + rewrite (raw_api_call_parsed _ _ _ Hparse).
      apply (respond_unconfigured _ _ _ _ Hcfg).
    + apply (raw_api_call_rejected _ _ _ _ Hparse).
Qed.

Lemma unset_credentials_error_envelope_witness :
  get_portfolio.handler (configure ∅) tt Scenario.world0 =
    (Returned {| content := [{| type := "text";
                                text := "Error: " +:+ config_message |}];
                 isError := Some true |}, Scenario.world0).
Proof.
  destruct (unset_credentials_error_envelope ∅) as [Htools _].
  - left. reflexivity.
  - refine (Htools {| name := "get_portfolio";
                      description := "Get current portfolio positions and account balances. Returns account funds, open positions with P&L, market values, and settlement info.";
                      inputSchema := get_portfolio.schema;
                      callback := get_portfolio.handler (configure ∅) |}
                   _ _ tt Scenario.world0).
    + cbn. right. left. reflexivity.
    + cbn. discriminate.
Defined.

(** C10, as the specification states it, fails as C2 does: with the public
    credential set to the empty string, [raw_api_call] on a [params] string
    that is not JSON does not take the configuration-error path.  It returns
    before [callApi] is reached, and its message is the parser's, not the
    configuration error. *)
Lemma empty_credential_parse_error_counterexample :
  PUBLIC_KEY (configure (<[ "TRADERNET_PUBLIC_KEY" := "" ]> Scenario.env)) = ""
  /\ raw_api_call.schema
       (JObj [("command", JStr "getOPQ"); ("params", JStr "{bad json")])
     = Some {| raw_api_call.command := "getOPQ"; raw_api_call.params := "{bad json";
               raw_api_call.use_v2 := false |}
  /\ raw_api_call.handler (configure (<[ "TRADERNET_PUBLIC_KEY" := "" ]> Scenario.env))
       {| raw_api_call.command := "getOPQ"; raw_api_call.params := "{bad json";
          raw_api_call.use_v2 := false |} Scenario.world0
     = (Returned
          {| content := [{| type := "text";
                            text := "Error: Unexpected token b in JSON at position 1" |}];
             isError := Some true |}, Scenario.world0)
  /\ "Error: Unexpected token b in JSON at position 1" <> "Error: " +:+ config_message
  /\ includes "TRADERNET_PUBLIC_KEY"
       "Error: Unexpected token b in JSON at position 1" = false.
Proof.
  split; [vm_compute; reflexivity |]. split; [vm_compute; reflexivity |].
  split; [vm_compute; reflexivity |]. split; [vm_compute; discriminate |].
  vm_compute. reflexivity.
Qed.

(** C10, amended.  A credential variable set to the empty string is the
    variable unset: the configuration read from the environment is the same,
    so the server and every tool call are the same.  In that state the API
    client throws the configuration error in every world; every tool call
    returns an error envelope and posts no request; the message is the
    configuration error for every tool but [raw_api_call], and for
    [raw_api_call] it is the configuration error when the [params] string
    parses and the parser's message when it does not. *)
Theorem empty_credential_is_unset (env : gmap string string) (key : string) :
  key = "TRADERNET_PUBLIC_KEY" \/ key = "TRADERNET_PRIVATE_KEY" ->
  configure (<[key := ""]> env) = configure (delete key env)
  /\ createServer (configure (<[key := ""]> env)) = createServer (configure (delete key env))
  /\ (forall command params w,
        callApi (configure (<[key := ""]> env)) command params w
        = (Thrown (Error config_message), w))
  /\ (forall t, In t (tools (createServer (configure (<[key := ""]> env)))) ->
        forall (a : Args t) (w : world),
        exists txt,
          callback t a w =
            (Returned {| content := [{| type := "text"; text := txt |}];
                         isError := Some true |}, w))
  /\ (forall t, In t (tools (createServer (configure (<[key := ""]> env)))) ->
        name t <> "raw_api_call" ->
        forall (a : Args t) (w : world),
          callback t a w =
            (Returned {| content := [{| type := "text";
                                        text := "Error: " +:+ config_message |}];
                         isError := Some true |}, w))
  /\ (forall (a : raw_api_call.args) (w : world),
        raw_api_call.handler (configure (<[key := ""]> env)) a w =
          (Returned {| content :=
                         [{| type := "text";
                             text := "Error: " +:+
                               match JSON_parse (raw_api_call.params a) with
                               | inl _ => config_message
                               | inr e => message e
                               end |}];
                       isError := Some true |}, w)).
Proof.
  intros Hkey.
  assert (Hsame : configure (<[key := ""]> env) = configure (delete key env)).
  { unfold configure.
    destruct Hkey as [-> | ->];
      repeat first [ rewrite lookup_insert_eq | rewrite lookup_delete_eq
                   | rewrite lookup_insert_ne by discriminate
                   | rewrite lookup_delete_ne by discriminate ];
      reflexivity. }
  assert (Hcfg : PUBLIC_KEY (configure (<[key := ""]> env)) = ""
                 \/ PRIVATE_KEY (configure (<[key := ""]> env)) = "").
  { unfold configure. cbn [PUBLIC_KEY PRIVATE_KEY].
    destruct Hkey as [-> | ->]; [left | right]; rewrite lookup_insert_eq; reflexivity. }
  assert (Hraw : forall (a : raw_api_call.args) (w : world),
            raw_api_call.handler (configure (<[key := ""]> env)) a w =
              (Returned {| content :=
                             [{| type := "text";
                                 text := "Error: " +:+
                                   match JSON_parse (raw_api_call.params a) with
                                   | inl _ => config_message
                                   | inr e => message e
                                   end |}];
                           isError := Some true |}, w)).
  { intros a w.
    destruct (JSON_parse (raw_api_call.params a)) as [parsed | e] eqn:Hparse.
    - rewrite (raw_api_call_parsed _ _ _ Hparse).
      apply (respond_unconfigured _ _ _ _ Hcfg).
    - apply (raw_api_call_rejected _ _ _ _ Hparse). }
  split; [exact Hsame |]. split; [rewrite Hsame; reflexivity |].
  split; [| split; [| split; [| exact Hraw]]].
  - intros command params w. apply (callApi_unconfigured _ _ _ _ Hcfg).
  - intros t Hin a w.
    destruct (registered_tools _ t Hin) as [(command & params & Heq) | [_ Ht]].
    + rewrite Heq, (respond_unconfigured _ _ _ _ Hcfg). eexists. reflexivity.
    + destruct (Ht a) as [a' ->]. rewrite Hraw. eexists. reflexivity.
  - intros t Hin Hname a w.
    destruct (registered_tools _ t Hin) as [(command & params & Heq) | [Ht _]].
    + rewrite Heq. apply (respond_unconfigured _ _ _ _ Hcfg).
    + contradiction.
Qed.

Lemma empty_credential_is_unset_witness :
  configure (<[ "TRADERNET_PRIVATE_KEY" := "" ]> Scenario.env)
  = configure (delete "TRADERNET_PRIVATE_KEY" Scenario.env)
  /\ raw_api_call.handler (configure (<[ "TRADERNET_PRIVATE_KEY" := "" ]> Scenario.env))
       {| raw_api_call.command := "getOPQ"; raw_api_call.params := "{}";
          raw_api_call.use_v2 := false |} Scenario.world0
     = (Returned {| content := [{| type := "text";
                                   text := "Error: " +:+ config_message |}];
                    isError := Some true |}, Scenario.world0).
Proof.
  destruct (empty_credential_is_unset Scenario.env "TRADERNET_PRIVATE_KEY")
    as (Hsame & _ & _ & _ & _ & Hraw).
  - right. reflexivity.
  - split; [exact Hsame |].
    exact (Hraw {| raw_api_call.command := "getOPQ"; raw_api_call.params := "{}";
                   raw_api_call.use_v2 := false |} Scenario.world0).
Defined.

(** ** What the schemas guarantee *)

Lemma z_enum_In (values : list string) (v : option json) (s : string) :
  z_enum values v = Some s -> In s values.
Proof.
  unfold z_enum. destruct v as [[| | | s' | |] |]; try discriminate.
  destruct (existsb (String.eqb s') values) eqn:Hex; [| discriminate].
  intros [= <-]. apply existsb_exists in Hex as (x & Hin & Heq).
  apply String.eqb_eq in Heq. subst. exact Hin.
Qed.

Lemma z_default_In {A : Type} (d : A) (s : schema A) (v : option json) (x : A) :
  z_default d s v = Some x -> x = d \/ s v = Some x.
Proof.
  unfold z_default. destruct v; [right; assumption | left; congruence].
Qed.

Lemma place_order_schema_valid (input : json) (a : place_order.args) :
  place_order.schema input = Some a ->
  In (place_order.action a) ["buy"; "buy_margin"; "sell"; "sell_short"]
  /\ In (place_order.order_type a) ["market"; "limit"; "stop"; "stop_limit"]
  /\ In (place_order.expiration a) ["day"; "day_ext"; "gtc"].
Proof.
  destruct input as [| | | | | o]; try discriminate.
  unfold place_order.schema. intros H.
  destruct (field o "instrument" z_string) as [x1 |]; [| discriminate H].
  destruct (field o "action" _) as [x2 |] eqn:H2; [| discriminate H].
  destruct (field o "order_type" _) as [x3 |] eqn:H3; [| discriminate H].
  destruct (field o "quantity" _) as [x4 |]; [| discriminate H].
  destruct (field o "limit_price" _) as [x5 |]; [| discriminate H].
  destruct (field o "stop_price" _) as [x6 |]; [| discriminate H].
  destruct (field o "expiration" _) as [x7 |] eqn:H7; [| discriminate H].
  cbn in H. injection H as <-. cbn [place_order.action place_order.order_type
                                     place_order.expiration].
  split; [exact (z_enum_In _ _ _ H2) |]. split; [exact (z_enum_In _ _ _ H3) |].
  destruct (z_default_In _ _ _ _ H7) as [-> | H7'].
  - left. reflexivity.
  - exact (z_enum_In _ _ _ H7').
Qed.

Lemma get_quotes_history_schema_valid (input : json) (a : get_quotes_history.args) :
  get_quotes_history.schema input = Some a ->
  In (get_quotes_history.timeframe a) ["1"; "5"; "15"; "60"; "1440"].
Proof.
  destruct input as [| | | | | o]; try discriminate.
  unfold get_quotes_history.schema. intros H.
  destruct (field o "ticker" z_string) as [x1 |]; [| discriminate H].
  destruct (field o "timeframe" _) as [x2 |] eqn:H2; [| discriminate H].
  destruct (field o "date_from" _) as [x3 |]; [| discriminate H].
  destruct (field o "date_to" _) as [x4 |]; [| discriminate H].
  destruct (field o "count" _) as [x5 |]; [| discriminate H].
  cbn in H. injection H as <-. exact (z_enum_In _ _ _ H2).
Qed.

(** The three lookup tables of [place_order], entry by entry. *)
Lemma actionMap_code (s : string) :
  In s ["buy"; "buy_margin"; "sell"; "sell_short"] ->
  exists id,
    In (s, id) [("buy", 1); ("buy_margin", 2); ("sell", 3); ("sell_short", 4)]
    /\ place_order.code_of place_order.actionMap s = Some (JNum (Int id)).
Proof.
  intros H. repeat (destruct H as [<- | H]; [eexists; split; [| vm_compute; reflexivity] |]);
    [| | | | destruct H]; cbn; tauto.
Qed.

Lemma typeMap_code (s : string) :
  In s ["market"; "limit"; "stop"; "stop_limit"] ->
  exists id,
    In (s, id) [("market", 1); ("limit", 2); ("stop", 3); ("stop_limit", 4)]
    /\ place_order.code_of place_order.typeMap s = Some (JNum (Int id)).
Proof.
  intros H. repeat (destruct H as [<- | H]; [eexists; split; [| vm_compute; reflexivity] |]);
    [| | | | destruct H]; cbn; tauto.
Qed.

Lemma expMap_code (s : string) :
  In s ["day"; "day_ext"; "gtc"] ->
  exists id,
    In (s, id) [("day", 1); ("day_ext", 2); ("gtc", 3)]
    /\ place_order.code_of place_order.expMap s = Some (JNum (Int id)).
Proof.
  intros H. repeat (destruct H as [<- | H]; [eexists; split; [| vm_compute; reflexivity] |]);
    [| | | destruct H]; cbn; tauto.
Qed.

(** A handler that follows the contract posts, with credentials set, the
    signed request of its command and parameters, and nothing else. *)
Lemma respond_posts (cfg : config) (command : string) (params : json) (w : world) :
  PUBLIC_KEY cfg <> "" -> PRIVATE_KEY cfg <> "" ->
  exists req,
    snd (respond cfg command params w) = send req w
    /\ method req = "POST"
    /\ url req = API_BASE cfg +:+ "/" +:+ command
    /\ data req = JSON_stringify params.
Proof.
  intros Hpub Hpriv. exists (signed_request cfg (now w) command params).
  rewrite (respond_configured _ _ _ _ Hpub Hpriv). repeat split; reflexivity.
Qed.

(** C4.  For every valid [place_order] invocation the request carries, under
    [action_id], [order_type_id] and [expiration_id], the codes of the tables
    action buy=1, buy_margin=2, sell=3, sell_short=4; order_type market=1,
    limit=2, stop=3, stop_limit=4; expiration day=1, day_ext=2, gtc=3. *)
Theorem place_order_enum_codes
    (cfg : config) (input : json) (a : place_order.args) (w : world) :
  place_order.schema input = Some a ->
  PUBLIC_KEY cfg <> "" ->
  PRIVATE_KEY cfg <> "" ->
  exists action_id order_type_id expiration_id req,
    In (place_order.action a, action_id)
       [("buy", 1); ("buy_margin", 2); ("sell", 3); ("sell_short", 4)]
    /\ In (place_order.order_type a, order_type_id)
          [("market", 1); ("limit", 2); ("stop", 3); ("stop_limit", 4)]
    /\ In (place_order.expiration a, expiration_id)
          [("day", 1); ("day_ext", 2); ("gtc", 3)]
    /\ snd (place_order.handler cfg a w) = send req w
    /\ url req = API_BASE cfg +:+ "/putTradeOrder"
    /\ data req =
         JSON_stringify
           (JObj [ ("instr_name", JStr (place_order.instrument a));
                   ("action_id", JNum (Int action_id));
                   ("order_type_id", JNum (Int order_type_id));
                   ("qty", JNum (place_order.quantity a));
                   ("limit_price", JNum (nullish (place_order.limit_price a) (Int 0)));
                   ("stop_price", JNum (nullish (place_order.stop_price a) (Int 0)));
                   ("expiration_id", JNum (Int expiration_id)) ]).
Proof.
  intros Hvalid Hpub Hpriv.
  destruct (place_order_schema_valid _ _ Hvalid) as (Ha & Ht & He).
  destruct (actionMap_code _ Ha) as (action_id & Hia & Hca).
  destruct (typeMap_code _ Ht) as (order_type_id & Hit & Hct).
  destruct (expMap_code _ He) as (expiration_id & Hie & Hce).
  exists action_id, order_type_id, expiration_id.
  change (place_order.handler cfg a) with
    (respond cfg "putTradeOrder"
       (object_literal
          [ ("instr_name", Some (JStr (place_order.instrument a)));
            ("action_id", place_order.code_of place_order.actionMap (place_order.action a));
            ("order_type_id",
             place_order.code_of place_order.typeMap (place_order.order_type a));
            ("qty", Some (JNum (place_order.quantity a)));
            ("limit_price", Some (JNum (nullish (place_order.limit_price a) (Int 0))));
            ("stop_price", Some (JNum (nullish (place_order.stop_price a) (Int 0))));
            ("expiration_id",
             place_order.code_of place_order.expMap (place_order.expiration a)) ])).
  rewrite Hca, Hct, Hce.
  destruct (respond_posts cfg "putTradeOrder"
              (object_literal
                 [ ("instr_name", Some (JStr (place_order.instrument a)));
                   ("action_id", Some (JNum (Int action_id)));
                   ("order_type_id", Some (JNum (Int order_type_id)));
                   ("qty", Some (JNum (place_order.quantity a)));
                   ("limit_price",
                    Some (JNum (nullish (place_order.limit_price a) (Int 0))));
                   ("stop_price", Some (JNum (nullish (place_order.stop_price a) (Int 0))));
                   ("expiration_id", Some (JNum (Int expiration_id))) ])
              w Hpub Hpriv) as (req & Hsend & _ & Hurl & Hdata).
  exists req. repeat (split; [assumption |]). exact Hdata.
Qed.

(** The two instances the specification names: buy/market gives 1 and 1,
    sell_short/stop_limit gives 4 and 4. *)
Lemma place_order_enum_codes_witness :
  (exists req,
     snd (place_order.handler Scenario.cfg
            {| place_order.instrument := "SBER"; place_order.action := "buy";
               place_order.order_type := "market"; place_order.quantity := Int 3;
               place_order.limit_price := None; place_order.stop_price := None;
               place_order.expiration := "day" |} Scenario.world0)
     = send req Scenario.world0
     /\ data req = json_text
          "{'instr_name':'SBER','action_id':1,'order_type_id':1,'qty':3,'limit_price':0,'stop_price':0,'expiration_id':1}")
  /\ (exists req,
        snd (place_order.handler Scenario.cfg
               {| place_order.instrument := "SBER"; place_order.action := "sell_short";
                  place_order.order_type := "stop_limit"; place_order.quantity := Int 3;
                  place_order.limit_price := Some (Int 250);
                  place_order.stop_price := Some (Int 260);
                  place_order.expiration := "gtc" |} Scenario.world0)
        = send req Scenario.world0
        /\ data req = json_text
             "{'instr_name':'SBER','action_id':4,'order_type_id':4,'qty':3,'limit_price':250,'stop_price':260,'expiration_id':3}").
Proof.
  split.
  - destruct (place_order_enum_codes Scenario.cfg
                (JObj [ ("instrument", JStr "SBER"); ("action", JStr "buy");
                        ("order_type", JStr "market"); ("quantity", JNum (Int 3)) ])
                {| place_order.instrument := "SBER"; place_order.action := "buy";
                   place_order.order_type := "market"; place_order.quantity := Int 3;
                   place_order.limit_price := None; place_order.stop_price := None;
                   place_order.expiration := "day" |} Scenario.world0)
      as (i & j & k & req & Hi & Hj & Hk & Hsend & _ & Hdata).
    + vm_compute. reflexivity.
    + vm_compute. discriminate.
    + vm_compute. discriminate.
    + exists req. split; [exact Hsend |]. rewrite Hdata.
      cbn in Hi, Hj, Hk.
      assert (i = 1) as -> by (destruct Hi as [H | [H | [H | [H | []]]]]; congruence).
      assert (j = 1) as -> by (destruct Hj as [H | [H | [H | [H | []]]]]; congruence).
      assert (k = 1) as -> by (destruct Hk as [H | [H | [H | []]]]; congruence).
      vm_compute. reflexivity.
  - destruct (place_order_enum_codes Scenario.cfg
                (JObj [ ("instrument", JStr "SBER"); ("action", JStr "sell_short");
                        ("order_type", JStr "stop_limit"); ("quantity", JNum (Int 3));
                        ("limit_price", JNum (Int 250)); ("stop_price", JNum (Int 260));
                        ("expiration", JStr "gtc") ])
                {| place_order.instrument := "SBER"; place_order.action := "sell_short";
                   place_order.order_type := "stop_limit"; place_order.quantity := Int 3;
                   place_order.limit_price := Some (Int 250);
                   place_order.stop_price := Some (Int 260);
                   place_order.expiration := "gtc" |} Scenario.world0)
      as (i & j & k & req & Hi & Hj & Hk & Hsend & _ & Hdata).
    + vm_compute. reflexivity.
    + vm_compute. discriminate.
    + vm_compute. discriminate.
    + exists req. split; [exact Hsend |]. rewrite Hdata.
      cbn in Hi, Hj, Hk.
      assert (i = 4) as -> by (destruct Hi as [H | [H | [H | [H | []]]]]; congruence).
      assert (j = 4) as -> by (destruct Hj as [H | [H | [H | [H | []]]]]; congruence).
      assert (k = 3) as -> by (destruct Hk as [H | [H | [H | []]]]; congruence).
      vm_compute. reflexivity.
Defined.

(** C5.  With credentials set, [place_order] on instrument AAPL.US, action
    buy, order type limit, quantity 10 and limit price 150 passes the schema
    (the absent expiration becoming "day"), posts exactly one request, to
    [<base>/putTradeOrder], whose body is the JSON text of the specification
    (stop price 0, expiration 1) under the signed headers, and on a
    successful answer returns the success envelope with the answer
    pretty-printed. *)
Theorem place_order_scenario (cfg : config) (w : world) :
  PUBLIC_KEY cfg <> "" ->
  PRIVATE_KEY cfg <> "" ->
  exists a req,
    place_order.schema
      (JObj [ ("instrument", JStr "AAPL.US"); ("action", JStr "buy");
              ("order_type", JStr "limit"); ("quantity", JNum (Int 10));
              ("limit_price", JNum (Int 150)) ]) = Some a
    /\ snd (place_order.handler cfg a w) = send req w
    /\ posted (snd (place_order.handler cfg a w)) = posted w ++ [req]
    /\ method req = "POST"
    /\ url req = API_BASE cfg +:+ "/putTradeOrder"
    /\ data req = json_text
         "{'instr_name':'AAPL.US','action_id':1,'order_type_id':2,'qty':10,'limit_price':150,'stop_price':0,'expiration_id':1}"
    /\ headers req =
         [ ("Content-Type", "application/json");
           ("X-NtApi-PublicKey", PUBLIC_KEY cfg);
           ("X-NtApi-Timestamp", Z_toString (now w / 1000));
           ("X-NtApi-Sig",
            Crypto.hex
              (Crypto.hmac_sha256 (bytes_of_string (PRIVATE_KEY cfg))
                 (bytes_of_string (data req +:+ Z_toString (now w / 1000))))) ]
    /\ (forall body, remote w req = inl body ->
          fst (place_order.handler cfg a w) =
            Returned {| content := [{| type := "text";
                                       text := JSON_stringify_gap "" body |}];
                        isError := None |}).
Proof.
  intros Hpub Hpriv.
  pose (params :=
    JObj [ ("instr_name", JStr "AAPL.US"); ("action_id", JNum (Int 1));
           ("order_type_id", JNum (Int 2)); ("qty", JNum (Int 10));
           ("limit_price", JNum (Int 150)); ("stop_price", JNum (Int 0));
           ("expiration_id", JNum (Int 1)) ]).
  assert (Hbody : JSON_stringify params = json_text
    "{'instr_name':'AAPL.US','action_id':1,'order_type_id':2,'qty':10,'limit_price':150,'stop_price':0,'expiration_id':1}")
    by (vm_compute; reflexivity).
  exists {| place_order.instrument := "AAPL.US"; place_order.action := "buy";
            place_order.order_type := "limit"; place_order.quantity := Int 10;
            place_order.limit_price := Some (Int 150); place_order.stop_price := None;
            place_order.expiration := "day" |},
         (signed_request cfg (now w) "putTradeOrder" params).
  split; [vm_compute; reflexivity |].
  change (place_order.handler cfg _) with (respond cfg "putTradeOrder" params).
  rewrite (respond_configured _ _ _ _ Hpub Hpriv).
  cbn [fst snd]. unfold signed_request.
  cbn [method url data headers send posted]. rewrite Hbody.
  repeat (split; [reflexivity |]).
  intros body ->. reflexivity.
Qed.

(** In the example deployment: the request, its signature as Node computes
    it, and the envelope. *)
Lemma place_order_scenario_witness :
  exists a req,
    place_order.schema
      (JObj [ ("instrument", JStr "AAPL.US"); ("action", JStr "buy");
              ("order_type", JStr "limit"); ("quantity", JNum (Int 10));
              ("limit_price", JNum (Int 150)) ]) = Some a
    /\ posted (snd (place_order.handler Scenario.cfg a Scenario.world0)) = [req]
    /\ url req = "https://tradernet.com/api/putTradeOrder"
    /\ headers req =
         [ ("Content-Type", "application/json");
           ("X-NtApi-PublicKey", "pub-1");
           ("X-NtApi-Timestamp", "1730000000");
           ("X-NtApi-Sig",
            "841c27c05265cb1ac6f6968d0b750d9a3380d05660b644b4ff1edf2b40a38f04") ]
    /\ fst (place_order.handler Scenario.cfg a Scenario.world0) =
         Returned {| content :=
                       [{| type := "text";
                           text := "{" +:+ newline +:+ json_text "  'ok': true"
                                   +:+ newline +:+ "}" |}];
                     isError := None |}.
Proof.
  destruct (place_order_scenario Scenario.cfg Scenario.world0)
    as (a & req & Hschema & _ & Hposted & _ & Hurl & Hdata & Hheaders & Hok).
  - vm_compute. discriminate.
  - vm_compute. discriminate.
  - exists a, req. split; [exact Hschema |]. split; [exact Hposted |].
    split; [exact Hurl |]. split.
    + rewrite Hheaders, Hdata. vm_compute. reflexivity.
    + rewrite (Hok (JObj [("ok", JBool true)])).
      * vm_compute. reflexivity.
      * reflexivity.
Defined.

(** C6.  [delete_price_alert] sends to [togglePriceAlert] the mapping of
    [id] (the alert id), [del: true], [quote_type: "ltp"] and
    [notification_type: "email"], whatever the world (the alert as the remote
    knows it included): the last two are constants of the handler. *)
Theorem delete_price_alert_params
    (cfg : config) (a : delete_price_alert.args) (w : world) :
  PUBLIC_KEY cfg <> "" ->
  PRIVATE_KEY cfg <> "" ->
  exists req,
    snd (delete_price_alert.handler cfg a w) = send req w
    /\ url req = API_BASE cfg +:+ "/togglePriceAlert"
    /\ data req =
         JSON_stringify
           (JObj [ ("id", JNum (delete_price_alert.alert_id a));
                   ("del", JBool true);
                   ("quote_type", JStr "ltp");
                   ("notification_type", JStr "email") ]).
Proof.
  intros Hpub Hpriv.
  destruct (respond_posts cfg "togglePriceAlert"
              (JObj [ ("id", JNum (delete_price_alert.alert_id a));
                      ("del", JBool true);
                      ("quote_type", JStr "ltp");
                      ("notification_type", JStr "email") ]) w Hpub Hpriv)
    as (req & Hsend & _ & Hurl & Hdata).
  exists req. split; [exact Hsend |]. split; [exact Hurl | exact Hdata].
Qed.

Lemma delete_price_alert_params_witness :
  exists req,
    snd (delete_price_alert.handler Scenario.cfg
           {| delete_price_alert.alert_id := Int 42 |} Scenario.world0)
    = send req Scenario.world0
    /\ url req = "https://tradernet.com/api/togglePriceAlert"
    /\ data req = json_text
         "{'id':42,'del':true,'quote_type':'ltp','notification_type':'email'}".
Proof.
  destruct (delete_price_alert_params Scenario.cfg
              {| delete_price_alert.alert_id := Int 42 |} Scenario.world0)
    as (req & Hsend & Hurl & Hdata).
  - vm_compute. discriminate.
  - vm_compute. discriminate.
  - exists req. split; [exact Hsend |]. split; [exact Hurl |].
    rewrite Hdata. vm_compute. reflexivity.
Defined.

(** C7.  For every valid [get_quotes_history] invocation the request carries
    the timeframe as the integer its string denotes (1, 5, 15, 60 or 1440)
    and the constant [intervalMode: "ClosedRay"]. *)
Theorem get_quotes_history_timeframe
    (cfg : config) (input : json) (a : get_quotes_history.args) (w : world) :
  get_quotes_history.schema input = Some a ->
  PUBLIC_KEY cfg <> "" ->
  PRIVATE_KEY cfg <> "" ->
  exists minutes req,
    In (get_quotes_history.timeframe a, minutes)
       [("1", 1); ("5", 5); ("15", 15); ("60", 60); ("1440", 1440)]
    /\ snd (get_quotes_history.handler cfg a w) = send req w
    /\ url req = API_BASE cfg +:+ "/getHloc"
    /\ data req =
         JSON_stringify
           (JObj [ ("id", JStr (get_quotes_history.ticker a));
                   ("timeframe", JNum (Int minutes));
                   ("date_from", JStr (get_quotes_history.date_from a));
                   ("date_to", JStr (get_quotes_history.date_to a));
                   ("count", JNum (get_quotes_history.count a));
                   ("intervalMode", JStr "ClosedRay") ]).
Proof.
  intros Hvalid Hpub Hpriv.
  assert (Hparse : exists minutes,
            In (get_quotes_history.timeframe a, minutes)
               [("1", 1); ("5", 5); ("15", 15); ("60", 60); ("1440", 1440)]
            /\ parseInt (get_quotes_history.timeframe a) = Int minutes).
  { pose proof (get_quotes_history_schema_valid _ _ Hvalid) as Hin.
    repeat (destruct Hin as [<- | Hin];
            [eexists; split; [| vm_compute; reflexivity]; cbn; tauto |]).
    destruct Hin. }
  destruct Hparse as (minutes & Htable & Hint).
  destruct (respond_posts cfg "getHloc"
              (JObj [ ("id", JStr (get_quotes_history.ticker a));
                      ("timeframe", JNum (parseInt (get_quotes_history.timeframe a)));
                      ("date_from", JStr (get_quotes_history.date_from a));
                      ("date_to", JStr (get_quotes_history.date_to a));
                      ("count", JNum (get_quotes_history.count a));
                      ("intervalMode", JStr "ClosedRay") ]) w Hpub Hpriv)
    as (req & Hsend & _ & Hurl & Hdata).
  rewrite Hint in Hdata.
  exists minutes, req. split; [exact Htable |]. split; [exact Hsend |].
  split; [exact Hurl | exact Hdata].
Qed.

Lemma get_quotes_history_timeframe_witness :
  exists req,
    snd (get_quotes_history.handler Scenario.cfg
           {| get_quotes_history.ticker := "AAPL.US";
              get_quotes_history.timeframe := "60";
              get_quotes_history.date_from := "01.01.2025 00:00";
              get_quotes_history.date_to := "31.01.2025 23:59";
              get_quotes_history.count := Int 0 |} Scenario.world0)
    = send req Scenario.world0
    /\ data req = json_text
         "{'id':'AAPL.US','timeframe':60,'date_from':'01.01.2025 00:00','date_to':'31.01.2025 23:59','count':0,'intervalMode':'ClosedRay'}".
Proof.
  destruct (get_quotes_history_timeframe Scenario.cfg
              (JObj [ ("ticker", JStr "AAPL.US"); ("timeframe", JStr "60");
                      ("date_from", JStr "01.01.2025 00:00");
                      ("date_to", JStr "31.01.2025 23:59") ])
              {| get_quotes_history.ticker := "AAPL.US";
                 get_quotes_history.timeframe := "60";
                 get_quotes_history.date_from := "01.01.2025 00:00";
                 get_quotes_history.date_to := "31.01.2025 23:59";
                 get_quotes_history.count := Int 0 |} Scenario.world0)
    as (minutes & req & Htable & Hsend & _ & Hdata).
  - vm_compute. reflexivity.
  - vm_compute. discriminate.
  - vm_compute. discriminate.
  - exists req. split; [exact Hsend |]. rewrite Hdata. cbn in Htable.
    assert (minutes = 60) as ->
      by (destruct Htable as [H | [H | [H | [H | [H | []]]]]]; congruence).
    vm_compute. reflexivity.
Defined.
(** * Further properties *)

Import Reading.

(** ** JSON texts read back *)

Lemma chars_app (s t : string) :
  list_ascii_of_string (s +:+ t) = list_ascii_of_string s ++ list_ascii_of_string t.
Proof. induction s as [| c s IH]; [reflexivity |]. simpl. f_equal. exact IH. Qed.

Lemma chars_length (s : string) : List.length (list_ascii_of_string s) = String.length s.
Proof. induction s as [| c s IH]; [reflexivity |]. simpl. f_equal. exact IH. Qed.

Ltac each_byte c :=
  destruct c as [[] [] [] [] [] [] [] []].

Lemma parse_string_escape_char (c : ascii) (r : list ascii) (acc : list (ascii + Z)) :
  parse_string (list_ascii_of_string (escape_char c) ++ r) acc
  = parse_string r (unit_of c :: acc).
Proof. each_byte c; reflexivity. Qed.

Lemma encode_units_unit_of (c : ascii) (us : list (ascii + Z)) :
  encode_units (unit_of c :: us) = c :: encode_units us.
Proof. each_byte c; reflexivity. Qed.

Lemma code_range (c : ascii) : 0 <= code c < 256.
Proof. each_byte c; (split; [intros H; discriminate H | reflexivity]). Qed.

Lemma byte_char_code (c : ascii) : byte_char (code c) = c.
Proof. each_byte c; reflexivity. Qed.

Lemma surrogate_Some (c c2 c3 : ascii) (u : Z) :
  surrogate c c2 c3 = Some u ->
  (55296 <= u /\ u <= 57343) /\ utf8_encode u = [c; c2; c3]
  /\ 128 <= code c /\ 128 <= code c2 /\ 128 <= code c3.
Proof.
  unfold surrogate.
  destruct (_ && _) eqn:H; [| discriminate]. intros [= <-].
  apply andb_prop in H as [H B5]. apply andb_prop in H as [H B4].
  apply andb_prop in H as [H B3]. apply andb_prop in H as [B1 B2].
  pose proof (code_range c2) as R2. pose proof (code_range c3) as R3.
  unfold utf8_encode.
  set (u := 55296 + (code c2 - 160) * 64 + (code c3 - 128)).
  assert (Hu : 55296 <= u <= 57343) by (subst u; lia).
  destruct (u <? 128) eqn:L1; [lia |].
  destruct (u <? 2048) eqn:L2; [lia |].
  destruct (u <? 65536) eqn:L3; [| lia].
  split; [lia |]. split; [| lia].
  assert (E1 : u / 4096 = 13) by (subst u; Z.to_euclidean_division_equations; lia).
  assert (E2 : (u / 64) mod 64 = code c2 - 128)
    by (subst u; Z.to_euclidean_division_equations; lia).
  assert (E3 : u mod 64 = code c3 - 128)
    by (subst u; Z.to_euclidean_division_equations; lia).
  assert (C1 : byte_char (224 + 13) = c).
  { rewrite <- (byte_char_code c) at 1. f_equal. apply Z.eqb_eq in B1. lia. }
  assert (C2 : byte_char (128 + (code c2 - 128)) = c2).
  { rewrite <- (byte_char_code c2) at 2. f_equal. lia. }
  assert (C3 : byte_char (128 + (code c3 - 128)) = c3).
  { rewrite <- (byte_char_code c3) at 2. f_equal. lia. }
  rewrite E1, E2, E3, C1, C2, C3. reflexivity.
Qed.

Lemma hex_value_hex_digit (d : Z) :
  0 <= d < 16 -> hex_value (Crypto.hex_digit d) = Some d.
Proof.
  intros H.
  assert (C : d = 0 \/ d = 1 \/ d = 2 \/ d = 3 \/ d = 4 \/ d = 5 \/ d = 6 \/ d = 7
              \/ d = 8 \/ d = 9 \/ d = 10 \/ d = 11 \/ d = 12 \/ d = 13 \/ d = 14
              \/ d = 15) by lia.
  repeat (destruct C as [-> | C]; [reflexivity |]). subst d. reflexivity.
Qed.

Lemma parse_string_unicode (a b c d : Z) (r : list ascii) (acc : list (ascii + Z)) :
  0 <= a < 16 -> 0 <= b < 16 -> 0 <= c < 16 -> 0 <= d < 16 ->
  parse_string ("\"%char :: "u"%char :: Crypto.hex_digit a :: Crypto.hex_digit b
                  :: Crypto.hex_digit c :: Crypto.hex_digit d :: r) acc
  = parse_string r (inr (((a * 16 + b) * 16 + c) * 16 + d) :: acc).
Proof.
  intros Ha Hb Hc Hd. cbn [parse_string].
  change (code "\"%char =? 34) with false. change (code "\"%char =? 92) with true.
  cbv iota. 
  rewrite (hex_value_hex_digit a Ha), (hex_value_hex_digit b Hb),
    (hex_value_hex_digit c Hc), (hex_value_hex_digit d Hd).
  reflexivity.
Qed.

Lemma parse_string_lone (u : Z) (r : list ascii) (acc : list (ascii + Z)) :
  held u ->
  parse_string (list_ascii_of_string ("\u" +:+ hex4 u) ++ r) acc
  = parse_string r (inr u :: acc).
Proof.
  intros (c & c2 & c3 & H). apply surrogate_Some in H as [[Hlo Hhi] _]. unfold hex4. rewrite chars_app. cbn [list_ascii_of_string app].
  rewrite parse_string_unicode by (Z.to_euclidean_division_equations; lia).
  do 3 f_equal. Z.to_euclidean_division_equations; lia.
Qed.

Lemma parse_string_raw (c : ascii) (r : list ascii) (acc : list (ascii + Z)) :
  128 <= code c -> parse_string (c :: r) acc = parse_string r (inl c :: acc).
Proof. each_byte c; intros H; first [reflexivity | exfalso; revert H; vm_compute; intros H; apply H; reflexivity]. Qed.


Lemma parse_string_raws (cs : list ascii) :
  Forall (fun c => 128 <= code c) cs ->
  forall (r : list ascii) (acc : list (ascii + Z)),
    parse_string (cs ++ r) acc = parse_string r (rev (map inl cs) ++ acc).
Proof.
  induction 1 as [| c cs Hc _ IH]; intros r acc; [reflexivity |].
  cbn [app map rev]. rewrite (parse_string_raw _ _ _ Hc), IH, <- app_assoc. reflexivity.
Qed.

Lemma held_bytes (u : Z) :
  held u -> Forall (fun c => 128 <= code c) (utf8_encode u).
Proof.
  intros (c & c2 & c3 & H). apply surrogate_Some in H as (_ & -> & H1 & H2 & H3).
  repeat constructor; assumption.
Qed.

Lemma parse_string_item (i : item) (r : list ascii) (acc : list (ascii + Z)) :
  item_ok i ->
  parse_string (list_ascii_of_string (escape_item i) ++ r) acc
  = parse_string r (rev (item_units i) ++ acc).
Proof.
  destruct i as [c | u | hi lo]; cbn [item_ok escape_item item_units].
  - intros _. apply parse_string_escape_char.
  - apply parse_string_lone.
  - intros [Hhi Hlo]. rewrite list_ascii_of_string_of_list_ascii.
    apply parse_string_raws, Forall_app. split; apply held_bytes; assumption.
Qed.

Lemma parse_string_items (l : list item) :
  Forall item_ok l ->
  forall (rest : list ascii) (acc : list (ascii + Z)),
    parse_string (list_ascii_of_string (escape_items l) ++ ascii_of_nat 34 :: rest) acc
    = inl (rev acc ++ flat_map item_units l, rest).
Proof.
  induction 1 as [| i l Hi _ IH]; intros rest acc.
  - cbn. rewrite app_nil_r. reflexivity.
  - cbn [escape_items flat_map].
    rewrite chars_app, <- app_assoc, (parse_string_item _ _ _ Hi), IH.
    rewrite rev_app_distr, rev_involutive, <- app_assoc. reflexivity.
Qed.

Lemma unit_of_not_low (c : ascii) :
  match unit_of c with
  | inr l => is_low_surrogate l = false
  | inl _ => True
  end.
Proof. each_byte c; first [exact I | reflexivity]. Qed.

Lemma encode_units_lone (u : Z) (us : list (ascii + Z)) :
  (is_high_surrogate u = true ->
   match us with
   | inr l :: _ => is_low_surrogate l = false
   | _ => True
   end) ->
  encode_units (inr u :: us) = utf8_encode u ++ encode_units us.
Proof.
  intros H. cbn [encode_units]. destruct (is_high_surrogate u); [| reflexivity].
  destruct us as [| [c | l] us]; try reflexivity. rewrite (H eq_refl). reflexivity.
Qed.

Lemma encode_units_raw (cs : list ascii) (us : list (ascii + Z)) :
  encode_units (map inl cs ++ us) = cs ++ encode_units us.
Proof. induction cs as [| c cs IH]; [reflexivity |]. cbn. rewrite IH. reflexivity. Qed.

(** What [head_item] takes off a string. *)
Lemma head_item_Some (s : string) (i : item) (r : string) :
  head_item s = Some (i, r) ->
  (String.length r < String.length s)%nat
  /\ item_ok i
  /\ list_ascii_of_string s = item_bytes i ++ list_ascii_of_string r
  /\ match i with
     | Lone u =>
         is_high_surrogate u = true ->
         forall l r', head_item r = Some (Lone l, r') -> is_low_surrogate l = false
     | _ => True
     end.
Proof.
  destruct s as [| c [| c2 [| c3 r3]]]; cbn [head_item]; try discriminate;
    try (intros [= <- <-]; cbn; repeat split; lia).
  destruct (surrogate c c2 c3) as [u |] eqn:S1;
    [| intros [= <- <-]; cbn; repeat split; lia].
  assert (Hu : held u) by (exists c, c2, c3; exact S1).
  pose proof (surrogate_Some _ _ _ _ S1) as (_ & Eu & _).
  assert (Hlone : forall P : Prop, P ->
            (String.length r3 < String.length (String c (String c2 (String c3 r3))))%nat
            /\ item_ok (Lone u)
            /\ list_ascii_of_string (String c (String c2 (String c3 r3)))
               = item_bytes (Lone u) ++ list_ascii_of_string r3
            /\ P).
  { intros P HP. cbn [item_ok item_bytes String.length list_ascii_of_string].
    rewrite Eu. repeat split; [lia | exact Hu | exact HP]. }
  destruct r3 as [| d [| d2 [| d3 r6]]];
    try (intros [= <- <-]; apply Hlone; intros _ l r'; cbn; discriminate).
  destruct (surrogate d d2 d3) as [l |] eqn:S2.
  - destruct (is_high_surrogate u && is_low_surrogate l) eqn:P; intros [= <- <-].
    + pose proof (surrogate_Some _ _ _ _ S2) as (_ & El & _).
      cbn [item_ok item_bytes String.length list_ascii_of_string].
      rewrite Eu, El. repeat split; [lia | exact Hu | exists d, d2, d3; exact S2].
    + apply Hlone. intros Hhigh l' r'. cbn [head_item]. rewrite S2, Hhigh in *.
      cbn [andb] in P. intros H.
      assert (l' = l) as ->.
      { destruct r6 as [| e [| e2 [| e3 r9]]]; try (injection H as <- _; reflexivity).
        destruct (surrogate e e2 e3) as [m |];
          [destruct (is_high_surrogate l && is_low_surrogate m) |];
          try discriminate H; injection H as <- _; reflexivity. }
      exact P.
  - intros [= <- <-]. apply Hlone. intros _ l r'. cbn [head_item]. rewrite S2.
    discriminate.
Qed.

Lemma items_from_spec (fuel : nat) :
  forall s : string,
    (String.length s <= fuel)%nat ->
    Forall item_ok (items_from fuel s)
    /\ encode_units (flat_map item_units (items_from fuel s)) = list_ascii_of_string s.
Proof.
  induction fuel as [| k IH]; intros s Hlen.
  - destruct s; [| cbn in Hlen; lia]. split; [constructor | reflexivity].
  - cbn [items_from]. destruct (head_item s) as [[i r] |] eqn:Hhead.
    + apply head_item_Some in Hhead as (Hr & Hi & Hs & Hafter).
      destruct (IH r ltac:(lia)) as [Hall Henc].
      split; [constructor; assumption |].
      cbn [flat_map]. rewrite Hs. destruct i as [c | u | hi lo]; cbn [item_units item_bytes app].
      * rewrite encode_units_unit_of, Henc. reflexivity.
      * rewrite encode_units_lone, Henc; [reflexivity |].
        intros Hhigh. destruct k as [| k']; [exact I |]. cbn [items_from].
        destruct (head_item r) as [[j r'] |] eqn:Hnext; [| exact I].
        destruct j as [d | l | l m]; cbn [flat_map item_units app].
        -- apply unit_of_not_low.
        -- exact (Hafter Hhigh l r' eq_refl).
        -- destruct Hi as (c & c2 & c3 & _).
           apply head_item_Some in Hnext as (_ & [(e & e2 & e3 & Hl) _] & _).
           apply surrogate_Some in Hl as (_ & -> & _). exact I.
      * rewrite encode_units_raw, Henc. reflexivity.
    + destruct s; [split; [constructor | reflexivity] |].
      destruct s as [| c2 [| c3 r3]]; try discriminate Hhead.
      cbn [head_item] in Hhead. destruct (surrogate a c2 c3); [| discriminate Hhead].
      destruct r3 as [| d [| d2 [| d3 r6]]]; try discriminate Hhead.
      destruct (surrogate d d2 d3); [| discriminate Hhead].
      destruct (_ && _); discriminate Hhead.
Qed.

(** A quoted string reads back as the string, whatever its bytes. *)
Lemma parse_string_value_quote (s : string) (rest : list ascii) :
  parse_string_value (list_ascii_of_string (escape s) ++ ascii_of_nat 34 :: rest)
  = inl (s, rest).
Proof.
  unfold parse_string_value, escape, items.
  destruct (items_from_spec (String.length s) s (le_n _)) as [Hall Henc].
  rewrite (parse_string_items _ Hall). cbn [rev app].
  rewrite Henc, string_of_list_ascii_of_string. reflexivity.
Qed.

Lemma delimited_cases (rest : list ascii) :
  delimited rest = true ->
  rest = [] \/ exists r, rest = ","%char :: r \/ rest = "]"%char :: r \/ rest = "}"%char :: r.
Proof.
  destruct rest as [| c r]; [left; reflexivity |]. intros H. right. exists r.
  revert H. each_byte c; cbn; intros H; try discriminate H; auto.
Qed.

Ltac each_delimiter H :=
  destruct (delimited_cases _ H) as [-> | [? [-> | [-> | ->]]]].

Lemma take_digits_digits (s : string) (rest : list ascii) :
  digits_only s -> delimited rest = true ->
  take_digits (list_ascii_of_string s ++ rest) = (list_ascii_of_string s, rest).
Proof.
  intros Hs Hrest. induction s as [| c s IH].
  - cbn. each_delimiter Hrest; reflexivity.
  - destruct Hs as [(d & Hd & ->) Hs]. cbn [list_ascii_of_string app take_digits].
    rewrite (IH Hs). each_digit Hd; reflexivity.
Qed.

Lemma digits_value_digits (s : string) :
  digits_only s ->
  forall a, digits_prefix 10 s (Some a)
            = Some (fold_left (fun acc c => acc * 10 + (code c - 48))
                      (list_ascii_of_string s) a).
Proof.
  induction s as [| c s IH]; intros Hs a; [reflexivity |].
  destruct Hs as [(d & Hd & ->) Hs].
  cbn [digits_prefix list_ascii_of_string fold_left].
  rewrite digit_value_digit_char by exact Hd. cbn [nullish]. rewrite (IH Hs).
  do 2 f_equal. each_digit Hd; reflexivity.
Qed.

Lemma digits_value_prefix (s : string) (v : Z) :
  digits_only s -> digits_prefix 10 s None = Some v ->
  digits_value (list_ascii_of_string s) = v.
Proof.
  intros Hs H. destruct s as [| c s]; [discriminate H |].
  destruct Hs as [(d & Hd & ->) Hs]. unfold digits_value.
  cbn [digits_prefix list_ascii_of_string fold_left] in *.
  rewrite digit_value_digit_char in H by exact Hd. cbn [nullish] in H.
  rewrite (digits_value_digits _ Hs) in H. injection H as <-.
  f_equal. each_digit Hd; reflexivity.
Qed.

(** A positive integer does not start with the digit 0. *)
Lemma decimal_head (fuel : nat) :
  forall (n : Z) (acc : string),
    0 < n /\ n < 2 ^ Z.of_nat (S fuel) ->
    exists d t, 1 <= d < 10 /\ decimal (S fuel) n acc = String (digit_char d) t.
Proof.
  induction fuel as [| fuel IH]; intros n acc Hn; rewrite decimal_S.
  - change (2 ^ Z.of_nat 1) with 2 in Hn.
    assert (Hlt : (n <? 10) = true) by (apply Z.ltb_lt; lia).
    rewrite Hlt. exists n, acc. rewrite Z.mod_small by lia. split; [lia | reflexivity].
  - destruct (n <? 10) eqn:Hlt.
    + apply Z.ltb_lt in Hlt. exists n, acc. rewrite Z.mod_small by lia.
      split; [lia | reflexivity].
    + apply Z.ltb_ge in Hlt. apply IH. split.
      * apply Z.div_str_pos. lia.
      * apply Z.div_lt_upper_bound; [lia |].
        rewrite (Nat2Z.inj_succ (S fuel)), Z.pow_succ_r in Hn by lia. lia.
Qed.

Ltac concrete_digit :=
  match goal with
  | |- context [digit_char ?d] =>
      let c := eval vm_compute in (digit_char d) in
      change (digit_char d) with c in *
  end.

Ltac concrete_is_digit :=
  match goal with
  | |- context [is_digit ?c] =>
      let b := eval vm_compute in (is_digit c) in
      change (is_digit c) with b
  end.

(** The digits of a positive safe integer, read as a JSON number. *)
Lemma parse_number_digits (s : string) (d : Z) (t : string) (v : Z)
    (rest : list ascii) :
  s = String (digit_char d) t -> 1 <= d < 10 ->
  digits_only s -> digits_prefix 10 s None = Some v ->
  v <= 9007199254740991 ->
  delimited rest = true ->
  parse_number (list_ascii_of_string s ++ rest) = inl (JNum (Int v), rest)
  /\ parse_number ("-"%char :: list_ascii_of_string s ++ rest) = inl (JNum (Int (- v)), rest).
Proof.
  intros Hs Hd Hdigits Hv Hsafe Hrest.
  pose proof (take_digits_digits s rest Hdigits Hrest) as Htake.
  pose proof (digits_value_prefix s v Hdigits Hv) as Hval.
  assert (Htail : forall neg,
            parse_number_tail neg (list_ascii_of_string s) rest
            = inl (JNum (Int (if neg then - digits_value (list_ascii_of_string s)
                              else digits_value (list_ascii_of_string s))), rest)).
  { intros neg.
    assert (Hliteral : number_of_literal neg (list_ascii_of_string s) [] None
                       = Int (if neg then - digits_value (list_ascii_of_string s)
                              else digits_value (list_ascii_of_string s))).
    { unfold number_of_literal. rewrite app_nil_r, Hval.
      destruct (v <=? 9007199254740991) eqn:Hle; [reflexivity |].
      apply Z.leb_gt in Hle. lia. }
    rewrite <- Hliteral. each_delimiter Hrest; reflexivity. }
  subst s. cbn [list_ascii_of_string app] in *.
  unfold parse_number.
  assert (Hd' : 0 <= d < 10) by lia.
  split; each_digit Hd'; try lia; concrete_digit; cbv beta iota; rewrite Htake;
    concrete_is_digit; cbv beta iota; rewrite Htail, Hval; reflexivity.
Qed.

Lemma json_nested_ind (P : json -> Prop) :
  P JNull ->
  (forall b, P (JBool b)) ->
  (forall n, P (JNum n)) ->
  (forall s, P (JStr s)) ->
  (forall items, Forall P items -> P (JArr items)) ->
  (forall fields, Forall (fun kv => P (snd kv)) fields -> P (JObj fields)) ->
  forall v, P v.
Proof.
  intros Hnull Hbool Hnum Hstr Harr Hobj.
  fix IH 1. intros [| b | n | s | items | fields].
  - exact Hnull.
  - apply Hbool.
  - apply Hnum.
  - apply Hstr.
  - apply Harr. induction items as [| x items IHitems]; constructor;
      [apply IH | exact IHitems].
  - apply Hobj. induction fields as [| [k x] fields IHfields]; constructor;
      [apply IH | exact IHfields].
Qed.

Lemma string_length_app (s t : string) :
  String.length (s +:+ t) = (String.length s + String.length t)%nat.
Proof. induction s as [| c s IH]; [reflexivity |]. simpl. f_equal. exact IH. Qed.

Lemma set_property_append (k : string) (v : json) (acc : list (string * json)) :
  can_append k (map fst acc) = true -> set_property k v acc = acc ++ [(k, v)].
Proof.
  induction acc as [| [k' v'] acc IH]; [reflexivity |].
  cbn [map fst can_append forallb set_property app].
  intros H. apply andb_prop in H as [H Hacc]. apply andb_prop in H as [Hne Hidx].
  apply negb_true_iff in Hne. rewrite Hne. specialize (IH Hacc). clear Hacc.
  destruct (array_index k) as [n |], (array_index k') as [n' |];
    try discriminate Hidx.
  - apply negb_true_iff in Hidx. rewrite Hidx, IH. reflexivity.
  - rewrite IH. reflexivity.
  - rewrite IH. reflexivity.
Qed.

Lemma fold_set_property (fields : list (string * json)) :
  forall acc,
    ordered_from (map fst acc) (map fst fields) = true ->
    fold_left (fun a kv => set_property (fst kv) (snd kv) a) fields acc = acc ++ fields.
Proof.
  induction fields as [| [k v] fields IH]; intros acc H.
  - rewrite app_nil_r. reflexivity.
  - cbn [map fst ordered_from] in H. apply andb_prop in H as [Hk H].
    cbn [fold_left fst snd]. rewrite (set_property_append _ _ _ Hk).
    rewrite IH.
    + rewrite <- app_assoc. reflexivity.
    + rewrite map_app. exact H.
Qed.

(** The dispatch of [parse_value] on the first byte. *)
Lemma parse_value_number (k : nat) (c : ascii) (r : list ascii) :
  is_digit c || (code c =? 45) = true ->
  parse_value (S k) (c :: r) = parse_number (c :: r).
Proof. each_byte c; cbn; intros H; try discriminate H; reflexivity. Qed.

Lemma parse_value_string (k : nat) (r : list ascii) :
  parse_value (S k) (ascii_of_nat 34 :: r)
  = match parse_string_value r with
    | inl (str, r') => inl (JStr str, r')
    | inr e => inr e
    end.
Proof. reflexivity. Qed.

Lemma parse_value_array (k : nat) (r : list ascii) :
  parse_value (S k) ("["%char :: r)
  = match skip_ws r with
    | "]"%char :: r' => inl (JArr [], r')
    | r' => parse_elements k r' []
    end.
Proof. reflexivity. Qed.

Lemma parse_value_object (k : nat) (r : list ascii) :
  parse_value (S k) ("{"%char :: r)
  = match skip_ws r with
    | "}"%char :: r' => inl (JObj [], r')
    | r' => parse_members k r' []
    end.
Proof. reflexivity. Qed.

Lemma parse_elements_S (k : nat) (s : list ascii) (acc : list json) :
  parse_elements (S k) s acc
  = match parse_value k s with
    | inr e => inr e
    | inl (v, r) =>
        match skip_ws r with
        | ","%char :: r' => parse_elements k r' (v :: acc)
        | "]"%char :: r' => inl (JArr (rev (v :: acc)), r')
        | r' => inr r'
        end
    end.
Proof. reflexivity. Qed.

Lemma parse_members_S (k : nat) (r : list ascii) (acc : list (string * json)) :
  parse_members (S k) (ascii_of_nat 34 :: r) acc
  = match parse_string_value r with
    | inr e => inr e
    | inl (key, r1) =>
        match skip_ws r1 with
        | ":"%char :: r2 =>
            match parse_value k r2 with
            | inr e => inr e
            | inl (v, r3) =>
                let acc' := set_property key v acc in
                match skip_ws r3 with
                | ","%char :: r4 => parse_members k r4 acc'
                | "}"%char :: r4 => inl (JObj acc', r4)
                | r4 => inr r4
                end
            end
        | r2 => inr r2
        end
    end.
Proof. reflexivity. Qed.

Lemma Z_toString_shape (z : Z) :
  z = 0
  \/ exists d t v,
       1 <= d < 10 /\ 0 < v /\ digits_only (String (digit_char d) t)
       /\ digits_prefix 10 (String (digit_char d) t) None = Some v
       /\ ((0 < z /\ z = v /\ Z_toString z = String (digit_char d) t)
           \/ (z < 0 /\ z = - v /\ Z_toString z = String "-" (String (digit_char d) t))).
Proof.
  destruct (Z.eq_dec z 0) as [-> | Hz]; [left; reflexivity | right].
  unfold Z_toString.
  set (n := Z.abs z). set (fuel := Z.to_nat (Z.log2 n)).
  assert (Hn : 0 < n /\ n < 2 ^ Z.of_nat (S fuel)).
  { subst fuel. rewrite Nat2Z.inj_succ, Z2Nat.id by apply Z.log2_nonneg.
    split; [subst n; lia |]. apply Z.log2_spec. subst n. lia. }
  destruct (decimal_head fuel n "" Hn) as (d & t & Hd & Heq).
  assert (Hn' : 0 <= n /\ n < 2 ^ Z.of_nat (S fuel)) by lia.
  destruct (digits_prefix_decimal fuel n "" None Hn') as (k & Hk & _).
  cbn [digits_prefix nullish] in Hk. rewrite Z.mul_0_l, Z.add_0_l in Hk.
  pose proof (decimal_digits_only (S fuel) n "" (proj1 Hn') I) as Hdig.
  rewrite Heq in Hk, Hdig |- *.
  exists d, t, n. repeat (split; [first [exact Hd | lia | assumption] |]).
  destruct (z <? 0) eqn:Hneg.
  - apply Z.ltb_lt in Hneg. right. subst n. repeat split; lia || reflexivity.
  - apply Z.ltb_ge in Hneg. left. subst n. repeat split; lia || reflexivity.
Qed.

Lemma parse_value_Z (k : nat) (z : Z) (rest : list ascii) :
  Z.abs z <= 9007199254740991 ->
  delimited rest = true ->
  parse_value (S k) (list_ascii_of_string (Z_toString z) ++ rest) = inl (JNum (Int z), rest).
Proof.
  intros Hsafe Hrest.
  destruct (Z_toString_shape z)
    as [-> | (d & t & v & Hd & Hv & Hdig & Hpre & [(Hz & -> & ->) | (Hz & -> & ->)])].
  - each_delimiter Hrest; reflexivity.
  - destruct (parse_number_digits _ d t v rest eq_refl Hd Hdig Hpre ltac:(lia) Hrest)
      as [<- _].
    cbn [list_ascii_of_string app]. apply parse_value_number.
    assert (Hd' : 0 <= d < 10) by lia. each_digit Hd'; reflexivity.
  - destruct (parse_number_digits _ d t v rest eq_refl Hd Hdig Hpre ltac:(lia) Hrest)
      as [_ <-].
    cbn [list_ascii_of_string app]. apply parse_value_number. reflexivity.
Qed.

Lemma value_start_Z (z : Z) (rest : list ascii) :
  value_start (list_ascii_of_string (Z_toString z) ++ rest) = true.
Proof.
  destruct (Z_toString_shape z)
    as [-> | (d & t & v & Hd & _ & _ & _ & [(_ & _ & ->) | (_ & _ & ->)])];
    [reflexivity | | reflexivity].
  assert (Hd' : 0 <= d < 10) by lia. each_digit Hd'; reflexivity.
Qed.

Lemma chars_quote (s : string) (rest : list ascii) :
  list_ascii_of_string (quote s) ++ rest = ascii_of_nat 34 :: (list_ascii_of_string (escape s) ++ ascii_of_nat 34 :: rest).
Proof.
  unfold quote, dquote. rewrite !chars_app. cbn [list_ascii_of_string app].
  rewrite <- app_assoc. reflexivity.
Qed.

Lemma value_start_stringify (v : json) (rest : list ascii) :
  canonical v = true -> value_start (list_ascii_of_string (JSON_stringify v) ++ rest) = true.
Proof.
  destruct v as [| [] | [z | t | | neg] | s | items | fields]; intros H;
    try reflexivity; try discriminate H.
  apply value_start_Z.
Qed.

Lemma parse_value_array_nonempty (k : nat) (s : list ascii) :
  value_start s = true -> parse_value (S k) ("["%char :: s) = parse_elements k s [].
Proof.
  rewrite parse_value_array. destruct s as [| c r]; [discriminate |].
  each_byte c; cbn; intros H; try discriminate H; reflexivity.
Qed.

Lemma concat_cons2 (sep x y : string) (l : list string) :
  String.concat sep (x :: y :: l) = x +:+ sep +:+ String.concat sep (y :: l).
Proof. reflexivity. Qed.

Lemma parse_elements_stringify (items : list json) :
  items <> [] ->
  Forall reads_back items ->
  forallb canonical items = true ->
  forall (fuel : nat) (acc : list json) (rest : list ascii),
    (2 * String.length (String.concat "," (map JSON_stringify items)) + 1 <= fuel)%nat ->
    delimited rest = true ->
    parse_elements fuel
      (list_ascii_of_string (String.concat "," (map JSON_stringify items)) ++ "]"%char :: rest) acc
    = inl (JArr (rev acc ++ items), rest).
Proof.
  induction items as [| x items IH]; [congruence |].
  intros _ Hall Hcan fuel acc rest Hfuel Hrest.
  apply Forall_cons_iff in Hall as [Hx Hall].
  cbn [forallb] in Hcan. apply andb_prop in Hcan as [Hcx Hcan].
  destruct fuel as [| k]; [lia |]. rewrite parse_elements_S.
  destruct items as [| y items].
  - cbn [map String.concat] in *.
    rewrite (Hx Hcx k ("]"%char :: rest)) by (lia || reflexivity).
    reflexivity.
  - cbn [map] in *. rewrite concat_cons2 in *.
    rewrite !string_length_app in Hfuel. cbn [String.length] in Hfuel.
    rewrite !chars_app, <- !app_assoc. cbn [list_ascii_of_string app].
    rewrite (Hx Hcx k) by (lia || reflexivity).
    change (skip_ws (","%char :: ?r)) with (","%char :: r). cbv iota.
    rewrite (IH ltac:(discriminate) Hall Hcan k (x :: acc) rest) by (lia || assumption).
    cbn [rev]. rewrite <- app_assoc. reflexivity.
Qed.

Lemma chars_member (kv : string * json) (rest : list ascii) :
  list_ascii_of_string (member kv) ++ rest
  = ascii_of_nat 34
    :: (list_ascii_of_string (escape (fst kv))
        ++ ascii_of_nat 34 :: ":"%char :: (list_ascii_of_string (JSON_stringify (snd kv)) ++ rest)).
Proof.
  unfold member. rewrite !chars_app, <- !app_assoc, chars_quote.
  cbn [list_ascii_of_string app]. reflexivity.
Qed.

Lemma member_length (kv : string * json) :
  (String.length (JSON_stringify (snd kv)) + 3 <= String.length (member kv))%nat.
Proof.
  unfold member, quote, dquote. rewrite !string_length_app. cbn [String.length]. lia.
Qed.

Lemma parse_members_stringify (fields : list (string * json)) :
  fields <> [] ->
  Forall (fun kv => reads_back (snd kv)) fields ->
  forallb (fun kv => canonical (snd kv)) fields = true ->
  forall (fuel : nat) (acc : list (string * json)) (rest : list ascii),
    (2 * String.length (String.concat "," (map member fields)) + 1 <= fuel)%nat ->
    delimited rest = true ->
    parse_members fuel
      (list_ascii_of_string (String.concat "," (map member fields)) ++ "}"%char :: rest) acc
    = inl (JObj (fold_left (fun a kv => set_property (fst kv) (snd kv) a) fields acc),
           rest).
Proof.
  induction fields as [| x fields IH]; [congruence |].
  intros _ Hall Hcan fuel acc rest Hfuel Hrest.
  apply Forall_cons_iff in Hall as [Hx Hall].
  cbn [forallb] in Hcan. apply andb_prop in Hcan as [Hcx Hcan].
  destruct fuel as [| k]; [lia |].
  pose proof (member_length x) as Hlen.
  destruct fields as [| y fields].
  - cbn [map String.concat] in *.
    rewrite chars_member, parse_members_S, parse_string_value_quote.
    change (skip_ws (":"%char :: ?r)) with (":"%char :: r). cbv iota.
    rewrite (Hx Hcx k ("}"%char :: rest)) by (lia || reflexivity).
    reflexivity.
  - cbn [map] in *. rewrite concat_cons2 in *.
    rewrite !string_length_app in Hfuel. cbn [String.length] in Hfuel.
    rewrite chars_app, <- app_assoc, chars_member, parse_members_S,
      parse_string_value_quote.
    change (skip_ws (":"%char :: ?r)) with (":"%char :: r). cbv iota.
    rewrite chars_app, <- app_assoc. cbn [list_ascii_of_string app].
    rewrite (Hx Hcx k) by (lia || reflexivity).
    cbv zeta. change (skip_ws (","%char :: ?r)) with (","%char :: r). cbv iota.
    rewrite (IH ltac:(discriminate) Hall Hcan k _ rest) by (lia || assumption).
    reflexivity.
Qed.

Lemma stringify_array (items : list json) (rest : list ascii) :
  list_ascii_of_string (JSON_stringify (JArr items)) ++ rest
  = "["%char :: (list_ascii_of_string (String.concat "," (map JSON_stringify items)) ++ "]"%char :: rest).
Proof.
  cbn [JSON_stringify]. rewrite !chars_app, <- !app_assoc. reflexivity.
Qed.

Lemma stringify_object (fields : list (string * json)) (rest : list ascii) :
  list_ascii_of_string (JSON_stringify (JObj fields)) ++ rest
  = "{"%char :: (list_ascii_of_string (String.concat "," (map member fields)) ++ "}"%char :: rest).
Proof.
  cbn [JSON_stringify]. rewrite !chars_app, <- !app_assoc. reflexivity.
Qed.

Lemma stringify_array_length (items : list json) :
  String.length (JSON_stringify (JArr items))
  = (String.length (String.concat "," (map JSON_stringify items)) + 2)%nat.
Proof.
  cbn [JSON_stringify]. rewrite !string_length_app. cbn [String.length]. lia.
Qed.

Lemma stringify_object_length (fields : list (string * json)) :
  String.length (JSON_stringify (JObj fields))
  = (String.length (String.concat "," (map member fields)) + 2)%nat.
Proof.
  cbn [JSON_stringify]. rewrite !string_length_app. cbn [String.length].
  unfold member. lia.
Qed.

Lemma value_start_concat (items : list json) (rest : list ascii) :
  items <> [] -> forallb canonical items = true ->
  value_start (list_ascii_of_string (String.concat "," (map JSON_stringify items)) ++ rest) = true.
Proof.
  destruct items as [| x [| y items]]; [congruence | |]; intros _ H;
    cbn [forallb] in H; apply andb_prop in H as [Hx _].
  - apply value_start_stringify, Hx.
  - cbn [map]. rewrite concat_cons2, chars_app, <- app_assoc.
    apply value_start_stringify, Hx.
Qed.

Lemma members_start (fields : list (string * json)) (rest : list ascii) :
  fields <> [] ->
  exists r, list_ascii_of_string (String.concat "," (map member fields)) ++ rest = ascii_of_nat 34 :: r.
Proof.
  destruct fields as [| x [| y fields]]; [congruence | |]; intros _.
  - cbn [map String.concat]. rewrite chars_member. eauto.
  - cbn [map]. rewrite concat_cons2, chars_app, <- app_assoc, chars_member. eauto.
Qed.

Lemma parse_value_object_nonempty (k : nat) (r : list ascii) :
  parse_value (S k) ("{"%char :: ascii_of_nat 34 :: r)
  = parse_members k (ascii_of_nat 34 :: r) [].
Proof. reflexivity. Qed.

Lemma Z_toString_length (z : Z) : (1 <= String.length (Z_toString z))%nat.
Proof.
  destruct (Z_toString_shape z) as [-> | (d & t & v & _ & _ & _ & _ & [H | H])];
    [vm_compute; lia | |]; destruct H as (_ & _ & ->); cbn [String.length]; lia.
Qed.

(** Every canonical value is read back from its text. *)
Lemma canonical_reads_back (v : json) : reads_back v.
Proof.
  induction v as [| b | n | s | items IH | fields IH] using json_nested_ind;
    intros Hcan fuel rest Hfuel Hrest.
  - destruct fuel as [| k]; [cbn in Hfuel; lia |]. reflexivity.
  - destruct fuel as [| k]; [destruct b; cbn in Hfuel; lia |].
    destruct b; reflexivity.
  - destruct n as [z | t | | neg]; try discriminate Hcan.
    cbn [canonical] in Hcan. apply Z.leb_le in Hcan.
    destruct fuel as [| k].
    + pose proof (Z_toString_length z) as Hlen.
      cbn [JSON_stringify number_json Number_toString is_finite] in Hfuel. lia.
    + apply parse_value_Z; assumption.
  - destruct fuel as [| k];
      [cbn [JSON_stringify] in Hfuel; unfold quote, dquote in Hfuel;
       rewrite !string_length_app in Hfuel; cbn in Hfuel; lia |].
    cbn [JSON_stringify]. rewrite chars_quote, parse_value_string,
      parse_string_value_quote. reflexivity.
  - rewrite stringify_array_length in Hfuel. rewrite stringify_array.
    destruct fuel as [| k]; [lia |].
    destruct items as [| x items]; [reflexivity |].
    cbn [canonical] in Hcan.
    rewrite parse_value_array_nonempty
      by (apply value_start_concat; [discriminate | exact Hcan]).
    rewrite (parse_elements_stringify (x :: items) ltac:(discriminate) IH Hcan k [] rest)
      by (lia || assumption).
    reflexivity.
  - rewrite stringify_object_length in Hfuel. rewrite stringify_object.
    destruct fuel as [| k]; [lia |].
    destruct fields as [| x fields]; [reflexivity |].
    cbn [canonical] in Hcan. apply andb_prop in Hcan as [Hord Hcan].
    destruct (members_start (x :: fields) ("}"%char :: rest) ltac:(discriminate))
      as [r Hr].
    rewrite Hr, parse_value_object_nonempty, <- Hr.
    rewrite (parse_members_stringify (x :: fields) ltac:(discriminate) IH Hcan k [] rest)
      by (lia || assumption).
    rewrite (fold_set_property (x :: fields) []) by exact Hord.
    reflexivity.
Qed.

(** A text that is the compact text of a canonical value parses to it. *)
Lemma stringify_parses (v : json) (text : string) :
  canonical v = true -> text = JSON_stringify v -> JSON_parse text = inl v.
Proof.
  intros Hcan ->. unfold JSON_parse.
  pose proof (canonical_reads_back v Hcan
                (2 * List.length (list_ascii_of_string (JSON_stringify v)) + 2)%nat [])
    as H.
  rewrite app_nil_r in H. rewrite H; [reflexivity | | reflexivity].
  rewrite chars_length. lia.
Qed.

(** ** The signature *)

Lemma rounds_length (ks : list Z) :
  forall ws st, List.length st = 8%nat -> List.length (Crypto.rounds ks ws st) = 8%nat.
Proof.
  induction ks as [| k ks IH]; intros ws st Hst; [destruct ws, st; exact Hst |].
  destruct ws as [| w ws]; [exact Hst |].
  do 8 (destruct st as [| ? st]; [discriminate Hst |]).
  destruct st; [| discriminate Hst].
  cbn [Crypto.rounds]. apply IH. reflexivity.
Qed.

Lemma zip_add_length (xs : list Z) :
  forall ys, List.length ys = List.length xs ->
             List.length (Crypto.zip_add xs ys) = List.length xs.
Proof.
  induction xs as [| x xs IH]; intros [| y ys] H; try discriminate H; [reflexivity |].
  cbn. f_equal. apply IH. injection H as H. exact H.
Qed.

Lemma blocks_length (fuel : nat) :
  forall ws st, List.length st = 8%nat -> List.length (Crypto.blocks fuel ws st) = 8%nat.
Proof.
  induction fuel as [| fuel IH]; intros ws st Hst; [exact Hst |].
  cbn [Crypto.blocks]. destruct ws as [| w ws]; [exact Hst |].
  apply IH. rewrite zip_add_length; [exact Hst |].
  rewrite rounds_length; [symmetry |]; exact Hst.
Qed.

Lemma be_bytes_range (n : nat) (x : Z) :
  Forall (fun b => 0 <= b < 256) (Crypto.be_bytes n x).
Proof.
  induction n as [| n IH]; constructor; [| exact IH].
  apply Z.mod_pos_bound. lia.
Qed.

Lemma be_bytes_length (n : nat) (x : Z) : List.length (Crypto.be_bytes n x) = n.
Proof. induction n as [| n IH]; [reflexivity |]. cbn. f_equal. exact IH. Qed.

Lemma sha256_length (msg : bytes) : List.length (Crypto.sha256 msg) = 32%nat.
Proof.
  unfold Crypto.sha256.
  set (ws := Crypto.words _ _).
  pose proof (blocks_length (List.length ws) ws Crypto.H256 eq_refl) as H.
  destruct (Crypto.blocks _ _ _) as [| a l]; [discriminate H |].
  do 7 (destruct l as [| ? l]; [discriminate H |]).
  destruct l; [| discriminate H].
  cbn [flat_map]. rewrite !length_app, !be_bytes_length. reflexivity.
Qed.

Lemma sha256_range (msg : bytes) : Forall (fun b => 0 <= b < 256) (Crypto.sha256 msg).
Proof.
  unfold Crypto.sha256. apply Forall_flat_map, Forall_forall.
  intros x _. apply be_bytes_range.
Qed.

Lemma hex_length (bs : bytes) : String.length (Crypto.hex bs) = (2 * List.length bs)%nat.
Proof. induction bs as [| b bs IH]; [reflexivity |]. cbn. rewrite IH. lia. Qed.

Lemma hex_digit_lower (d : Z) : 0 <= d < 16 -> is_lower_hex (Crypto.hex_digit d) = true.
Proof.
  intros H.
  assert (Hc : d = 0 \/ d = 1 \/ d = 2 \/ d = 3 \/ d = 4 \/ d = 5 \/ d = 6 \/ d = 7
               \/ d = 8 \/ d = 9 \/ d = 10 \/ d = 11 \/ d = 12 \/ d = 13 \/ d = 14
               \/ d = 15) by lia.
  repeat (destruct Hc as [-> | Hc]; [reflexivity |]). subst. reflexivity.
Qed.

Lemma hex_lower (bs : bytes) :
  Forall (fun b => 0 <= b < 256) bs ->
  forallb is_lower_hex (list_ascii_of_string (Crypto.hex bs)) = true.
Proof.
  induction 1 as [| b bs Hb _ IH]; [reflexivity |].
  cbn [Crypto.hex list_ascii_of_string forallb]. rewrite IH.
  rewrite !hex_digit_lower; [reflexivity | |].
  - apply Z.mod_pos_bound. lia.
  - split; [apply Z.div_pos; lia | apply Z.div_lt_upper_bound; lia].
Qed.

(** X6.  Whatever the private credential and the data, the signature is a
    text of exactly 64 characters, each a lower-case hexadecimal digit. *)
Theorem generateSignature_is_64_hex (cfg : config) (data : string) :
  String.length (generateSignature cfg data) = 64%nat
  /\ forallb is_lower_hex (list_ascii_of_string (generateSignature cfg data)) = true.
Proof.
  unfold generateSignature, Crypto.hmac_sha256. split.
  - rewrite hex_length, sha256_length. reflexivity.
  - apply hex_lower, sha256_range.
Qed.

(** ** Outcome and the clock *)

Lemma signed_request_same_second (cfg : config) (t1 t2 : Z) (command : string) (params : json) :
  t1 / 1000 = t2 / 1000 ->
  signed_request cfg t1 command params = signed_request cfg t2 command params.
Proof. intros H. unfold signed_request. rewrite H. reflexivity. Qed.

(** The contract on a world whose clock shows the same second and whose log
    is another one: the same envelope, the same requests added. *)
Lemma respond_frame (cfg : config) (command : string) (params : json)
    (w : world) (t2 : Z) (log : list request) :
  t2 / 1000 = now w / 1000 ->
  exists e new,
    respond cfg command params w
    = (Returned e, {| now := now w; remote := remote w; posted := posted w ++ new |})
    /\ respond cfg command params {| now := t2; remote := remote w; posted := log |}
       = (Returned e, {| now := t2; remote := remote w; posted := log ++ new |})
    /\ (List.length new <= 1)%nat.
Proof.
  intros Ht.
  assert (Hnil : forall (t : Z) (l : list request),
            {| now := t; remote := remote w; posted := l |}
            = {| now := t; remote := remote w; posted := l ++ [] |})
    by (intros; rewrite app_nil_r; reflexivity).
  destruct (string_dec (PUBLIC_KEY cfg) "") as [Hpub | Hpub].
  { exists (failure config_message), [].
    rewrite !respond_unconfigured by (left; exact Hpub).
    destruct w as [t r l]. cbn [now remote posted]. rewrite <- !Hnil. cbn. auto. }
  destruct (string_dec (PRIVATE_KEY cfg) "") as [Hpriv | Hpriv].
  { exists (failure config_message), [].
    rewrite !respond_unconfigured by (right; exact Hpriv).
    destruct w as [t r l]. cbn [now remote posted]. rewrite <- !Hnil. cbn. auto. }
  rewrite !(respond_configured _ _ _ _ Hpub Hpriv). cbn [now remote posted].
  rewrite (signed_request_same_second cfg t2 (now w) _ _ Ht).
  eexists _, [_]. split; [reflexivity |]. split; [reflexivity | cbn; lia].
Qed.

Lemma callback_frame (cfg : config) (t : tool) :
  In t (tools (createServer cfg)) ->
  forall (a : Args t) (w : world) (t2 : Z) (log : list request),
    t2 / 1000 = now w / 1000 ->
    exists e new,
      callback t a w
      = (Returned e, {| now := now w; remote := remote w; posted := posted w ++ new |})
      /\ callback t a {| now := t2; remote := remote w; posted := log |}
         = (Returned e, {| now := t2; remote := remote w; posted := log ++ new |})
      /\ (List.length new <= 1)%nat.
Proof.
  intros Hin a w t2 log Ht.
  destruct (registered_tools cfg t Hin) as [(command & params & Heq) | [_ Hraw]].
  - rewrite !Heq. apply respond_frame, Ht.
  - destruct (Hraw a) as [a' ->].
    destruct (JSON_parse (raw_api_call.params a')) as [parsed | e] eqn:Hparse.
    + rewrite !(raw_api_call_parsed _ _ _ Hparse). apply respond_frame, Ht.
    + rewrite !(raw_api_call_rejected _ _ _ _ Hparse).
      exists (failure (message e)), []. rewrite !app_nil_r.
      destruct w; cbn. auto.
Qed.

(** X3.  The clock enters a request only through its whole second: two calls
    of a tool with the same arguments in worlds that differ only by a clock
    within the same second return the same envelope and post the same
    requests, signature included. *)
Theorem same_second_same_request (cfg : config) (t : tool) :
  In t (tools (createServer cfg)) ->
  forall (a : Args t) (w1 w2 : world),
    remote w1 = remote w2 ->
    posted w1 = posted w2 ->
    now w1 / 1000 = now w2 / 1000 ->
    fst (callback t a w1) = fst (callback t a w2)
    /\ posted (snd (callback t a w1)) = posted (snd (callback t a w2)).
Proof.
  intros Hin a w1 [t2 r2 l2] Hr Hl Ht. cbn [now remote posted] in Hr, Hl, Ht.
  subst r2 l2.
  destruct (callback_frame cfg t Hin a w1 t2 (posted w1) (eq_sym Ht))
    as (e & new & -> & -> & _).
  split; reflexivity.
Qed.

Lemma same_second_same_request_witness :
  fst (cancel_order.handler Scenario.cfg {| cancel_order.order_id := Int 7 |}
         Scenario.world0)
  = fst (cancel_order.handler Scenario.cfg {| cancel_order.order_id := Int 7 |}
           Examples.world_later)
  /\ posted (snd (cancel_order.handler Scenario.cfg {| cancel_order.order_id := Int 7 |}
                    Scenario.world0))
     = posted (snd (cancel_order.handler Scenario.cfg {| cancel_order.order_id := Int 7 |}
                      Examples.world_later)).
Proof.
  refine (same_second_same_request Scenario.cfg Examples.cancel_order_tool _
            {| cancel_order.order_id := Int 7 |} Scenario.world0 Examples.world_later
            _ _ _).
  - cbn. do 3 right. left. reflexivity.
  - reflexivity.
  - reflexivity.
  - vm_compute. reflexivity.
Defined.

(** X1.  With credentials set, every tool other than [raw_api_call] makes one
    attempt: it posts exactly one request and returns the success envelope
    with the pretty-printed answer when the remote answers it, and the error
    envelope with the transport error's message when the remote rejects it;
    nothing is retried. *)
Theorem tool_outcome_follows_remote (cfg : config) (t : tool) :
  PUBLIC_KEY cfg <> "" ->
  PRIVATE_KEY cfg <> "" ->
  In t (tools (createServer cfg)) ->
  name t <> "raw_api_call" ->
  forall (a : Args t) (w : world),
  exists req,
    method req = "POST"
    /\ callback t a w =
         (Returned
            match remote w req with
            | inl body =>
                {| content := [{| type := "text"; text := JSON_stringify_gap "" body |}];
                   isError := None |}
            | inr msg =>
                {| content := [{| type := "text"; text := "Error: " +:+ msg |}];
                   isError := Some true |}
            end,
          {| now := now w; remote := remote w; posted := posted w ++ [req] |}).
Proof.
  intros Hpub Hpriv Hin Hname a w.
  destruct (registered_tools cfg t Hin) as [(command & params & Heq) | [Hraw _]];
    [| contradiction].
  exists (signed_request cfg (now w) command (params a)).
  split; [reflexivity |].
  rewrite Heq, (respond_configured _ _ _ _ Hpub Hpriv).
  destruct (remote w _); reflexivity.
Qed.

Lemma tool_outcome_follows_remote_witness :
  exists req,
    cancel_order.handler Scenario.cfg {| cancel_order.order_id := Int 7 |}
      Scenario.world_down
    = (Returned {| content := [{| type := "text";
                                  text := "Error: Request failed with status code 503" |}];
                   isError := Some true |},
       {| now := now Scenario.world_down; remote := remote Scenario.world_down;
          posted := [req] |}).
Proof.
  destruct (tool_outcome_follows_remote Scenario.cfg Examples.cancel_order_tool)
    with (a := {| cancel_order.order_id := Int 7 |}) (w := Scenario.world_down)
    as (req & _ & H).
  - vm_compute. discriminate.
  - vm_compute. discriminate.
  - cbn. do 3 right. left. reflexivity.
  - cbn. discriminate.
  - exists req. exact H.
Defined.

(** X5.  The base URL is taken from TRADERNET_API_URL as it stands, the
    empty string included (only an absent variable gives the default), and
    the request goes to it followed by [/] and the command. *)
Theorem api_url_taken_as_is
    (env : gmap string string) (command : string) (params : json) (w : world) :
  PUBLIC_KEY (configure env) <> "" ->
  PRIVATE_KEY (configure env) <> "" ->
  exists req,
    posted (snd (callApi (configure env) command params w)) = posted w ++ [req]
    /\ url req =
         match env !! "TRADERNET_API_URL" with
         | Some base => base
         | None => "https://tradernet.com/api"
         end +:+ "/" +:+ command.
Proof.
  intros Hpub Hpriv.
  exists (signed_request (configure env) (now w) command params).
  rewrite (callApi_configured _ _ _ _ Hpub Hpriv). split; reflexivity.
Qed.

Lemma api_url_taken_as_is_witness :
  exists req,
    posted (snd (callApi (configure Examples.env_empty_url) "getOPQ" (JObj [])
                   Scenario.world0)) = [req]
    /\ url req = "/getOPQ".
Proof.
  destruct (api_url_taken_as_is Examples.env_empty_url "getOPQ" (JObj [])
              Scenario.world0) as (req & Hposted & Hurl).
  - vm_compute. discriminate.
  - vm_compute. discriminate.
  - exists req. split; [exact Hposted |]. rewrite Hurl. vm_compute. reflexivity.
Defined.

(** ** What each schema combinator accepts *)

Lemma z_string_Some (v : option json) (s : string) :
  z_string v = Some s <-> v = Some (JStr s).
Proof.
  unfold z_string. destruct v as [[| | | s' | |] |]; split; intros H;
    try discriminate H; congruence.
Qed.

Lemma z_boolean_Some (v : option json) (b : bool) :
  z_boolean v = Some b <-> v = Some (JBool b).
Proof.
  unfold z_boolean. destruct v as [[| b' | | | |] |]; split; intros H;
    try discriminate H; congruence.
Qed.

Lemma z_number_Some (v : option json) (n : number) :
  z_number v = Some n <-> v = Some (JNum n) /\ is_finite n = true.
Proof.
  unfold z_number. destruct v as [[| | m | | |] |]; split;
    try (intros [H _]; discriminate H); try discriminate.
  - destruct (is_finite m) eqn:Hm; [| discriminate].
    intros [= <-]. auto.
  - intros [[= <-] ->]. reflexivity.
Qed.

Lemma is_finite_not_NaN (n : number) : is_finite n = true -> n <> NaN.
Proof. intros H ->. discriminate H. Qed.

Lemma z_enum_Some (values : list string) (v : option json) (s : string) :
  z_enum values v = Some s <-> v = Some (JStr s) /\ In s values.
Proof.
  split.
  - intros H. split; [| exact (z_enum_In _ _ _ H)].
    unfold z_enum in H. destruct v as [[| | | s' | |] |]; try discriminate H.
    destruct (existsb _ _); [congruence | discriminate H].
  - intros [-> Hin]. unfold z_enum.
    assert (Hex : existsb (String.eqb s) values = true).
    { apply existsb_exists. exists s. split; [exact Hin | apply String.eqb_refl]. }
    rewrite Hex. reflexivity.
Qed.

Lemma z_positive_int_Some (v : option json) (n : number) :
  z_positive (z_int z_number) v = Some n
  <-> exists q, n = Int q /\ (0 < q /\ q <= 9007199254740991)
                /\ v = Some (JNum (Int q)).
Proof.
  unfold z_positive, z_int, check. split.
  - destruct (z_number v) as [m |] eqn:Hm; [| discriminate].
    apply z_number_Some in Hm as [-> _].
    destruct m as [q | t | | neg]; cbn; try discriminate.
    destruct (Z.abs q <=? 9007199254740991) eqn:Hsafe; [| discriminate]. cbn.
    destruct (0 <? q) eqn:Hq; [| discriminate].
    intros [= <-]. exists q. apply Z.ltb_lt in Hq. apply Z.leb_le in Hsafe.
    split; [reflexivity |]. split; [lia | reflexivity].
  - intros (q & -> & [Hq Hsafe] & ->). cbn.
    assert (Hle : (Z.abs q <=? 9007199254740991) = true) by (apply Z.leb_le; lia).
    rewrite Hle. cbn. apply Z.ltb_lt in Hq. rewrite Hq. reflexivity.
Qed.

Lemma z_int_Some (v : option json) (n : number) :
  z_int z_number v = Some n
  <-> exists q, n = Int q /\ Z.abs q <= 9007199254740991 /\ v = Some (JNum (Int q)).
Proof.
  unfold z_int, check. split.
  - destruct (z_number v) as [m |] eqn:Hm; [| discriminate].
    apply z_number_Some in Hm as [-> _].
    destruct m as [q | t | | neg]; cbn; try discriminate.
    destruct (Z.abs q <=? 9007199254740991) eqn:Hsafe; [| discriminate].
    intros [= <-]. exists q. apply Z.leb_le in Hsafe. auto.
  - intros (q & -> & Hsafe & ->). cbn. apply Z.leb_le in Hsafe. rewrite Hsafe.
    reflexivity.
Qed.

Lemma z_optional_Some {A : Type} (s : schema A) (v : option json) (x : option A) :
  z_optional s v = Some x
  <-> (v = None /\ x = None) \/ (exists j y, v = Some j /\ x = Some y /\ s v = Some y).
Proof.
  unfold z_optional. destruct v as [j |]; split.
  - destruct (s (Some j)) as [y |]; [| discriminate].
    intros [= <-]. right. exists j, y. auto.
  - intros [[H _] | (j' & y & _ & -> & ->)]; [discriminate H | reflexivity].
  - intros [= <-]. left. auto.
  - intros [[_ ->] | (j' & y & H & _)]; [reflexivity | discriminate H].
Qed.

Lemma z_nullable_Some {A : Type} (s : schema A) (v : option json) (x : option A) :
  s (Some JNull) = None ->
  z_nullable s v = Some x
  <-> (v = Some JNull /\ x = None) \/ (exists y, x = Some y /\ s v = Some y).
Proof.
  intros Hnull. unfold z_nullable. split.
  - assert (Hother : option_map Some (s v) = Some x ->
                     (v = Some JNull /\ x = None) \/ (exists y, x = Some y /\ s v = Some y)).
    { destruct (s v) as [y |]; [| discriminate].
      intros [= <-]. right. exists y. auto. }
    destruct v as [[| | | | |] |]; try exact Hother.
    intros [= <-]. left. auto.
  - intros [[-> ->] | (y & -> & Hy)]; [reflexivity |].
    destruct v as [[| | | | |] |]; try (rewrite Hy; reflexivity).
    rewrite Hnull in Hy. discriminate Hy.
Qed.

Lemma z_default_Some {A : Type} (d : A) (s : schema A) (v : option json) (x : A) :
  z_default d s v = Some x
  <-> (v = None /\ x = d) \/ (v <> None /\ s v = Some x).
Proof.
  unfold z_default. destruct v as [j |]; split.
  - intros H. right. split; [discriminate | exact H].
  - intros [[H _] | [_ H]]; [discriminate H | exact H].
  - intros [= <-]. left. auto.
  - intros [[_ ->] | [H _]]; [reflexivity | contradiction].
Qed.

(** ** What the schemas accept *)

(** X7.  The [place_order] schema accepts an arguments object exactly when
    instrument is a string, action and order_type are strings of their
    enumerations, quantity is a safe integer above zero (at most 2^53 - 1),
    limit_price and stop_price are each absent or a finite number, and
    expiration is absent (then "day") or a string of its enumeration; the
    validated arguments are those values. *)
Theorem place_order_schema_accepts (o : list (string * json)) (a : place_order.args) :
  place_order.schema (JObj o) = Some a
  <-> property "instrument" o = Some (JStr (place_order.instrument a))
      /\ (property "action" o = Some (JStr (place_order.action a))
          /\ In (place_order.action a) ["buy"; "buy_margin"; "sell"; "sell_short"])
      /\ (property "order_type" o = Some (JStr (place_order.order_type a))
          /\ In (place_order.order_type a) ["market"; "limit"; "stop"; "stop_limit"])
      /\ (exists q, place_order.quantity a = Int q
                    /\ (0 < q /\ q <= 9007199254740991)
                    /\ property "quantity" o = Some (JNum (Int q)))
      /\ ((property "limit_price" o = None /\ place_order.limit_price a = None)
          \/ (exists n, property "limit_price" o = Some (JNum n) /\ is_finite n = true
                        /\ place_order.limit_price a = Some n))
      /\ ((property "stop_price" o = None /\ place_order.stop_price a = None)
          \/ (exists n, property "stop_price" o = Some (JNum n) /\ is_finite n = true
                        /\ place_order.stop_price a = Some n))
      /\ ((property "expiration" o = None /\ place_order.expiration a = "day")
          \/ (property "expiration" o = Some (JStr (place_order.expiration a))
              /\ In (place_order.expiration a) ["day"; "day_ext"; "gtc"])).
Proof.
  unfold place_order.schema, field.
  assert (Hopt : forall k x,
    z_optional z_number (property k o) = Some x
    <-> (property k o = None /\ x = None)
        \/ (exists n, property k o = Some (JNum n) /\ is_finite n = true /\ x = Some n)).
  { intros k x. rewrite z_optional_Some. split.
    - intros [H | (j & y & Hj & -> & Hy)]; [left; exact H |].
      apply z_number_Some in Hy as [Hy Hfin]. right. exists y. auto.
    - intros [H | (n & Hn & Hfin & ->)]; [left; exact H |].
      right. exists (JNum n), n. split; [exact Hn |]. split; [reflexivity |].
      apply z_number_Some. auto. }
  split.
  - intros H.
    apply bind_Some in H as (x1 & H1 & H). apply bind_Some in H as (x2 & H2 & H).
    apply bind_Some in H as (x3 & H3 & H). apply bind_Some in H as (x4 & H4 & H).
    apply bind_Some in H as (x5 & H5 & H). apply bind_Some in H as (x6 & H6 & H).
    apply bind_Some in H as (x7 & H7 & H). injection H as <-.
    cbn [place_order.instrument place_order.action place_order.order_type
         place_order.quantity place_order.limit_price place_order.stop_price
         place_order.expiration].
    apply z_string_Some in H1. apply z_enum_Some in H2. apply z_enum_Some in H3.
    apply z_positive_int_Some in H4. apply Hopt in H5. apply Hopt in H6.
    apply z_default_Some in H7.
    repeat (split; [assumption |]).
    destruct H7 as [H7 | [_ H7]]; [left; exact H7 |].
    right. apply z_enum_Some in H7. exact H7.
  - destruct a as [i ac ot q lp sp ex].
    cbn [place_order.instrument place_order.action place_order.order_type
         place_order.quantity place_order.limit_price place_order.stop_price
         place_order.expiration].
    intros (H1 & H2 & H3 & H4 & H5 & H6 & H7).
    apply z_string_Some in H1. apply z_enum_Some in H2. apply z_enum_Some in H3.
    apply z_positive_int_Some in H4. apply Hopt in H5. apply Hopt in H6.
    assert (H7' : z_default "day" (z_enum ["day"; "day_ext"; "gtc"])
                    (property "expiration" o) = Some ex).
    { apply z_default_Some. destruct H7 as [H7 | H7]; [left; exact H7 |].
      right. split; [destruct H7 as [-> _]; discriminate |].
      apply z_enum_Some. exact H7. }
    rewrite H1, H2, H3, H4, H5, H6, H7'. reflexivity.
Qed.

Lemma place_order_schema_accepts_witness :
  place_order.schema
    (JObj [ ("instrument", JStr "AAPL.US"); ("action", JStr "buy");
            ("order_type", JStr "limit"); ("quantity", JNum (Int 10));
            ("limit_price", JNum (Dec "150.5")) ])
  = Some {| place_order.instrument := "AAPL.US"; place_order.action := "buy";
            place_order.order_type := "limit"; place_order.quantity := Int 10;
            place_order.limit_price := Some (Dec "150.5");
            place_order.stop_price := None; place_order.expiration := "day" |}
  /\ place_order.schema
       (JObj [ ("instrument", JStr "AAPL.US"); ("action", JStr "buy");
               ("order_type", JStr "market");
               ("quantity", JNum (Dec "9007199254740992")) ]) = None.
Proof.
  split; [| reflexivity].
  apply (place_order_schema_accepts
           [ ("instrument", JStr "AAPL.US"); ("action", JStr "buy");
             ("order_type", JStr "limit"); ("quantity", JNum (Int 10));
             ("limit_price", JNum (Dec "150.5")) ]).
  cbn. repeat split; try tauto.
  - exists 10. split; [reflexivity |]. split; [lia | reflexivity].
  - right. exists (Dec "150.5"). auto.
Defined.

(** X8.  [place_order] is rejected by its schema, so its handler never runs,
    when a required parameter is missing, when the quantity is zero, negative
    or not an integer, or when the action is outside its enumeration. *)
Theorem place_order_rejects (o : list (string * json)) :
  (exists k, In k ["instrument"; "action"; "order_type"; "quantity"]
             /\ property k o = None)
  \/ (exists q, property "quantity" o = Some (JNum (Int q)) /\ q <= 0)
  \/ (exists t, property "quantity" o = Some (JNum (Dec t)))
  \/ (exists s, property "action" o = Some (JStr s)
                /\ ~ In s ["buy"; "buy_margin"; "sell"; "sell_short"]) ->
  place_order.schema (JObj o) = None.
Proof.
  intros H. destruct (place_order.schema (JObj o)) as [a |] eqn:Hs; [| reflexivity].
  exfalso. unfold place_order.schema, field in Hs.
  apply bind_Some in Hs as (x1 & H1 & Hs). apply bind_Some in Hs as (x2 & H2 & Hs).
  apply bind_Some in Hs as (x3 & H3 & Hs). apply bind_Some in Hs as (x4 & H4 & _).
  apply z_string_Some in H1. apply z_enum_Some in H2 as [H2 Hin2].
  apply z_enum_Some in H3 as [H3 _].
  apply z_positive_int_Some in H4 as (q & _ & [Hq _] & H4).
  destruct H as [(k & Hk & Hnone) | [(q' & Hq' & Hle) | [(t & Ht) | (s & Hs & Hnot)]]].
  - cbn in Hk. destruct Hk as [<- | [<- | [<- | [<- | []]]]]; congruence.
  - rewrite H4 in Hq'. injection Hq' as <-. lia.
  - congruence.
  - rewrite H2 in Hs. injection Hs as <-. contradiction.
Qed.

Lemma place_order_rejects_witness :
  place_order.schema
    (JObj [ ("instrument", JStr "AAPL.US"); ("action", JStr "buy");
            ("order_type", JStr "market"); ("quantity", JNum (Int 0)) ]) = None.
Proof.
  apply (place_order_rejects
           [ ("instrument", JStr "AAPL.US"); ("action", JStr "buy");
             ("order_type", JStr "market"); ("quantity", JNum (Int 0)) ]).
  right. left. exists 0. split; [reflexivity | lia].
Defined.

(** ** The other tools: command and parameters *)

(** X9.  The three tools without parameters post the empty object [{}]:
    [get_user_data] to getOPQ, [get_portfolio] to getPositionJson and
    [get_security_sessions] to getSecuritySessions. *)
Theorem no_argument_tools_post_empty_object (cfg : config) (w : world) :
  PUBLIC_KEY cfg <> "" ->
  PRIVATE_KEY cfg <> "" ->
  exists r1 r2 r3,
    (snd (get_user_data.handler cfg tt w) = send r1 w
     /\ url r1 = API_BASE cfg +:+ "/getOPQ" /\ data r1 = "{}")
    /\ (snd (get_portfolio.handler cfg tt w) = send r2 w
        /\ url r2 = API_BASE cfg +:+ "/getPositionJson" /\ data r2 = "{}")
    /\ (snd (get_security_sessions.handler cfg tt w) = send r3 w
        /\ url r3 = API_BASE cfg +:+ "/getSecuritySessions" /\ data r3 = "{}").
Proof.
  intros Hpub Hpriv.
  destruct (respond_posts cfg "getOPQ" (JObj []) w Hpub Hpriv) as (r1 & H1 & _ & U1 & D1).
  destruct (respond_posts cfg "getPositionJson" (JObj []) w Hpub Hpriv)
    as (r2 & H2 & _ & U2 & D2).
  destruct (respond_posts cfg "getSecuritySessions" (JObj []) w Hpub Hpriv)
    as (r3 & H3 & _ & U3 & D3).
  exists r1, r2, r3. repeat split; assumption.
Qed.

Lemma no_argument_tools_post_empty_object_witness :
  exists r1 r2 r3,
    (snd (get_user_data.handler Scenario.cfg tt Scenario.world0) = send r1 Scenario.world0
     /\ url r1 = "https://tradernet.com/api/getOPQ" /\ data r1 = "{}")
    /\ (snd (get_portfolio.handler Scenario.cfg tt Scenario.world0)
        = send r2 Scenario.world0
        /\ url r2 = "https://tradernet.com/api/getPositionJson" /\ data r2 = "{}")
    /\ (snd (get_security_sessions.handler Scenario.cfg tt Scenario.world0)
        = send r3 Scenario.world0
        /\ url r3 = "https://tradernet.com/api/getSecuritySessions" /\ data r3 = "{}").
Proof.
  apply (no_argument_tools_post_empty_object Scenario.cfg Scenario.world0).
  - vm_compute. discriminate.
  - vm_compute. discriminate.
Defined.

(** X10.  [cancel_order] accepts only a number for [order_id] and posts it as
    it came, alone under [order_id], to delTradeOrder. *)
Theorem cancel_order_passes_order_id
    (cfg : config) (o : list (string * json)) (a : cancel_order.args) (w : world) :
  cancel_order.schema (JObj o) = Some a ->
  PUBLIC_KEY cfg <> "" ->
  PRIVATE_KEY cfg <> "" ->
  exists id req,
    property "order_id" o = Some (JNum id)
    /\ id <> NaN
    /\ snd (cancel_order.handler cfg a w) = send req w
    /\ url req = API_BASE cfg +:+ "/delTradeOrder"
    /\ data req = JSON_stringify (JObj [("order_id", JNum id)]).
Proof.
  unfold cancel_order.schema, field. intros H Hpub Hpriv.
  apply bind_Some in H as (id & H1 & H). injection H as <-.
  apply z_number_Some in H1 as [H1 Hnan]. apply is_finite_not_NaN in Hnan.
  destruct (respond_posts cfg "delTradeOrder" (JObj [("order_id", JNum id)]) w Hpub Hpriv)
    as (req & Hsend & _ & Hurl & Hdata).
  exists id, req. auto.
Qed.

Lemma cancel_order_passes_order_id_witness :
  exists req,
    snd (cancel_order.handler Scenario.cfg {| cancel_order.order_id := Int 7 |}
           Scenario.world0) = send req Scenario.world0
    /\ url req = "https://tradernet.com/api/delTradeOrder"
    /\ data req = json_text "{'order_id':7}".
Proof.
  destruct (cancel_order_passes_order_id Scenario.cfg [("order_id", JNum (Int 7))]
              {| cancel_order.order_id := Int 7 |} Scenario.world0)
    as (id & req & Hid & _ & Hsend & Hurl & Hdata).
  - reflexivity.
  - vm_compute. discriminate.
  - vm_compute. discriminate.
  - exists req. split; [exact Hsend |]. split; [exact Hurl |].
    rewrite Hdata. injection Hid as <-. vm_compute. reflexivity.
Defined.

(** X11.  [get_security_info] posts to getSecurityInfo the ticker it was
    given and the constant [sup: true]; whatever bytes the ticker has, the
    body is a JSON text that reads back as exactly that mapping. *)
Theorem get_security_info_adds_sup
    (cfg : config) (o : list (string * json)) (a : get_security_info.args) (w : world) :
  get_security_info.schema (JObj o) = Some a ->
  PUBLIC_KEY cfg <> "" ->
  PRIVATE_KEY cfg <> "" ->
  exists ticker req,
    property "ticker" o = Some (JStr ticker)
    /\ snd (get_security_info.handler cfg a w) = send req w
    /\ url req = API_BASE cfg +:+ "/getSecurityInfo"
    /\ data req = JSON_stringify (JObj [("ticker", JStr ticker); ("sup", JBool true)])
    /\ JSON_parse (data req) = inl (JObj [("ticker", JStr ticker); ("sup", JBool true)]).
Proof.
  unfold get_security_info.schema, field. intros H Hpub Hpriv.
  apply bind_Some in H as (ticker & H1 & H). injection H as <-.
  apply z_string_Some in H1.
  destruct (respond_posts cfg "getSecurityInfo"
              (JObj [("ticker", JStr ticker); ("sup", JBool true)]) w Hpub Hpriv)
    as (req & Hsend & _ & Hurl & Hdata).
  exists ticker, req. repeat (split; [assumption |]).
  refine (stringify_parses _ _ _ Hdata). reflexivity.
Qed.

Lemma get_security_info_adds_sup_witness :
  exists req,
    snd (get_security_info.handler Scenario.cfg {| get_security_info.ticker := "SBER" |}
           Scenario.world0) = send req Scenario.world0
    /\ data req = json_text "{'ticker':'SBER','sup':true}".
Proof.
  destruct (get_security_info_adds_sup Scenario.cfg [("ticker", JStr "SBER")]
              {| get_security_info.ticker := "SBER" |} Scenario.world0)
    as (ticker & req & Hticker & Hsend & _ & Hdata & _).
  - reflexivity.
  - vm_compute. discriminate.
  - vm_compute. discriminate.
  - exists req. split; [exact Hsend |].
    rewrite Hdata. injection Hticker as <-. vm_compute. reflexivity.
Defined.

(** X12.  [search_tickers] posts its query under [text] to tickerFinder, and
    no query can break out of the body: whatever bytes it has (quotes,
    backslashes, control characters), the body is a JSON text that reads back
    as the one-property object holding exactly that query. *)
Theorem search_tickers_sends_query_as_text
    (cfg : config) (o : list (string * json)) (a : search_tickers.args) (w : world) :
  search_tickers.schema (JObj o) = Some a ->
  PUBLIC_KEY cfg <> "" ->
  PRIVATE_KEY cfg <> "" ->
  exists query req,
    property "query" o = Some (JStr query)
    /\ snd (search_tickers.handler cfg a w) = send req w
    /\ url req = API_BASE cfg +:+ "/tickerFinder"
    /\ data req = JSON_stringify (JObj [("text", JStr query)])
    /\ JSON_parse (data req) = inl (JObj [("text", JStr query)]).
Proof.
  unfold search_tickers.schema, field. intros H Hpub Hpriv.
  apply bind_Some in H as (query & H1 & H). injection H as <-.
  apply z_string_Some in H1.
  destruct (respond_posts cfg "tickerFinder" (JObj [("text", JStr query)]) w Hpub Hpriv)
    as (req & Hsend & _ & Hurl & Hdata).
  exists query, req. repeat (split; [assumption |]).
  refine (stringify_parses _ _ _ Hdata). reflexivity.
Qed.

Lemma search_tickers_sends_query_as_text_witness :
  exists req,
    snd (search_tickers.handler Scenario.cfg
           {| search_tickers.query := Examples.awkward_query |} Scenario.world0)
    = send req Scenario.world0
    /\ data req = json_text "{'text':'AAPL\'@FIX\\'}"
    /\ JSON_parse (data req) = inl (JObj [("text", JStr Examples.awkward_query)]).
Proof.
  destruct (search_tickers_sends_query_as_text Scenario.cfg
              [("query", JStr Examples.awkward_query)]
              {| search_tickers.query := Examples.awkward_query |} Scenario.world0)
    as (query & req & Hquery & Hsend & _ & Hdata & Hback).
  - reflexivity.
  - vm_compute. discriminate.
  - vm_compute. discriminate.
  - injection Hquery as <-. exists req. split; [exact Hsend |].
    split; [| exact Hback]. rewrite Hdata. vm_compute. reflexivity.
Defined.

Lemma z_number_null : z_number (Some JNull) = None.
Proof. reflexivity. Qed.

Lemma z_nullable_number_Some (v : option json) (x : option number) :
  z_nullable z_number v = Some x ->
  v = Some (set_stop_loss_take_profit.number_or_null x)
  /\ (set_stop_loss_take_profit.number_or_null x = JNull
      \/ exists n, set_stop_loss_take_profit.number_or_null x = JNum n
                   /\ is_finite n = true).
Proof.
  intros H. apply (z_nullable_Some _ _ _ z_number_null) in H
    as [[-> ->] | (n & -> & Hn)].
  - split; [reflexivity | left; reflexivity].
  - apply z_number_Some in Hn as [-> Hfin]. split; [reflexivity |].
    right. exists n. auto.
Qed.

(** X13.  [set_stop_loss_take_profit] takes a string instrument, a
    stop_loss and a take_profit that are each null or a finite number (both
    required), and a trailing_stop_percent that is absent, null or a finite
    number.  It posts to putStopLoss the instrument and, as they came, the
    values of stop_loss, take_profit and trailing_stop_percent, the last one
    as null when it is absent. *)
Theorem set_stop_loss_take_profit_passes_nulls
    (cfg : config) (o : list (string * json)) (a : set_stop_loss_take_profit.args)
    (w : world) :
  set_stop_loss_take_profit.schema (JObj o) = Some a ->
  PUBLIC_KEY cfg <> "" ->
  PRIVATE_KEY cfg <> "" ->
  exists instrument stop_loss take_profit req,
    property "instrument" o = Some (JStr instrument)
    /\ property "stop_loss" o = Some stop_loss
    /\ (stop_loss = JNull \/ exists n, stop_loss = JNum n /\ is_finite n = true)
    /\ property "take_profit" o = Some take_profit
    /\ (take_profit = JNull \/ exists n, take_profit = JNum n /\ is_finite n = true)
    /\ (property "trailing_stop_percent" o = None
        \/ property "trailing_stop_percent" o = Some JNull
        \/ exists n, property "trailing_stop_percent" o = Some (JNum n)
                     /\ is_finite n = true)
    /\ snd (set_stop_loss_take_profit.handler cfg a w) = send req w
    /\ url req = API_BASE cfg +:+ "/putStopLoss"
    /\ data req =
         JSON_stringify
           (JObj [ ("instr_name", JStr instrument);
                   ("stop_loss", stop_loss);
                   ("take_profit", take_profit);
                   ("stoploss_trailing_percent",
                    match property "trailing_stop_percent" o with
                    | Some trailing => trailing
                    | None => JNull
                    end) ]).
Proof.
  unfold set_stop_loss_take_profit.schema, field. intros H Hpub Hpriv.
  apply bind_Some in H as (x1 & H1 & H). apply bind_Some in H as (x2 & H2 & H).
  apply bind_Some in H as (x3 & H3 & H). apply bind_Some in H as (x4 & H4 & H).
  injection H as <-.
  apply z_string_Some in H1.
  apply z_nullable_number_Some in H2 as [H2 Hloss].
  apply z_nullable_number_Some in H3 as [H3 Hprofit].
  assert (Htrail : match property "trailing_stop_percent" o with
                   | Some trailing => trailing
                   | None => JNull
                   end = set_stop_loss_take_profit.number_or_null (nullish x4 None)
                   /\ (property "trailing_stop_percent" o = None
                       \/ property "trailing_stop_percent" o = Some JNull
                       \/ exists n, property "trailing_stop_percent" o = Some (JNum n)
                                    /\ is_finite n = true)).
  { apply z_optional_Some in H4 as [[-> ->] | (j & y & Hj & -> & Hy)];
      [split; [reflexivity | left; reflexivity] |].
    apply z_nullable_number_Some in Hy as [Hy Hshape]. rewrite Hy.
    split; [reflexivity |]. right.
    destruct Hshape as [-> | (n & -> & Hfin)]; [left; reflexivity |].
    right. exists n. auto. }
  destruct Htrail as [Htrail Hshape].
  destruct (respond_posts cfg "putStopLoss"
              (JObj [ ("instr_name", JStr x1);
                      ("stop_loss", set_stop_loss_take_profit.number_or_null x2);
                      ("take_profit", set_stop_loss_take_profit.number_or_null x3);
                      ("stoploss_trailing_percent",
                       set_stop_loss_take_profit.number_or_null (nullish x4 None)) ])
              w Hpub Hpriv) as (req & Hsend & _ & Hurl & Hdata).
  exists x1, (set_stop_loss_take_profit.number_or_null x2),
         (set_stop_loss_take_profit.number_or_null x3), req.
  rewrite Htrail. auto 12.
Qed.

Lemma set_stop_loss_take_profit_passes_nulls_witness :
  exists req,
    snd (set_stop_loss_take_profit.handler Scenario.cfg
           {| set_stop_loss_take_profit.instrument := "SBER";
              set_stop_loss_take_profit.stop_loss := None;
              set_stop_loss_take_profit.take_profit := Some (Int 250);
              set_stop_loss_take_profit.trailing_stop_percent := None |}
           Scenario.world0) = send req Scenario.world0
    /\ data req = json_text
         "{'instr_name':'SBER','stop_loss':null,'take_profit':250,'stoploss_trailing_percent':null}".
Proof.
  destruct (set_stop_loss_take_profit_passes_nulls Scenario.cfg
              [ ("instrument", JStr "SBER"); ("stop_loss", JNull);
                ("take_profit", JNum (Int 250)) ]
              {| set_stop_loss_take_profit.instrument := "SBER";
                 set_stop_loss_take_profit.stop_loss := None;
                 set_stop_loss_take_profit.take_profit := Some (Int 250);
                 set_stop_loss_take_profit.trailing_stop_percent := None |}
              Scenario.world0)
    as (i & sl & tp & req & Hi & Hsl & _ & Htp & _ & _ & Hsend & _ & Hdata).
  - reflexivity.
  - vm_compute. discriminate.
  - vm_compute. discriminate.
  - exists req. split; [exact Hsend |]. rewrite Hdata.
    injection Hi as <-. injection Hsl as <-. injection Htp as <-.
    vm_compute. reflexivity.
Defined.

(** X14.  [add_price_alert] posts to togglePriceAlert the ticker, the price
    wrapped as [{price: <price>}], the trigger type, the quote type
    ("ltp" when absent), the notification type ("push" when absent), the
    alert period as a string ("0" when absent) and the constant
    [expire: 0]; the body reads back as exactly that mapping. *)
Theorem add_price_alert_params
    (cfg : config) (o : list (string * json)) (a : add_price_alert.args) (w : world) :
  add_price_alert.schema (JObj o) = Some a ->
  PUBLIC_KEY cfg <> "" ->
  PRIVATE_KEY cfg <> "" ->
  exists req,
    snd (add_price_alert.handler cfg a w) = send req w
    /\ url req = API_BASE cfg +:+ "/togglePriceAlert"
    /\ data req =
         JSON_stringify
           (JObj [ ("ticker", JStr (add_price_alert.ticker a));
                   ("price", JObj [("price", JStr (add_price_alert.price a))]);
                   ("trigger_type", JStr (add_price_alert.trigger_type a));
                   ("quote_type", JStr (add_price_alert.quote_type a));
                   ("notification_type", JStr (add_price_alert.notification_type a));
                   ("alert_period", JStr (add_price_alert.alert_period a));
                   ("expire", JNum (Int 0)) ])
    /\ JSON_parse (data req) =
         inl (JObj [ ("ticker", JStr (add_price_alert.ticker a));
                     ("price", JObj [("price", JStr (add_price_alert.price a))]);
                     ("trigger_type", JStr (add_price_alert.trigger_type a));
                     ("quote_type", JStr (add_price_alert.quote_type a));
                     ("notification_type", JStr (add_price_alert.notification_type a));
                     ("alert_period", JStr (add_price_alert.alert_period a));
                     ("expire", JNum (Int 0)) ])
    /\ property "ticker" o = Some (JStr (add_price_alert.ticker a))
    /\ property "price" o = Some (JStr (add_price_alert.price a))
    /\ property "trigger_type" o = Some (JStr (add_price_alert.trigger_type a))
    /\ ((property "quote_type" o = None /\ add_price_alert.quote_type a = "ltp")
        \/ property "quote_type" o = Some (JStr (add_price_alert.quote_type a)))
    /\ ((property "notification_type" o = None
         /\ add_price_alert.notification_type a = "push")
        \/ property "notification_type" o
           = Some (JStr (add_price_alert.notification_type a)))
    /\ ((property "alert_period" o = None /\ add_price_alert.alert_period a = "0")
        \/ property "alert_period" o = Some (JStr (add_price_alert.alert_period a))).
Proof.
  unfold add_price_alert.schema, field. intros H Hpub Hpriv.
  apply bind_Some in H as (x1 & H1 & H). apply bind_Some in H as (x2 & H2 & H).
  apply bind_Some in H as (x3 & H3 & H). apply bind_Some in H as (x4 & H4 & H).
  apply bind_Some in H as (x5 & H5 & H). apply bind_Some in H as (x6 & H6 & H).
  injection H as <-.
  cbn [add_price_alert.ticker add_price_alert.price add_price_alert.trigger_type
       add_price_alert.quote_type add_price_alert.notification_type
       add_price_alert.alert_period].
  apply z_string_Some in H1. apply z_string_Some in H2.
  apply z_enum_Some in H3 as [H3 _].
  apply z_default_Some in H4. apply z_default_Some in H5. apply z_default_Some in H6.
  destruct (respond_posts cfg "togglePriceAlert"
              (JObj [ ("ticker", JStr x1); ("price", JObj [("price", JStr x2)]);
                      ("trigger_type", JStr x3); ("quote_type", JStr x4);
                      ("notification_type", JStr x5); ("alert_period", JStr x6);
                      ("expire", JNum (Int 0)) ]) w Hpub Hpriv)
    as (req & Hsend & _ & Hurl & Hdata).
  exists req. repeat (split; [assumption |]).
  split; [refine (stringify_parses _ _ _ Hdata); reflexivity |].
  repeat (split; [assumption |]).
  split; [| split].
  - destruct H4 as [H4 | [_ H4]]; [left; exact H4 |].
    right. apply z_enum_Some in H4 as [H4 _]. exact H4.
  - destruct H5 as [H5 | [_ H5]]; [left; exact H5 |].
    right. apply z_enum_Some in H5 as [H5 _]. exact H5.
  - destruct H6 as [H6 | [_ H6]]; [left; exact H6 |].
    right. apply z_enum_Some in H6 as [H6 _]. exact H6.
Qed.

Lemma add_price_alert_params_witness :
  exists req,
    snd (add_price_alert.handler Scenario.cfg
           {| add_price_alert.ticker := "MSFT.US"; add_price_alert.price := "400";
              add_price_alert.trigger_type := "crossing_up";
              add_price_alert.quote_type := "ltp";
              add_price_alert.notification_type := "push";
              add_price_alert.alert_period := "0" |} Scenario.world0)
    = send req Scenario.world0
    /\ data req = json_text
         "{'ticker':'MSFT.US','price':{'price':'400'},'trigger_type':'crossing_up','quote_type':'ltp','notification_type':'push','alert_period':'0','expire':0}".
Proof.
  destruct (add_price_alert_params Scenario.cfg
              [ ("ticker", JStr "MSFT.US"); ("price", JStr "400");
                ("trigger_type", JStr "crossing_up") ]
              {| add_price_alert.ticker := "MSFT.US"; add_price_alert.price := "400";
                 add_price_alert.trigger_type := "crossing_up";
                 add_price_alert.quote_type := "ltp";
                 add_price_alert.notification_type := "push";
                 add_price_alert.alert_period := "0" |} Scenario.world0)
    as (req & Hsend & _ & Hdata & _).
  - reflexivity.
  - vm_compute. discriminate.
  - vm_compute. discriminate.
  - exists req. split; [exact Hsend |]. rewrite Hdata. vm_compute. reflexivity.
Defined.

(** X19.  For a valid [get_quotes_history] invocation the count is an
    integer, 0 when absent, and the body is a JSON text that reads back as
    the mapping of id, the timeframe as an integer, the two dates, the count
    and [intervalMode: "ClosedRay"]. *)
Theorem get_quotes_history_body_reads_back
    (cfg : config) (o : list (string * json)) (a : get_quotes_history.args) (w : world) :
  get_quotes_history.schema (JObj o) = Some a ->
  PUBLIC_KEY cfg <> "" ->
  PRIVATE_KEY cfg <> "" ->
  exists minutes count req,
    In (get_quotes_history.timeframe a, minutes)
       [("1", 1); ("5", 5); ("15", 15); ("60", 60); ("1440", 1440)]
    /\ ((property "count" o = None /\ count = 0)
        \/ property "count" o = Some (JNum (Int count)))
    /\ snd (get_quotes_history.handler cfg a w) = send req w
    /\ JSON_parse (data req)
       = inl (JObj [ ("id", JStr (get_quotes_history.ticker a));
                     ("timeframe", JNum (Int minutes));
                     ("date_from", JStr (get_quotes_history.date_from a));
                     ("date_to", JStr (get_quotes_history.date_to a));
                     ("count", JNum (Int count));
                     ("intervalMode", JStr "ClosedRay") ]).
Proof.
  intros Hvalid Hpub Hpriv.
  assert (Hparse : exists minutes,
            In (get_quotes_history.timeframe a, minutes)
               [("1", 1); ("5", 5); ("15", 15); ("60", 60); ("1440", 1440)]
            /\ parseInt (get_quotes_history.timeframe a) = Int minutes).
  { pose proof (get_quotes_history_schema_valid _ _ Hvalid) as Hin.
    repeat (destruct Hin as [<- | Hin];
            [eexists; split; [| vm_compute; reflexivity]; cbn; tauto |]).
    destruct Hin. }
  destruct Hparse as (minutes & Htable & Hint).
  destruct (respond_posts cfg "getHloc"
              (JObj [ ("id", JStr (get_quotes_history.ticker a));
                      ("timeframe", JNum (parseInt (get_quotes_history.timeframe a)));
                      ("date_from", JStr (get_quotes_history.date_from a));
                      ("date_to", JStr (get_quotes_history.date_to a));
                      ("count", JNum (get_quotes_history.count a));
                      ("intervalMode", JStr "ClosedRay") ]) w Hpub Hpriv)
    as (req & Hsend & _ & _ & Hdata).
  rewrite Hint in Hdata.
  assert (Hcount : exists count,
            get_quotes_history.count a = Int count
            /\ Z.abs count <= 9007199254740991
            /\ ((property "count" o = None /\ count = 0)
                \/ property "count" o = Some (JNum (Int count)))).
  { unfold get_quotes_history.schema, field in Hvalid.
    apply bind_Some in Hvalid as (x1 & _ & H). apply bind_Some in H as (x2 & _ & H).
    apply bind_Some in H as (x3 & _ & H). apply bind_Some in H as (x4 & _ & H).
    apply bind_Some in H as (x5 & H5 & H). injection H as <-.
    cbn [get_quotes_history.count].
    apply z_default_Some in H5 as [[Hnone ->] | [_ H5]].
    - exists 0. split; [reflexivity |]. split; [cbn; lia | auto].
    - apply z_int_Some in H5 as (q & -> & Hsafe & Hq). exists q. auto. }
  destruct Hcount as (count & Hc & Hsafe & Hprop).
  exists minutes, count, req. split; [exact Htable |]. split; [exact Hprop |].
  split; [exact Hsend |]. rewrite Hc in Hdata.
  assert (Hminutes : (Z.abs minutes <=? 9007199254740991) = true).
  { cbn [In] in Htable.
    destruct Htable as [H | [H | [H | [H | [H | []]]]]]; injection H as _ <-;
      reflexivity. }
  apply Z.leb_le in Hsafe.
  refine (stringify_parses _ _ _ Hdata).
  cbn [canonical forallb snd]. rewrite Hminutes, Hsafe. reflexivity.
Qed.

Lemma get_quotes_history_body_reads_back_witness :
  exists req,
    snd (get_quotes_history.handler Scenario.cfg
           {| get_quotes_history.ticker := "AAPL.US";
              get_quotes_history.timeframe := "15";
              get_quotes_history.date_from := "01.01.2025 00:00";
              get_quotes_history.date_to := "31.01.2025 23:59";
              get_quotes_history.count := Int 0 |} Scenario.world0)
    = send req Scenario.world0
    /\ JSON_parse (data req)
       = inl (JObj [ ("id", JStr "AAPL.US"); ("timeframe", JNum (Int 15));
                     ("date_from", JStr "01.01.2025 00:00");
                     ("date_to", JStr "31.01.2025 23:59");
                     ("count", JNum (Int 0)); ("intervalMode", JStr "ClosedRay") ]).
Proof.
  destruct (get_quotes_history_body_reads_back Scenario.cfg
              [ ("ticker", JStr "AAPL.US"); ("timeframe", JStr "15");
                ("date_from", JStr "01.01.2025 00:00");
                ("date_to", JStr "31.01.2025 23:59") ]
              {| get_quotes_history.ticker := "AAPL.US";
                 get_quotes_history.timeframe := "15";
                 get_quotes_history.date_from := "01.01.2025 00:00";
                 get_quotes_history.date_to := "31.01.2025 23:59";
                 get_quotes_history.count := Int 0 |} Scenario.world0)
    as (minutes & count & req & Htable & Hcount & Hsend & Hback).
  - reflexivity.
  - vm_compute. discriminate.
  - vm_compute. discriminate.
  - exists req. split; [exact Hsend |]. rewrite Hback. cbn in Htable.
    assert (minutes = 15) as ->
      by (destruct Htable as [H | [H | [H | [H | [H | []]]]]]; congruence).
    assert (count = 0) as ->
      by (destruct Hcount as [[_ H] | H]; [exact H | discriminate H]).
    reflexivity.
Defined.

(** ** raw_api_call *)

(** X15.  [raw_api_call] requires a string command; its params string is
    "{}" when absent and use_v2 is false when absent, and otherwise they are
    the string and the boolean given. *)
Theorem raw_api_call_schema_defaults (o : list (string * json)) (a : raw_api_call.args) :
  raw_api_call.schema (JObj o) = Some a ->
  property "command" o = Some (JStr (raw_api_call.command a))
  /\ ((property "params" o = None /\ raw_api_call.params a = "{}")
      \/ property "params" o = Some (JStr (raw_api_call.params a)))
  /\ ((property "use_v2" o = None /\ raw_api_call.use_v2 a = false)
      \/ property "use_v2" o = Some (JBool (raw_api_call.use_v2 a))).
Proof.
  unfold raw_api_call.schema, field. intros H.
  apply bind_Some in H as (x1 & H1 & H). apply bind_Some in H as (x2 & H2 & H).
  apply bind_Some in H as (x3 & H3 & H). injection H as <-.
  cbn [raw_api_call.command raw_api_call.params raw_api_call.use_v2].
  apply z_string_Some in H1. apply z_default_Some in H2. apply z_default_Some in H3.
  split; [exact H1 |]. split.
  - destruct H2 as [H2 | [_ H2]]; [left; exact H2 |].
    right. apply z_string_Some. exact H2.
  - destruct H3 as [H3 | [_ H3]]; [left; exact H3 |].
    right. apply z_boolean_Some. exact H3.
Qed.

Lemma raw_api_call_schema_defaults_witness :
  raw_api_call.schema (JObj [("command", JStr "getOPQ")])
  = Some {| raw_api_call.command := "getOPQ"; raw_api_call.params := "{}";
            raw_api_call.use_v2 := false |}
  /\ property "params" [("command", JStr "getOPQ")] = None.
Proof.
  destruct (raw_api_call_schema_defaults [("command", JStr "getOPQ")]
              {| raw_api_call.command := "getOPQ"; raw_api_call.params := "{}";
                 raw_api_call.use_v2 := false |}) as (_ & [[Hnone _] | Hsome] & _).
  - reflexivity.
  - split; [reflexivity | exact Hnone].
  - discriminate Hsome.
Defined.

(** X16.  With credentials set, when the params string of [raw_api_call]
    parses, whatever JSON value it denotes (an object or not) is serialized
    again and posted once to [<base>/<command>], the command being the
    caller's; the envelope follows the remote's answer as for the other
    tools.  The body is the text of the value, not the caller's text: white
    space is gone and a number is written as the double it was read as. *)
Theorem raw_api_call_forwards_parsed
    (cfg : config) (a : raw_api_call.args) (parsed : json) (w : world) :
  PUBLIC_KEY cfg <> "" ->
  PRIVATE_KEY cfg <> "" ->
  JSON_parse (raw_api_call.params a) = inl parsed ->
  exists req,
    url req = API_BASE cfg +:+ "/" +:+ raw_api_call.command a
    /\ data req = JSON_stringify parsed
    /\ raw_api_call.handler cfg a w =
         (Returned
            match remote w req with
            | inl body =>
                {| content := [{| type := "text"; text := JSON_stringify_gap "" body |}];
                   isError := None |}
            | inr msg =>
                {| content := [{| type := "text"; text := "Error: " +:+ msg |}];
                   isError := Some true |}
            end,
          {| now := now w; remote := remote w; posted := posted w ++ [req] |}).
Proof.
  intros Hpub Hpriv Hparse.
  exists (signed_request cfg (now w) (raw_api_call.command a) parsed).
  split; [reflexivity |]. split; [reflexivity |].
  rewrite (raw_api_call_parsed _ _ _ Hparse), (respond_configured _ _ _ _ Hpub Hpriv).
  destruct (remote w _); reflexivity.
Qed.

Lemma raw_api_call_forwards_parsed_witness :
  exists req,
    url req = "https://tradernet.com/api/getNews"
    /\ data req = json_text "[100,{'a':null,'b':1.5},9007199254740992]"
    /\ posted (snd (raw_api_call.handler Scenario.cfg
                      {| raw_api_call.command := "getNews";
                         raw_api_call.params :=
                           json_text " [ 1e2 , { 'a' : null, 'b' : 1.50 }, 9007199254740993 ] ";
                         raw_api_call.use_v2 := true |} Scenario.world0)) = [req].
Proof.
  destruct (raw_api_call_forwards_parsed Scenario.cfg
              {| raw_api_call.command := "getNews";
                 raw_api_call.params :=
                   json_text " [ 1e2 , { 'a' : null, 'b' : 1.50 }, 9007199254740993 ] ";
                 raw_api_call.use_v2 := true |}
              (JArr [ JNum (Int 100); JObj [("a", JNull); ("b", JNum (Dec "1.5"))];
                      JNum (Dec "9007199254740992") ]) Scenario.world0)
    as (req & Hurl & Hdata & Hrun).
  - vm_compute. discriminate.
  - vm_compute. discriminate.
  - vm_compute. reflexivity.
  - exists req. split; [exact Hurl |]. split; [rewrite Hdata; vm_compute; reflexivity |].
    rewrite Hrun. reflexivity.
Defined.

(** X18.  With credentials set, when the params string of [raw_api_call] is
    the compact text, as [JSON.stringify] writes it, of a value whose numbers
    are safe integers and whose objects have distinct keys in property order,
    the body posted is that same text, byte for byte. *)
Theorem raw_api_call_resends_canonical_text
    (cfg : config) (a : raw_api_call.args) (v : json) (w : world) :
  PUBLIC_KEY cfg <> "" ->
  PRIVATE_KEY cfg <> "" ->
  canonical v = true ->
  raw_api_call.params a = JSON_stringify v ->
  exists req,
    posted (snd (raw_api_call.handler cfg a w)) = posted w ++ [req]
    /\ url req = API_BASE cfg +:+ "/" +:+ raw_api_call.command a
    /\ data req = raw_api_call.params a.
Proof.
  intros Hpub Hpriv Hcan Hparams.
  pose proof (stringify_parses v _ Hcan Hparams) as Hparse.
  exists (signed_request cfg (now w) (raw_api_call.command a) v).
  rewrite (raw_api_call_parsed _ _ _ Hparse), (respond_configured _ _ _ _ Hpub Hpriv).
  rewrite Hparams. repeat split; reflexivity.
Qed.

Lemma raw_api_call_resends_canonical_text_witness :
  exists req,
    posted (snd (raw_api_call.handler Scenario.cfg
                   {| raw_api_call.command := "getNews";
                      raw_api_call.params := JSON_stringify Examples.sample_value;
                      raw_api_call.use_v2 := false |} Scenario.world0)) = [req]
    /\ data req = JSON_stringify Examples.sample_value.
Proof.
  destruct (raw_api_call_resends_canonical_text Scenario.cfg
              {| raw_api_call.command := "getNews";
                 raw_api_call.params := JSON_stringify Examples.sample_value;
                 raw_api_call.use_v2 := false |}
              Examples.sample_value Scenario.world0)
    as (req & Hposted & _ & Hdata).
  - vm_compute. discriminate.
  - vm_compute. discriminate.
  - vm_compute. reflexivity.
  - reflexivity.
  - exists req. split; [exact Hposted | exact Hdata].
Defined.
